(** * sync-ml-to-shopify: a shallow embedding of the synchronisation engine

    The repository is one script, [sync-ml-to-shopify.js], kept in two
    versions.  Both read a Shopify catalogue page by page, look every
    variant's SKU up on MercadoLibre and write the marketplace price back
    when it differs by more than 1%.

    The script is effectful: it talks to three HTTP endpoints, sleeps and
    logs.  It is embedded as functions in a small monad that threads the
    history of events and collects the events a computation emits; the
    remote services are a [World] answering each request from the history
    so far.  [while] loops take a fuel argument.

    JavaScript numbers are binary64 values with the operations of the
    standard library's specification of IEEE 754 ([SpecFloat]); a
    decimal is read by rounding it to the nearest value.  The arithmetic
    of the change detector is given a second time on the primitive
    floats of the machine, in [Binary64], to compare the two. *)

From Stdlib Require Import ZArith QArith Qabs Qminmax Qpower.
From Stdlib Require Import String Ascii List Sorted Bool Arith Lia.
From Stdlib Require Import SpecFloat.
From Stdlib Require PrimFloat FloatOps.
Import ListNotations.

Close Scope Q_scope.
Open Scope string_scope.
Open Scope list_scope.

(* ================================================================== *)
(** ** JavaScript strings *)
(* ================================================================== *)

(** Strings are sequences of code units below 256.  The white space of
    [String.prototype.trim] in that range: TAB, LF, VT, FF, CR, SP and
    NBSP. *)
Definition isWhiteSpace (c : ascii) : bool :=
  let n := nat_of_ascii c in
  ((9 <=? n)%nat && (n <=? 13)%nat) || (n =? 32)%nat || (n =? 160)%nat.

Fixpoint trimStart (s : string) : string :=
  match s with
  | EmptyString => EmptyString
  | String c r => if isWhiteSpace c then trimStart r else s
  end.

Definition isEmpty (s : string) : bool :=
  match s with EmptyString => true | String _ _ => false end.

Fixpoint trimEnd (s : string) : string :=
  match s with
  | EmptyString => EmptyString
  | String c r =>
      let r' := trimEnd r in
      if isWhiteSpace c && isEmpty r' then EmptyString else String c r'
  end.

(** [s.trim()] *)
Definition trim (s : string) : string := trimEnd (trimStart s).

Definition lowerChar (c : ascii) : ascii :=
  let n := nat_of_ascii c in
  if ((65 <=? n)%nat && (n <=? 90)%nat)
     || ((192 <=? n)%nat && (n <=? 222)%nat && negb (n =? 215)%nat)
  then ascii_of_nat (n + 32) else c.

(** [s.toLowerCase()] *)
Fixpoint toLowerCase (s : string) : string :=
  match s with
  | EmptyString => EmptyString
  | String c r => String (lowerChar c) (toLowerCase r)
  end.

(** [s.split(sep)] for a one-character separator. *)
Fixpoint splitOn (sep : ascii) (s : string) : list string :=
  match s with
  | EmptyString => [EmptyString]
  | String c r =>
      if Ascii.eqb c sep then EmptyString :: splitOn sep r
      else match splitOn sep r with
           | h :: t => String c h :: t
           | [] => [String c EmptyString]
           end
  end.

Definition LF : ascii := ascii_of_nat 10.
Definition CR : ascii := ascii_of_nat 13.

(** [s.split(/\r?\n/)] *)
Fixpoint splitLines (s : string) : list string :=
  match s with
  | EmptyString => [EmptyString]
  | String c r =>
      if Ascii.eqb c LF then EmptyString :: splitLines r
      else
        let keep := match splitLines r with
                    | h :: t => String c h :: t
                    | [] => [String c EmptyString]
                    end in
        match r with
        | String c' r' =>
            if Ascii.eqb c CR && Ascii.eqb c' LF
            then EmptyString :: splitLines r'
            else keep
        | EmptyString => keep
        end
  end.

(** [s.startsWith(c)] for a one-character prefix. *)
Definition startsWith (c : ascii) (s : string) : bool :=
  match s with
  | String c' _ => Ascii.eqb c' c
  | EmptyString => false
  end.

(** A string is truthy when it is not empty. *)
Definition truthyStr (s : string) : bool := negb (isEmpty s).

(** [env.X || dflt] for an environment variable that may be unset. *)
Definition orDefault (x : option string) (dflt : string) : string :=
  match x with
  | Some s => if truthyStr s then s else dflt
  | None => dflt
  end.

(* ================================================================== *)
(** ** JavaScript numbers *)
(* ================================================================== *)

(** The result of [parseInt], and the numbers the script computes from
    it: [NaN], a number that is an integer ([IInt 0] is the positive
    zero), the negative zero, or an infinity ([true] for the negative
    one). *)
Inductive jsint : Type :=
| INaN
| IInt (z : Z)
| INegZero
| IInf (neg : bool).

(** A number is a binary64 value, as the standard library specifies
    IEEE 754: a signed zero, a signed infinity, [NaN], or a sign, a
    mantissa and a binary exponent.  The operations round to the
    nearest value, ties to even. *)
Definition num : Type := spec_float.

Definition prec64 : Z := 53.
Definition emax64 : Z := 1024.

Definition isNaN (x : num) : bool :=
  match x with S754_nan => true | _ => false end.

Definition isZero (x : num) : bool :=
  match x with S754_zero _ => true | _ => false end.

(** [x - y] *)
Definition num_sub (x y : num) : num := SFsub prec64 emax64 x y.

(** [Math.abs(x)] *)
Definition num_abs (x : num) : num := SFabs x.

(** [x / y] *)
Definition num_div (x y : num) : num := SFdiv prec64 emax64 x y.

(** [x > y] *)
Definition num_gt (x y : num) : bool := SFltb y x.

(** [x <= y] *)
Definition num_le (x y : num) : bool := SFleb x y.

(** Truthiness of a number: [NaN] and the two zeros are falsy. *)
Definition truthyNum (x : num) : bool :=
  match x with
  | S754_nan | S754_zero _ => false
  | S754_infinity _ | S754_finite _ _ _ => true
  end.

(** The number nearest to the quotient [n / d] of two positive integers,
    with the given sign: the quotient is computed with enough binary
    digits and the position of the remainder, then rounded. *)
Definition nearest (neg : bool) (n d : positive) : num :=
  let '(q, e, l) := SFdiv_core_binary prec64 emax64 (Zpos n) 0 (Zpos d) 0 in
  binary_round_aux prec64 emax64 neg q e l.

(** The Number value of a rational: what a numeric literal of that
    value denotes, in the script or in a JSON payload. *)
Definition Fin (q : Q) : num :=
  match Qnum q with
  | Z0 => S754_zero false
  | Zpos n => nearest false n (Qden q)
  | Zneg n => nearest true n (Qden q)
  end.

(** The Number value of the decimal [mant * 10^e], [mant] not negative,
    with the given sign; a zero keeps its sign. *)
Definition decimal (neg : bool) (mant e : Z) : num :=
  match (mant * 10 ^ Z.max e 0)%Z with
  | Zpos n => nearest neg n (Z.to_pos (10 ^ Z.max (- e) 0))
  | _ => S754_zero neg
  end.

(** The literals [1] and [0.01] of [needsUpdate]. *)
Definition one : num := decimal false 1 0.
Definition threshold : num := decimal false 1 (-2).

(** The rational a finite number stands for. *)
Definition valueOf (x : num) : option Q :=
  match x with
  | S754_zero _ => Some 0%Q
  | S754_finite s m e =>
      let v := Qred (inject_Z (Zpos m) * Qpower (2 # 1) e)%Q in
      Some (if s then (- v)%Q else v)
  | S754_infinity _ | S754_nan => None
  end.

(** The number an integer is rounded to.  An integer of at most 53
    binary digits is a number.  A longer one loses its [k] low digits:
    it is rounded to the nearest multiple of [2^k], to the one with an
    even quotient when it is half way, and to an infinity when that
    multiple reaches [2^1024]. *)
Definition roundInt (z : Z) : jsint :=
  let a := Z.abs z in
  let k := (Z.log2 a - 52)%Z in
  if (k <=? 0)%Z then IInt z
  else
    let q := (a / 2 ^ k)%Z in
    let r := (a mod 2 ^ k)%Z in
    let half := (2 ^ (k - 1))%Z in
    let q' :=
      if (half <? r)%Z || ((r =? half)%Z && Z.odd q) then (q + 1)%Z else q in
    if (2 ^ 1024 <=? q' * 2 ^ k)%Z then IInf (z <? 0)%Z
    else IInt (Z.sgn z * (q' * 2 ^ k))%Z.

(* ------------------------------------------------------------------ *)
(** *** Numeric literals *)

Definition digitVal (c : ascii) : option Z :=
  let n := nat_of_ascii c in
  if (48 <=? n)%nat && (n <=? 57)%nat then Some (Z.of_nat (n - 48)) else None.

(** The longest prefix of decimal digits, and what follows it. *)
Fixpoint digitsPrefix (s : string) : list Z * string :=
  match s with
  | EmptyString => ([], EmptyString)
  | String c r =>
      match digitVal c with
      | Some d => let '(ds, rest) := digitsPrefix r in (d :: ds, rest)
      | None => ([], s)
      end
  end.

Definition digitsValue (ds : list Z) : Z :=
  fold_left (fun acc d => 10 * acc + d)%Z ds 0%Z.

(** An optional sign: [true] for a minus. *)
Definition readSign (s : string) : bool * string :=
  match s with
  | String "-" r => (true, r)
  | String "+" r => (false, r)
  | _ => (false, s)
  end.

Definition isNil {A} (l : list A) : bool :=
  match l with [] => true | _ :: _ => false end.

(** [parseInt(s, 10)]: the digits that follow the white space and the
    sign, as a number. *)
Definition parseInt (s : string) : jsint :=
  let '(neg, t) := readSign (trimStart s) in
  let '(ds, _) := digitsPrefix t in
  if isNil ds then INaN
  else if neg && (digitsValue ds =? 0)%Z then INegZero
  else roundInt (if neg then - digitsValue ds else digitsValue ds)%Z.

(** The exponent part [e[+-]digits] of a literal, 0 when there is none. *)
Definition readExponent (s : string) : Z :=
  match s with
  | String c r =>
      if Ascii.eqb c "e" || Ascii.eqb c "E" then
        let '(neg, t) := readSign r in
        let '(ds, _) := digitsPrefix t in
        if isNil ds then 0%Z
        else (if neg then - digitsValue ds else digitsValue ds)%Z
      else 0%Z
  | EmptyString => 0%Z
  end.

Definition startsWithStr (p s : string) : bool :=
  match index 0 p s with
  | Some O => true
  | _ => false
  end.

(** [parseFloat(s)] on a string: the longest prefix of the trimmed string
    that is a [StrDecimalLiteral], [NaN] when there is none; the decimal
    is rounded to the nearest number, so it overflows to an infinity and
    underflows to a zero of its sign. *)
Definition parseFloatStr (s : string) : num :=
  let '(neg, t) := readSign (trimStart s) in
  if startsWithStr "Infinity" t then S754_infinity neg
  else
    let '(ip, t1) := digitsPrefix t in
    let '(fp, t2) :=
      match t1 with
      | String "." r => digitsPrefix r
      | _ => ([], t1)
      end in
    if isNil ip && isNil fp then S754_nan
    else
      decimal neg (digitsValue (ip ++ fp))
              (readExponent t2 - Z.of_nat (length fp)).

(* ================================================================== *)
(** ** Values and the data model *)
(* ================================================================== *)

(** The scalar values a JSON payload can put in a field. *)
Inductive jsval : Type :=
| JUndefined
| JNull
| JBool (b : bool)
| JNum (n : num)
| JStr (s : string).

(** [v == null] *)
Definition isNullish (v : jsval) : bool :=
  match v with JUndefined | JNull => true | _ => false end.

(** [parseFloat(v)]: the argument is converted to a string first.  The
    strings of [undefined], [null] and the booleans have no numeric
    prefix.  The string of a number has the digits that read back as
    that number, and both zeros are written "0". *)
Definition parseFloat (v : jsval) : num :=
  match v with
  | JStr s => parseFloatStr s
  | JNum (S754_zero _) => S754_zero false
  | JNum n => n
  | JUndefined | JNull | JBool _ => S754_nan
  end.

(** A storefront variant: [sku] is a string or null, [price] a decimal
    written as a string. *)
Record Variant : Type := mkVariant {
  v_id : Z;
  v_sku : option string;
  v_price : string
}.

Record Product : Type := mkProduct {
  p_id : Z;
  p_variants : list Variant
}.

(** The catalogue entry [{ product: p, variant: v }]. *)
Record Entry : Type := mkEntry {
  product : Product;
  variant : Variant
}.

(** What [fetch] gives back: a rejected promise, or a response with its
    status, its [retry-after] header and its body parsed as JSON ([None]
    when [res.json()] rejects). *)
Inductive HttpResult (B : Type) : Type :=
| NetworkError
| Response (status : Z) (retryAfter : option string) (body : option B).
Arguments NetworkError {B}.
Arguments Response {B} status retryAfter body.

(** [res.ok] *)
Definition statusOk (status : Z) : bool :=
  (200 <=? status)%Z && (status <=? 299)%Z.

(** The body of a catalogue page: the [products] field, which may be
    missing. *)
Definition GetBody : Type := option (list Product).

(** The body of a marketplace item: JSON [null], or an object whose
    [price] field is [JUndefined] when missing. *)
Inductive MlBody : Type :=
| MlNull
| MlItem (price : jsval).

Definition PutBody : Type := unit.

(** Error objects carry a message and the two fields the script attaches
    by hand: [code] and [retryAfter]. *)
Inductive ErrMsg : Type :=
| MsgShopifyGet (status : Z)
| MsgShopifyPut (status : Z)
| MsgMlRateLimit
| MsgMlNotFound
| MsgMlForbidden
| MsgMlError (status : Z)
| MsgFetchFailed
| MsgInvalidJson
| MsgTypeError
| MsgReadFile.

Record JsError : Type := mkError {
  err_message : ErrMsg;
  err_code : option Z;
  err_retryAfter : option jsint
}.

Definition plainError (m : ErrMsg) : JsError := mkError m None None.

(** The two [PQueue] instances. *)
Inductive Queue : Type := MlQueue | ShopifyQueue.

(** One constructor per [console] call of either version. *)
Inductive LogLine : Type :=
| LogMissingCredentials
| LogDetectedFile (n : nat)
| LogDetectedSecret (n : nat)
| LogFullSync
| LogProcessingList (n : nat)
| LogProcessingSku (sku : string)
| LogNoVariants (sku : string)
| LogBatchSize (n : nat)
| LogSyncFinished
| LogFatal (e : JsError)
| LogUpdated (id : Z) (sku : string) (price : jsval)
| LogUpdateError (id : Z) (e : JsError)
| LogNoChange (id : Z) (sku : string)
| LogRateLimitWait (ms : jsint)
| LogNotFound (sku : string)
| LogForbidden (sku : string)
| LogError (sku : string) (e : JsError)
| LogTestSkuDetected (sku : string)
| LogNoTestSkuVariants (sku : string)
| LogTestSkuFound (n : nat)
| LogTestSkuFinished
| LogBatchSizeFiltered (n : nat) (batchSize : jsint) (fullSync : bool)
| LogBatchFinished.

(** What a run does, in order.  A request is recorded with the answer it
    got, a sleep with the milliseconds its timer waits.  The storefront read is keyed by its [since_id] cursor, the
    marketplace read by the item identifier, the storefront write by the
    variant and the price whose string is sent; the shop domain and the
    two tokens are the same in every request of a run and are left out. *)
Inductive Event : Type :=
| EvShopifyGet (since_id : Z) (r : HttpResult GetBody)
| EvMlGet (itemId : string) (r : HttpResult MlBody)
| EvShopifyPut (variantId : Z) (price : jsval) (r : HttpResult PutBody)
| EvSleep (ms : Z)
| EvQueueAdd (q : Queue)
| EvQueueDone (q : Queue)
| EvQueueIdle (q : Queue)
| EvLog (l : LogLine).

Definition Trace : Type := list Event.

(** The remote services: each answers a request knowing everything that
    happened before it. *)
Record World : Type := mkWorld {
  storefront_get : Trace -> Z -> HttpResult GetBody;
  marketplace_get : Trace -> string -> HttpResult MlBody;
  storefront_put : Trace -> Z -> jsval -> HttpResult PutBody
}.

(* ================================================================== *)
(** ** The monad of the script *)
(* ================================================================== *)

(** A computation ends with a value, with a thrown error, or is cut off
    because a loop ran out of fuel. *)
Inductive Res (A : Type) : Type :=
| Ok (a : A)
| Throw (e : JsError)
| OutOfFuel.
Arguments Ok {A} a.
Arguments Throw {A} e.
Arguments OutOfFuel {A}.

(** A computation reads the world, is given the history so far and
    returns its result with the events it emitted. *)
Definition M (A : Type) : Type := World -> Trace -> Res A * Trace.

Definition ret {A} (a : A) : M A := fun _ _ => (Ok a, []).

Definition bind {A B} (m : M A) (f : A -> M B) : M B :=
  fun w h =>
    let '(r, e1) := m w h in
    match r with
    | Ok a => let '(r2, e2) := f a w (h ++ e1) in (r2, e1 ++ e2)
    | Throw e => (Throw e, e1)
    | OutOfFuel => (OutOfFuel, e1)
    end.

Declare Scope js_scope.
Delimit Scope js_scope with js.
Notation "x <- m ;; k" := (bind m (fun x => k))
  (at level 61, m at next level, right associativity) : js_scope.
Notation "m ;; k" := (bind m (fun _ => k))
  (at level 61, right associativity) : js_scope.
Open Scope js_scope.

Definition throw {A} (e : JsError) : M A := fun _ _ => (Throw e, []).

Definition outOfFuel {A} : M A := fun _ _ => (OutOfFuel, []).

Definition emit (ev : Event) : M unit := fun _ _ => (Ok tt, [ev]).

Definition log (l : LogLine) : M unit := emit (EvLog l).

(** [try { m } catch (err) { handler(err) }] *)
Definition tryCatch {A} (m : M A) (handler : JsError -> M A) : M A :=
  fun w h =>
    let '(r, e1) := m w h in
    match r with
    | Throw e => let '(r2, e2) := handler e w (h ++ e1) in (r2, e1 ++ e2)
    | _ => (r, e1)
    end.

(** [await queue.add(task)]: the caller waits for the task, so the task
    has run, and the queue has let go of it, when [add] returns or
    throws. *)
Definition queueAdd {A} (q : Queue) (task : M A) : M A :=
  fun w h =>
    let '(r, e1) := task w (h ++ [EvQueueAdd q]) in
    (r, EvQueueAdd q :: e1 ++ [EvQueueDone q]).

(** [await queue.onIdle()] *)
Definition onIdle (q : Queue) : M unit := emit (EvQueueIdle q).

(** The milliseconds a timer of Node waits when [setTimeout] is given
    the delay [ms]: a delay that is not between 1 and 2^31 - 1 is taken
    as 1. *)
Definition timerDelay (ms : jsint) : Z :=
  match ms with
  | IInt z => if (1 <=? z)%Z && (z <=? 2147483647)%Z then z else 1%Z
  | INaN | INegZero | IInf _ => 1%Z
  end.

(** [await new Promise(r => setTimeout(r, ms))] *)
Definition sleep (ms : jsint) : M unit := emit (EvSleep (timerDelay ms)).

(** The three requests. *)
Definition httpShopifyGet (since_id : Z) : M (HttpResult GetBody) :=
  fun w h =>
    let r := storefront_get w h since_id in (Ok r, [EvShopifyGet since_id r]).

Definition httpMlGet (itemId : string) : M (HttpResult MlBody) :=
  fun w h =>
    let r := marketplace_get w h itemId in (Ok r, [EvMlGet itemId r]).

Definition httpShopifyPut (id : Z) (price : jsval) : M (HttpResult PutBody) :=
  fun w h =>
    let r := storefront_put w h id price in (Ok r, [EvShopifyPut id price r]).

(** [for (const x of xs) { await body(x) }] *)
Fixpoint forEach {A} (xs : list A) (body : A -> M unit) : M unit :=
  match xs with
  | [] => ret tt
  | x :: rest => body x ;; forEach rest body
  end.

(** [sku_list.txt] in the working directory: absent, a file with its
    text, or there but not readable as a file (a directory, a file
    without read permission), which makes [fs.readFileSync] throw. *)
Inductive SkuFile : Type :=
| NoFile
| FileText (raw : string)
| Unreadable.

(** The process environment and [sku_list.txt]. *)
Record Env : Type := mkEnv {
  env_SHOP_DOMAIN : option string;
  env_SHOPIFY_ADMIN_TOKEN : option string;
  env_ML_TOKEN : option string;
  env_BATCH_SIZE : option string;
  env_TEST_SKU : option string;
  env_FULL_SYNC : option string;
  env_SKU_LIST : option string;
  sku_list_txt : SkuFile
}.

(** How a run ends: [process.exit(code)], falling off the end of the
    script (status 0), or cut off by the fuel. *)
Inductive RunResult : Type :=
| Exited (code : Z)
| Unfinished.

(* ================================================================== *)
(** ** Configuration constants (the same lines in both versions) *)
(* ================================================================== *)

(** [const SHOP = process.env.SHOP_DOMAIN] *)
Definition SHOP (env : Env) : option string := env_SHOP_DOMAIN env.

(** [const SHOPIFY_TOKEN = process.env.SHOPIFY_ADMIN_TOKEN] *)
Definition SHOPIFY_TOKEN (env : Env) : option string :=
  env_SHOPIFY_ADMIN_TOKEN env.

(** [process.env.ML_TOKEN || null] *)
Definition ML_TOKEN (env : Env) : option string :=
  match env_ML_TOKEN env with
  | Some s => if truthyStr s then Some s else None
  | None => None
  end.

(** [parseInt(process.env.BATCH_SIZE || '200', 10)] *)
Definition BATCH_SIZE (env : Env) : jsint :=
  parseInt (orDefault (env_BATCH_SIZE env) "200").

(** [(process.env.TEST_SKU || '').trim()] *)
Definition TEST_SKU (env : Env) : string :=
  trim (orDefault (env_TEST_SKU env) "").

(** [(process.env.FULL_SYNC || 'false').toLowerCase() === 'true'] *)
Definition FULL_SYNC (env : Env) : bool :=
  String.eqb (toLowerCase (orDefault (env_FULL_SYNC env) "false")) "true".

(** [!x] for an environment variable. *)
Definition missing (x : option string) : bool :=
  match x with
  | Some s => isEmpty s
  | None => true
  end.

(** Comparisons of a length with a limit that may be [NaN] or an
    infinity: [limit <= 0], [limit > 0], [n < limit], [n >= limit]. *)
Definition limit_le0 (limit : jsint) : bool :=
  match limit with
  | IInt z => (z <=? 0)%Z
  | INegZero => true
  | IInf neg => neg
  | INaN => false
  end.

Definition limit_gt0 (limit : jsint) : bool :=
  match limit with
  | IInt z => (0 <? z)%Z
  | INegZero => false
  | IInf neg => negb neg
  | INaN => false
  end.

Definition len_lt (n : nat) (limit : jsint) : bool :=
  match limit with
  | IInt z => (Z.of_nat n <? z)%Z
  | INegZero => false
  | IInf neg => negb neg
  | INaN => false
  end.

Definition len_ge (n : nat) (limit : jsint) : bool :=
  match limit with
  | IInt z => (z <=? Z.of_nat n)%Z
  | INegZero => true
  | IInf neg => neg
  | INaN => false
  end.

(** [(v.sku || '').trim()] *)
Definition skuOf (v : Variant) : string :=
  trim (match v_sku v with Some s => s | None => "" end).

(** [products[products.length - 1].id], for a page that is not empty. *)
Definition lastId (products : list Product) : Z :=
  p_id (last products (mkProduct 0 [])).

(** [(err.retryAfter || 5) * 1000]: the zeros and [NaN] are falsy, and
    the product is a number. *)
Definition retryWait (err : JsError) : jsint :=
  match err_retryAfter err with
  | Some (IInt z) => roundInt ((if (z =? 0)%Z then 5 else z) * 1000)
  | Some (IInf neg) => IInf neg
  | Some INaN | Some INegZero | None => IInt 5000
  end.

(** The run of the script around its [try] block: the credential check,
    the body, and the [catch] that exits with status 1. *)
Definition runScript (env : Env) (body : M unit) (w : World)
  : RunResult * Trace :=
  if missing (SHOP env) || missing (SHOPIFY_TOKEN env)
  then (Exited 1, [EvLog LogMissingCredentials])
  else
    let '(r, evs) := body w [] in
    match r with
    | Ok _ => (Exited 0, evs)
    | Throw e => (Exited 1, evs ++ [EvLog (LogFatal e)])
    | OutOfFuel => (Unfinished, evs)
    end.

(* ================================================================== *)
(** ** Version 1 of the script *)
(* ================================================================== *)

Module V1.

(** [shopifyGet(url)]; the URL varies only in its [since_id]. *)
Definition shopifyGet (since_id : Z) : M GetBody :=
  res <- httpShopifyGet since_id ;;
  match res with
  | NetworkError => throw (plainError MsgFetchFailed)
  | Response status _ body =>
      if negb (statusOk status) then throw (plainError (MsgShopifyGet status))
      else match body with
           | Some data => ret data
           | None => throw (plainError MsgInvalidJson)
           end
  end.

(** [shopifyPut(`/variants/${id}.json`, { variant: { id, price } })] *)
Definition shopifyPut (id : Z) (price : jsval) : M PutBody :=
  res <- httpShopifyPut id price ;;
  match res with
  | NetworkError => throw (plainError MsgFetchFailed)
  | Response status _ body =>
      if negb (statusOk status) then throw (plainError (MsgShopifyPut status))
      else match body with
           | Some data => ret data
           | None => throw (plainError MsgInvalidJson)
           end
  end.

Definition fetchMlItem (itemId : string) : M MlBody :=
  res <- httpMlGet itemId ;;
  match res with
  | NetworkError => throw (plainError MsgFetchFailed)
  | Response status header body =>
      if (status =? 429)%Z then
        let retryAfter :=
          match header with
          | Some s => if truthyStr s then parseInt s else IInt 5
          | None => IInt 5
          end in
        throw (mkError MsgMlRateLimit (Some 429%Z) (Some retryAfter))
      else if (status =? 404)%Z then
        throw (mkError MsgMlNotFound (Some 404%Z) None)
      else if (status =? 403)%Z then
        throw (mkError MsgMlForbidden (Some 403%Z) None)
      else if negb (statusOk status) then
        throw (plainError (MsgMlError status))
      else match body with
           | Some item => ret item
           | None => throw (plainError MsgInvalidJson)
           end
  end.

(** The inner [for (const v of p.variants)] with its [break]. *)
Fixpoint pushVariants (limit : jsint) (p : Product) (vs : list Variant)
    (results : list Entry) : list Entry :=
  match vs with
  | [] => results
  | v :: vs' =>
      let results' := results ++ [mkEntry p v] in
      if limit_gt0 limit && len_ge (length results') limit then results'
      else pushVariants limit p vs' results'
  end.

(** The outer [for (const p of products)] with its [break]. *)
Fixpoint pushProducts (limit : jsint) (products : list Product)
    (results : list Entry) : list Entry :=
  match products with
  | [] => results
  | p :: ps =>
      let results' := pushVariants limit p (p_variants p) results in
      if limit_gt0 limit && len_ge (length results') limit then results'
      else pushProducts limit ps results'
  end.

(** The [while] loop of [listVariantsBatch], from the state
    [(results, since_id)]. *)
Fixpoint listVariantsBatch_loop (fuel : nat) (limit : jsint)
    (results : list Entry) (since_id : Z) : M (list Entry) :=
  if limit_le0 limit || len_lt (length results) limit then
    match fuel with
    | O => outOfFuel
    | S fuel' =>
        data <- shopifyGet since_id ;;
        let products := match data with Some ps => ps | None => [] end in
        if isNil products then ret results
        else
          let results' := pushProducts limit products results in
          let since_id' := lastId products in
          if (length products <? 250)%nat then ret results'
          else listVariantsBatch_loop fuel' limit results' since_id'
    end
  else ret results.

Definition listVariantsBatch (fuel : nat) (limit : jsint) : M (list Entry) :=
  listVariantsBatch_loop fuel limit [] 0%Z.

Definition needsUpdate (shopPrice mlPrice : jsval) : bool :=
  let s := parseFloat shopPrice in
  let m := parseFloat mlPrice in
  if isNaN m || isNaN s then false
  else
    let diff := num_div (num_abs (num_sub m s))
                        (if truthyNum s then s else one) in
    num_gt diff threshold.

(** [mlItem.price]; reading a field of [null] throws. *)
Definition priceOf (mlItem : MlBody) : M jsval :=
  match mlItem with
  | MlNull => throw (plainError MsgTypeError)
  | MlItem price => ret price
  end.

Definition processVariantEntry (entry : Entry) : M unit :=
  let v := variant entry in
  let sku := skuOf v in
  if isEmpty sku then ret tt
  else
    tryCatch
      (mlItem <- queueAdd MlQueue (fetchMlItem sku) ;;
       mlPrice <- priceOf mlItem ;;
       if isNullish mlPrice then ret tt
       else if needsUpdate (JStr (v_price v)) mlPrice then
         queueAdd ShopifyQueue
           (tryCatch
              (shopifyPut (v_id v) mlPrice ;;
               log (LogUpdated (v_id v) sku mlPrice))
              (fun err => log (LogUpdateError (v_id v) err)))
       else log (LogNoChange (v_id v) sku))
      (fun err =>
         match err_code err with
         | Some 429%Z =>
             let wait := retryWait err in
             log (LogRateLimitWait wait) ;;
             sleep wait
         | Some 404%Z => log (LogNotFound sku)
         | Some 403%Z => log (LogForbidden sku)
         | _ => log (LogError sku err)
         end).

(** The matches one page adds: both [for] loops of [findVariantsBySku]. *)
Definition pushMatches (targetSku : string) (products : list Product)
    (matches : list Entry) : list Entry :=
  fold_left
    (fun acc p =>
       fold_left
         (fun acc' v =>
            if String.eqb (skuOf v) targetSku then acc' ++ [mkEntry p v]
            else acc')
         (p_variants p) acc)
    products matches.

(** The [while (true)] loop of [findVariantsBySku]. *)
Fixpoint findVariantsBySku_loop (fuel : nat) (targetSku : string)
    (matches : list Entry) (since_id : Z) : M (list Entry) :=
  match fuel with
  | O => outOfFuel
  | S fuel' =>
      data <- shopifyGet since_id ;;
      let products := match data with Some ps => ps | None => [] end in
      if isNil products then ret matches
      else
        let matches' := pushMatches targetSku products matches in
        let since_id' := lastId products in
        if (length products <? 250)%nat then ret matches'
        else findVariantsBySku_loop fuel' targetSku matches' since_id'
  end.

Definition findVariantsBySku (fuel : nat) (targetSku : string)
  : M (list Entry) :=
  findVariantsBySku_loop fuel targetSku [] 0%Z.

(** Line 161: the SKUs in the text of the file. *)
Definition skuLines (raw : string) : list string :=
  filter (fun s => negb (startsWith "#" s))
         (filter truthyStr (map trim (splitLines raw))).

(** [readSkuListFile()]: no SKU without the file, the SKUs of its text,
    or the error of [fs.readFileSync]. *)
Definition readSkuListFile (file : SkuFile) : M (list string) :=
  match file with
  | NoFile => ret []
  | FileText raw => ret (skuLines raw)
  | Unreadable => throw (plainError MsgReadFile)
  end.

(** Lines 171-179: the source of the SKU list. *)
Definition detectSkuList (env : Env) : M (list string) :=
  fileSkus <- readSkuListFile (sku_list_txt env) ;;
  if (0 <? length fileSkus)%nat then
    log (LogDetectedFile (length fileSkus)) ;;
    ret fileSkus
  else if negb (missing (env_SKU_LIST env)) then
    let skuList :=
      filter truthyStr
             (map trim (splitOn "," (orDefault (env_SKU_LIST env) ""))) in
    (if (0 <? length skuList)%nat
     then log (LogDetectedSecret (length skuList)) else ret tt) ;;
    ret skuList
  else ret [].

(** Lines 182-185: [TEST_SKU] first, and only once. *)
Definition testSkuFirst (testSku : string) (skuList : list string)
  : list string :=
  if truthyStr testSku then
    testSku :: filter (fun s => negb (String.eqb s testSku)) skuList
  else skuList.

(** The body of the [try] block of the script. *)
Definition mainBody (env : Env) (fuel : nat) : M unit :=
  skuList0 <- detectSkuList env ;;
  let skuList := testSkuFirst (TEST_SKU env) skuList0 in
  (if FULL_SYNC env then
     log LogFullSync ;;
     batch <- listVariantsBatch fuel (IInt 0) ;;
     forEach batch processVariantEntry
   else if (0 <? length skuList)%nat then
     log (LogProcessingList (length skuList)) ;;
     forEach skuList (fun sku =>
       log (LogProcessingSku sku) ;;
       matches <- findVariantsBySku fuel sku ;;
       if (length matches =? 0)%nat then log (LogNoVariants sku)
       else forEach matches processVariantEntry)
   else
     batch <- listVariantsBatch fuel (BATCH_SIZE env) ;;
     log (LogBatchSize (length batch)) ;;
     forEach batch processVariantEntry) ;;
  onIdle MlQueue ;;
  onIdle ShopifyQueue ;;
  log LogSyncFinished.

Definition main (env : Env) (fuel : nat) (w : World) : RunResult * Trace :=
  runScript env (mainBody env fuel) w.

End V1.

(* ================================================================== *)
(** ** Version 2 of the script *)
(* ================================================================== *)

Module V2.

(** [shopifyGet(url)]; the URL varies only in its [since_id]. *)
Definition shopifyGet (since_id : Z) : M GetBody :=
  res <- httpShopifyGet since_id ;;
  match res with
  | NetworkError => throw (plainError MsgFetchFailed)
  | Response status _ body =>
      if negb (statusOk status) then throw (plainError (MsgShopifyGet status))
      else match body with
           | Some data => ret data
           | None => throw (plainError MsgInvalidJson)
           end
  end.

(** [shopifyPut(`/variants/${id}.json`, { variant: { id, price } })] *)
Definition shopifyPut (id : Z) (price : jsval) : M PutBody :=
  res <- httpShopifyPut id price ;;
  match res with
  | NetworkError => throw (plainError MsgFetchFailed)
  | Response status _ body =>
      if negb (statusOk status) then throw (plainError (MsgShopifyPut status))
      else match body with
           | Some data => ret data
           | None => throw (plainError MsgInvalidJson)
           end
  end.

Definition fetchMlItem (itemId : string) : M MlBody :=
  res <- httpMlGet itemId ;;
  match res with
  | NetworkError => throw (plainError MsgFetchFailed)
  | Response status header body =>
      if (status =? 429)%Z then
        let retryAfter :=
          match header with
          | Some s => if truthyStr s then parseInt s else IInt 5
          | None => IInt 5
          end in
        throw (mkError MsgMlRateLimit (Some 429%Z) (Some retryAfter))
      else if (status =? 404)%Z then
        throw (mkError MsgMlNotFound (Some 404%Z) None)
      else if (status =? 403)%Z then
        throw (mkError MsgMlForbidden (Some 403%Z) None)
      else if negb (statusOk status) then
        throw (plainError (MsgMlError status))
      else match body with
           | Some item => ret item
           | None => throw (plainError MsgInvalidJson)
           end
  end.

(** The inner [for (const v of p.variants)] with its [break]. *)
Fixpoint pushVariants (limit : jsint) (p : Product) (vs : list Variant)
    (results : list Entry) : list Entry :=
  match vs with
  | [] => results
  | v :: vs' =>
      let results' := results ++ [mkEntry p v] in
      if limit_gt0 limit && len_ge (length results') limit then results'
      else pushVariants limit p vs' results'
  end.

(** The outer [for (const p of products)] with its [break]. *)
Fixpoint pushProducts (limit : jsint) (products : list Product)
    (results : list Entry) : list Entry :=
  match products with
  | [] => results
  | p :: ps =>
      let results' := pushVariants limit p (p_variants p) results in
      if limit_gt0 limit && len_ge (length results') limit then results'
      else pushProducts limit ps results'
  end.

(** The [while] loop of [listVariantsBatch], from the state
    [(results, since_id)]. *)
Fixpoint listVariantsBatch_loop (fuel : nat) (limit : jsint)
    (results : list Entry) (since_id : Z) : M (list Entry) :=
  if limit_le0 limit || len_lt (length results) limit then
    match fuel with
    | O => outOfFuel
    | S fuel' =>
        data <- shopifyGet since_id ;;
        let products := match data with Some ps => ps | None => [] end in
        if isNil products then ret results
        else
          let results' := pushProducts limit products results in
          let since_id' := lastId products in
          if (length products <? 250)%nat then ret results'
          else listVariantsBatch_loop fuel' limit results' since_id'
    end
  else ret results.

Definition listVariantsBatch (fuel : nat) (limit : jsint) : M (list Entry) :=
  listVariantsBatch_loop fuel limit [] 0%Z.

Definition needsUpdate (shopPrice mlPrice : jsval) : bool :=
  let s := parseFloat shopPrice in
  let m := parseFloat mlPrice in
  if isNaN m || isNaN s then false
  else
    let diff := num_div (num_abs (num_sub m s))
                        (if truthyNum s then s else one) in
    num_gt diff threshold.

(** [mlItem.price]; reading a field of [null] throws. *)
Definition priceOf (mlItem : MlBody) : M jsval :=
  match mlItem with
  | MlNull => throw (plainError MsgTypeError)
  | MlItem price => ret price
  end.

Definition processVariantEntry (entry : Entry) : M unit :=
  let v := variant entry in
  let sku := skuOf v in
  if isEmpty sku then ret tt
  else
    tryCatch
      (mlItem <- queueAdd MlQueue (fetchMlItem sku) ;;
       mlPrice <- priceOf mlItem ;;
       if isNullish mlPrice then ret tt
       else if needsUpdate (JStr (v_price v)) mlPrice then
         queueAdd ShopifyQueue
           (tryCatch
              (shopifyPut (v_id v) mlPrice ;;
               log (LogUpdated (v_id v) sku mlPrice))
              (fun err => log (LogUpdateError (v_id v) err)))
       else ret tt)
      (fun err =>
         match err_code err with
         | Some 429%Z =>
             let wait := retryWait err in
             log (LogRateLimitWait wait) ;;
             sleep wait
         | Some 404%Z => log (LogNotFound sku)
         | Some 403%Z => log (LogForbidden sku)
         | _ => log (LogError sku err)
         end).

(** The matches one page adds: both [for] loops of [findVariantsBySku]. *)
Definition pushMatches (targetSku : string) (products : list Product)
    (matches : list Entry) : list Entry :=
  fold_left
    (fun acc p =>
       fold_left
         (fun acc' v =>
            if String.eqb (skuOf v) targetSku then acc' ++ [mkEntry p v]
            else acc')
         (p_variants p) acc)
    products matches.

(** The [while (true)] loop of [findVariantsBySku]. *)
Fixpoint findVariantsBySku_loop (fuel : nat) (targetSku : string)
    (matches : list Entry) (since_id : Z) : M (list Entry) :=
  match fuel with
  | O => outOfFuel
  | S fuel' =>
      data <- shopifyGet since_id ;;
      let products := match data with Some ps => ps | None => [] end in
      if isNil products then ret matches
      else
        let matches' := pushMatches targetSku products matches in
        let since_id' := lastId products in
        if (length products <? 250)%nat then ret matches'
        else findVariantsBySku_loop fuel' targetSku matches' since_id'
  end.

Definition findVariantsBySku (fuel : nat) (targetSku : string)
  : M (list Entry) :=
  findVariantsBySku_loop fuel targetSku [] 0%Z.

(** The body of the [try] block of the script: [TEST_SKU] first, then
    the batch without the variants of that SKU. *)
Definition mainBody (env : Env) (fuel : nat) : M unit :=
  (if truthyStr (TEST_SKU env) then
     log (LogTestSkuDetected (TEST_SKU env)) ;;
     found <- findVariantsBySku fuel (TEST_SKU env) ;;
     if (length found =? 0)%nat then log (LogNoTestSkuVariants (TEST_SKU env))
     else
       log (LogTestSkuFound (length found)) ;;
       forEach found processVariantEntry ;;
       log LogTestSkuFinished
   else ret tt) ;;
  let limit := if FULL_SYNC env then IInt 0 else BATCH_SIZE env in
  batch <- listVariantsBatch fuel limit ;;
  let filteredBatch :=
    if truthyStr (TEST_SKU env)
    then filter (fun e => negb (String.eqb (skuOf (variant e)) (TEST_SKU env)))
                batch
    else batch in
  log (LogBatchSizeFiltered (length filteredBatch) (BATCH_SIZE env)
                            (FULL_SYNC env)) ;;
  forEach filteredBatch processVariantEntry ;;
  onIdle MlQueue ;;
  onIdle ShopifyQueue ;;
  log LogBatchFinished.

Definition main (env : Env) (fuel : nat) (w : World) : RunResult * Trace :=
  runScript env (mainBody env fuel) w.

End V2.

(* ================================================================== *)
(** ** Notions used to state the properties *)
(* ================================================================== *)

(** The working set of a run (version 1) that gets past the reading of
    [sku_list.txt], as the branch taken at lines 187, 194 and 207: the
    whole catalogue, the SKUs of a list looked up one by one, or a scan
    that stops at the batch size. *)
Inductive WorkingSet : Type :=
| FullScan (limit : jsint)
| ExplicitSkus (skus : list string)
| BoundedScan (limit : jsint).

(** The list read from [SKU_LIST]. *)
Definition secretSkus (env : Env) : list string :=
  filter truthyStr (map trim (splitOn "," (orDefault (env_SKU_LIST env) ""))).

(** The SKUs of [sku_list.txt]: none when the file is absent, and none
    when it cannot be read. *)
Definition fileSkus (env : Env) : list string :=
  match sku_list_txt env with
  | FileText raw => V1.skuLines raw
  | NoFile | Unreadable => []
  end.

(** [sku_list.txt] is absent or can be read. *)
Definition skuFileReadable (env : Env) : Prop :=
  sku_list_txt env <> Unreadable.

(** The value [V1.detectSkuList] returns when [sku_list.txt] is absent
    or can be read. *)
Definition sourceSkus (env : Env) : list string :=
  let fileSkus := fileSkus env in
  if (0 <? length fileSkus)%nat then fileSkus
  else if negb (missing (env_SKU_LIST env)) then secretSkus env
  else [].

Definition workingSet (env : Env) : WorkingSet :=
  let skuList := V1.testSkuFirst (TEST_SKU env) (sourceSkus env) in
  if FULL_SYNC env then FullScan (IInt 0)
  else if (0 <? length skuList)%nat then ExplicitSkus skuList
  else BoundedScan (BATCH_SIZE env).

(** What version 1 does with each working set. *)
Definition runWorkingSet (fuel : nat) (ws : WorkingSet) : M unit :=
  match ws with
  | FullScan limit =>
      log LogFullSync ;;
      batch <- V1.listVariantsBatch fuel limit ;;
      forEach batch V1.processVariantEntry
  | ExplicitSkus skuList =>
      log (LogProcessingList (length skuList)) ;;
      forEach skuList (fun sku =>
        log (LogProcessingSku sku) ;;
        matches <- V1.findVariantsBySku fuel sku ;;
        if (length matches =? 0)%nat then log (LogNoVariants sku)
        else forEach matches V1.processVariantEntry)
  | BoundedScan limit =>
      batch <- V1.listVariantsBatch fuel limit ;;
      log (LogBatchSize (length batch)) ;;
      forEach batch V1.processVariantEntry
  end.

(** The entries of a list of products, variant by variant. *)
Definition entriesOf (products : list Product) : list Entry :=
  flat_map (fun p => map (mkEntry p) (p_variants p)) products.

(** What a scan with the given limit keeps of the entries of a
    catalogue: all of them for a limit of 0 or less, the first [limit]
    for a positive limit, all of them for an infinite limit, none when
    the limit is [NaN]. *)
Definition scanResult (limit : jsint) (entries : list Entry) : list Entry :=
  match limit with
  | INaN => []
  | IInt n => if (0 <? n)%Z then firstn (Z.to_nat n) entries else entries
  | INegZero | IInf _ => entries
  end.

(** The SKUs of a working set in the order the run takes them: the list
    itself, or the SKUs of the scanned entries of the catalogue. *)
Definition resolvedSkus (ws : WorkingSet) (catalog : list Product)
  : list string :=
  match ws with
  | ExplicitSkus skus => skus
  | FullScan limit | BoundedScan limit =>
      map (fun e => skuOf (variant e)) (scanResult limit (entriesOf catalog))
  end.

(** The priority identifier is in the sequence exactly once and at
    position 0. *)
Definition priorityFirst (testSku : string) (skus : list string) : Prop :=
  nth_error skus 0 = Some testSku /\
  count_occ string_dec skus testSku = 1%nat.

(** The marketplace lookups of a trace, in order. *)
Fixpoint fetchedSkus (tr : Trace) : list string :=
  match tr with
  | [] => []
  | EvMlGet itemId _ :: rest => itemId :: fetchedSkus rest
  | _ :: rest => fetchedSkus rest
  end.

(** The cursors of the catalogue pages a trace requested, in order. *)
Fixpoint pageRequests (tr : Trace) : list Z :=
  match tr with
  | [] => []
  | EvShopifyGet since_id _ :: rest => since_id :: pageRequests rest
  | _ :: rest => pageRequests rest
  end.

(** The storefront writes of a trace. *)
Fixpoint writes (tr : Trace) : list (Z * jsval) :=
  match tr with
  | [] => []
  | EvShopifyPut id price _ :: rest => (id, price) :: writes rest
  | _ :: rest => writes rest
  end.

(** The divisor of [needsUpdate] for a storefront price that is a
    number: [s || 1]. *)
Definition divisorOf (s : num) : num := if isZero s then one else s.

(** [max(x, y)] of two numbers that are not [NaN]. *)
Definition num_max (x y : num) : num := if SFltb x y then y else x.

(** The error [shopifyGet] throws on an answer, if any. *)
Definition getError (r : HttpResult GetBody) : option JsError :=
  match r with
  | NetworkError => Some (plainError MsgFetchFailed)
  | Response status _ body =>
      if negb (statusOk status) then Some (plainError (MsgShopifyGet status))
      else match body with
           | Some _ => None
           | None => Some (plainError MsgInvalidJson)
           end
  end.

(** An event is a catalogue read that failed. *)
Definition failedGet (ev : Event) : bool :=
  match ev with
  | EvShopifyGet _ r =>
      match getError r with Some _ => true | None => false end
  | _ => false
  end.

(** No catalogue read of the trace failed. *)
Definition clean (tr : Trace) : bool :=
  forallb (fun ev => negb (failedGet ev)) tr.

(** The outcome of a computation that throws only when a catalogue read
    fails, right after that read and with its error. *)
Definition good {A} (x : Res A * Trace) : Prop :=
  match fst x with
  | Throw e =>
      exists evs0 sid r,
        snd x = evs0 ++ [EvShopifyGet sid r] /\
        getError r = Some e /\ clean evs0 = true
  | Ok _ | OutOfFuel => clean (snd x) = true
  end.

Definition Inv {A} (m : M A) : Prop := forall w h, good (m w h).

(** The error [fetchMlItem] throws on a 429 answer with the given
    [retry-after] header (lines 51-55). *)
Definition rateLimitError (header : option string) : JsError :=
  mkError MsgMlRateLimit (Some 429%Z)
    (Some match header with
          | Some s => if truthyStr s then parseInt s else IInt 5
          | None => IInt 5
          end).

(** What an entry whose fetch was answered 429 leaves in the trace. *)
Definition rateLimitedTrace (sku : string) (header : option string)
    (body : option MlBody) : Trace :=
  [EvQueueAdd MlQueue;
   EvMlGet sku (Response 429 header body);
   EvQueueDone MlQueue;
   EvLog (LogRateLimitWait (retryWait (rateLimitError header)));
   EvSleep (timerDelay (retryWait (rateLimitError header)))].

(** A specification of a computation: [P] holds of the events it emits
    however it ends, and [Q] of the value it returns. *)
Definition Post {A} (P : Trace -> Prop) (Q : A -> Prop) (m : M A) : Prop :=
  forall w h,
    P (snd (m w h)) /\ (forall a, fst (m w h) = Ok a -> Q a).

(** The trace has no marketplace lookup. *)
Definition noFetch (tr : Trace) : Prop := fetchedSkus tr = [].

(** Every marketplace lookup of the trace is for [sku]. *)
Definition onlyFetches (sku : string) (tr : Trace) : Prop :=
  Forall (fun s => s = sku) (fetchedSkus tr).

(** No marketplace lookup of the trace is for [sku]. *)
Definition neverFetches (sku : string) (tr : Trace) : Prop :=
  ~ In sku (fetchedSkus tr).

(** Every character of the string is white space. *)
Fixpoint allWhiteSpace (s : string) : bool :=
  match s with
  | EmptyString => true
  | String c r => isWhiteSpace c && allWhiteSpace r
  end.

(** A storefront that serves a fixed catalogue the way the products
    endpoint does: the products after the cursor, at most 250 of them. *)
Definition catalogPage (catalog : list Product) (since_id : Z)
  : list Product :=
  firstn 250 (filter (fun p => (since_id <? p_id p)%Z) catalog).

Definition catalogWorld (catalog : list Product)
    (ml : string -> HttpResult MlBody)
    (put : Z -> jsval -> HttpResult PutBody) : World :=
  mkWorld
    (fun _ since_id =>
       Response 200 None (Some (Some (catalogPage catalog since_id))))
    (fun _ itemId => ml itemId)
    (fun _ id price => put id price).

(** The products of an answer that [shopifyGet] accepts:
    [data.products || []]. *)
Definition pageOf (r : HttpResult GetBody) : list Product :=
  match r with
  | Response _ _ (Some (Some products)) => products
  | _ => []
  end.

(** The test at the head of the [while] of [listVariantsBatch] fails:
    the cap on the number of entries is reached. *)
Definition capReached (limit : jsint) (results : list Entry) : bool :=
  negb (limit_le0 limit || len_lt (length results) limit).

(** A world whose storefront serves [catalog]; the marketplace and the
    storefront writes are free to answer anything. *)
Definition servesCatalog (w : World) (catalog : list Product) : Prop :=
  forall h since_id,
    storefront_get w h since_id
    = Response 200 None (Some (Some (catalogPage catalog since_id))).

(** The identifiers of a catalogue are above [k] and ascending. *)
Fixpoint ascendingFrom (k : Z) (catalog : list Product) : bool :=
  match catalog with
  | [] => true
  | p :: rest => (k <? p_id p)%Z && ascendingFrom (p_id p) rest
  end.

(** The identifiers of a catalogue are positive and ascending, as the
    products endpoint lists them. *)
Definition ascendingIds (catalog : list Product) : Prop :=
  ascendingFrom 0 catalog = true.

(** Every product has a variant, as on the storefront. *)
Definition withVariants (catalog : list Product) : Prop :=
  forallb (fun p => negb (isNil (p_variants p))) catalog = true.

(** *** Fixtures *)

(** [n] products with identifiers [k+1 .. k+n], one variant each, SKU
    [sku] and price [price]. *)
Fixpoint sampleCatalog (n : nat) (k : Z) (sku : string) (price : string)
  : list Product :=
  match n with
  | O => []
  | S n' =>
      mkProduct (k + 1) [mkVariant (k + 1) (Some sku) price]
      :: sampleCatalog n' (k + 1) sku price
  end.

(** [n] products with identifiers [k+1 .. k+n], two variants each. *)
Fixpoint pairCatalog (n : nat) (k : Z) (sku : string) (price : string)
  : list Product :=
  match n with
  | O => []
  | S n' =>
      mkProduct (k + 1) [mkVariant (2 * (k + 1)) (Some sku) price;
                         mkVariant (2 * (k + 1) + 1) (Some sku) price]
      :: pairCatalog n' (k + 1) sku price
  end.

Definition okPut : Z -> jsval -> HttpResult PutBody :=
  fun _ _ => Response 200 None (Some tt).

Definition mlPrices (table : list (string * HttpResult MlBody))
  : string -> HttpResult MlBody :=
  fun itemId =>
    match find (fun kv => String.eqb (fst kv) itemId) table with
    | Some kv => snd kv
    | None => Response 404 None None
    end.

Definition baseEnv : Env :=
  mkEnv (Some "shop") (Some "token") None None None None None NoFile.

(** A storefront whose first catalogue read succeeds and whose later
    reads are answered 503; the marketplace prices everything at 105. *)
Definition flakyWorld : World :=
  mkWorld
    (fun h _ =>
       if isNil (pageRequests h)
       then Response 200 None
              (Some (Some [mkProduct 1 [mkVariant 11 (Some "A") "100.00"]]))
       else Response 503 None None)
    (fun _ _ => Response 200 None (Some (MlItem (JNum (Fin 105)))))
    (fun _ _ _ => Response 200 None (Some tt)).

(** The environment with [SKU_LIST=A,B]. *)
Definition envAB : Env :=
  mkEnv (Some "shop") (Some "token") None None None None (Some "A,B") NoFile.

(** The environment with [TEST_SKU=T] and nothing else. *)
Definition envTestSku : Env :=
  mkEnv (Some "shop") (Some "token") None None (Some "T") None None NoFile.

(** The environment with a [sku_list.txt] of two SKUs and [SKU_LIST=C]. *)
Definition envFile : Env :=
  mkEnv (Some "shop") (Some "token") None None None None (Some "C")
        (FileText "A
B").

(** The environment with a [sku_list.txt] that cannot be read, and
    [FULL_SYNC=true]. *)
Definition envUnreadable : Env :=
  mkEnv (Some "shop") (Some "token") None None None (Some "true") None
        Unreadable.

(** The environment with [TEST_SKU=T] and [FULL_SYNC=true]. *)
Definition envFullSyncT : Env :=
  mkEnv (Some "shop") (Some "token") None None (Some "T") (Some "true")
        None NoFile.

(** The environment with [TEST_SKU=T] and [SKU_LIST=A,T,B]. *)
Definition envListT : Env :=
  mkEnv (Some "shop") (Some "token") None None (Some "T") None
        (Some "A,T,B") NoFile.

(** A catalogue of two products with SKUs "A" and "T", and a marketplace
    that knows neither. *)
Definition catalogAT : list Product :=
  [mkProduct 1 [mkVariant 11 (Some "A") "100.00"];
   mkProduct 2 [mkVariant 21 (Some "T") "100.00"]].

Definition worldAT : World := catalogWorld catalogAT (mlPrices []) okPut.

(** Entries with a blank SKU, a SKU the marketplace does not know, and a
    SKU the marketplace rate-limits. *)
Definition blankEntry : Entry :=
  mkEntry (mkProduct 1 []) (mkVariant 7 (Some "   ") "10.00").

Definition ghostEntry : Entry :=
  mkEntry (mkProduct 1 []) (mkVariant 7 (Some "GHOST") "10.00").

Definition rateLimitedEntry : Entry :=
  mkEntry (mkProduct 1 []) (mkVariant 7 (Some "R") "10.00").

(** A marketplace that answers 429 for "R", with the given header, and
    404 for everything else. *)
Definition rateLimitWorld (header : string) : World :=
  catalogWorld [] (mlPrices [("R", Response 429 (Some header) None)]) okPut.

(** The arithmetic of [needsUpdate] on the primitive floats of the
    machine, to compare the specification of binary64 used above with
    the hardware. *)
Module Binary64.
Import PrimFloat.
Local Open Scope float_scope.

(** The double nearest to 0.01. *)
Definition threshold : float := 0x1.47ae147ae147bp-7.

(** Lines 95-97 on two numbers. *)
Definition needsUpdate (s m : float) : bool :=
  if is_nan m || is_nan s then false
  else
    let diff := abs (m - s) / (if s =? 0 then 1 else s) in
    threshold <? diff.

(** The decision with the divisor [max(s, 1)]. *)
Definition claimed (s m : float) : bool :=
  threshold <? abs (m - s) / (if s <? 1 then 1 else s).

Definition half : float := 0.5.
Definition halfPlus : float := 0.5078125.

(** The doubles nearest to 1.01 and to 0.010000000000000001. *)
Definition onePlus : float := 0x1.028f5c28f5c29p+0.
Definition nearThreshold : float := 0x1.47ae147ae147bp-7.

End Binary64.

(* ================================================================== *)
(** ** Notions used for further properties of the script *)
(* ================================================================== *)

(** The test of [findVariantsBySku] on an entry:
    [(v.sku || '').trim() === targetSku]. *)
Definition skuIs (targetSku : string) (e : Entry) : bool :=
  String.eqb (skuOf (variant e)) targetSku.

(** A function applied to the value a computation returns. *)
Definition mapRes {A B} (f : A -> B) (r : Res A) : Res B :=
  match r with
  | Ok a => Ok (f a)
  | Throw e => Throw e
  | OutOfFuel => OutOfFuel
  end.

(** The log line of version 1 for a price that needs no update. *)
Definition isNoChange (ev : Event) : bool :=
  match ev with
  | EvLog (LogNoChange _ _) => true
  | _ => false
  end.

(** The trace is made of catalogue reads only. *)
Definition readsOnly (tr : Trace) : Prop :=
  Forall (fun ev => match ev with EvShopifyGet _ _ => True | _ => False end)
         tr.

(** The trace has no write, no marketplace lookup and no catalogue
    read: log lines, sleeps and queue events only. *)
Definition noRequest (tr : Trace) : Prop :=
  writes tr = [] /\ fetchedSkus tr = [] /\ pageRequests tr = [].

(** The SKUs looked up for a list of entries: one lookup for each entry
    whose SKU is not blank. *)
Definition lookupsOf (entries : list Entry) : list string :=
  filter truthyStr (map (fun e => skuOf (variant e)) entries).

(** A small catalogue: five products of one variant each, SKU "S". *)
Definition catalogFive : list Product := sampleCatalog 5 0 "S" "1.00".

Definition worldFive : World := catalogWorld catalogFive (mlPrices []) okPut.

(** An entry with SKU "A" and price "100.00"; [flakyWorld] prices it at
    105 and accepts the write. *)
Definition entryA : Entry :=
  mkEntry (mkProduct 1 [mkVariant 11 (Some "A") "100.00"])
          (mkVariant 11 (Some "A") "100.00").

(** Every price a trace writes was returned by a marketplace lookup of
    the trace, and the trace has no more writes than lookups. *)
Definition writesFromMarketplace (tr : Trace) : Prop :=
  (length (writes tr) <= length (fetchedSkus tr))%nat
  /\ forall id price,
      In (id, price) (writes tr) ->
      exists sku status header,
        In (EvMlGet sku (Response status header (Some (MlItem price)))) tr.

(** One mark for each catalogue page a trace reads. *)
Definition pageReads (tr : Trace) : list unit :=
  map (fun _ => tt) (pageRequests tr).

(** A measure of traces: it adds up over concatenation and ignores log
    lines and waits for a queue. *)
Definition Measure {X} (measure : Trace -> list X) : Prop :=
  measure [] = []
  /\ (forall a b, measure (a ++ b) = measure a ++ measure b)
  /\ (forall l, measure [EvLog l] = [])
  /\ (forall q, measure [EvQueueIdle q] = []).

(** In the world [w], from every history, the computation returns [a]
    and the measure of its trace is [out]. *)
Definition Yields {A X} (measure : Trace -> list X) (w : World) (m : M A)
    (a : A) (out : list X) : Prop :=
  forall h, exists evs, m w h = (Ok a, evs) /\ measure evs = out.

(** The batch of version 2 once the entries of [TEST_SKU] are removed. *)
Definition filteredBatch (testSku : string) (batch : list Entry)
  : list Entry :=
  if truthyStr testSku
  then filter (fun e => negb (skuIs testSku e)) batch
  else batch.

(** The environment with [BATCH_SIZE=abc]. *)
Definition envBadBatch : Env :=
  mkEnv (Some "shop") (Some "token") None (Some "abc") None None None NoFile.

(** A SKU as the script compares it: not empty and without white space
    at either end. *)
Definition cleanSku (s : string) : Prop :=
  truthyStr s = true /\ trim s = s.

(** A number below zero: a negative number that is not a zero. *)
Definition isNegative (x : num) : bool :=
  match x with
  | S754_finite true _ _ | S754_infinity true => true
  | _ => false
  end.

Definition isInfinite (x : num) : bool :=
  match x with S754_infinity _ => true | _ => false end.

(** A number in its binary64 form: at most 53 binary digits, an
    exponent in range, and no shorter mantissa with a lower exponent. *)
Definition isBinary64 (x : num) : bool := valid_binary prec64 emax64 x.

(** The string has no line feed. *)
Fixpoint noLineFeed (s : string) : bool :=
  match s with
  | EmptyString => true
  | String c r => negb (Ascii.eqb c LF) && noLineFeed r
  end.

(** The string ends with a carriage return. *)
Fixpoint endsWithCR (s : string) : bool :=
  match s with
  | EmptyString => false
  | String c EmptyString => Ascii.eqb c CR
  | String _ r => endsWithCR r
  end.

(** A SKU that can stand on a line of [sku_list.txt]: clean, no comment
    and without a line feed inside. *)
Definition listableSku (s : string) : Prop :=
  cleanSku s /\ startsWith "#" s = false /\ noLineFeed s = true.

(** The two ends of line a file can have. *)
Definition eolLF : string := String LF EmptyString.
Definition eolCRLF : string := String CR (String LF EmptyString).

(** A line of [sku_list.txt] that gives a SKU: its trimmed text is not
    empty and does not start with "#". *)
Definition skuLine (s : string) : bool :=
  truthyStr s && negb (startsWith "#" s).

(** A storefront that never runs out: whatever the cursor, it answers
    with the same full page of 250 products. *)
Definition endlessWorld : World :=
  mkWorld
    (fun _ _ =>
       Response 200 None (Some (Some (sampleCatalog 250 0 "S" "1.00"))))
    (fun _ _ => Response 404 None None)
    (fun _ _ _ => Response 200 None (Some tt)).

(** Every page the storefront of [w] serves is accepted by [shopifyGet]
    and holds 250 products or more. *)
Definition neverShort (w : World) : Prop :=
  forall h since_id,
    getError (storefront_get w h since_id) = None
    /\ (250 <= length (pageOf (storefront_get w h since_id)))%nat.

(** Every product the storefront of [w] serves has a variant. *)
Definition servesVariants (w : World) : Prop :=
  forall h since_id, withVariants (pageOf (storefront_get w h since_id)).
(* ================================================================== *)
(** * Properties *)
(* ================================================================== *)

(** ** The change detector *)

Lemma SFcompare_antisym (x y : num) (c : comparison) :
  SFcompare x y = Some c -> SFcompare y x = Some (CompOpp c).
Proof.
  destruct x as [sx|sx| |sx mx ex], y as [sy|sy| |sy my ey];
    cbn [SFcompare]; try discriminate;
    try (destruct sx; intros H; inversion H; reflexivity);
    try (destruct sy; intros H; inversion H; reflexivity);
    try (destruct sx, sy; intros H; inversion H; reflexivity).
  intros H. inversion H as [Hc]. clear H Hc.
  rewrite (Z.compare_antisym ex ey).
  change (Pos.compare_cont Eq my mx) with (Pos.compare my mx).
  change (Pos.compare_cont Eq mx my) with (Pos.compare mx my).
  rewrite (Pos.compare_antisym mx my).
  destruct sx, sy, (ex ?= ey)%Z, (mx ?= my)%positive; reflexivity.
Qed.

(** The decision on two numbers, with the divisor the code uses. *)
Lemma needsUpdate_numbers (shopPrice mlPrice : jsval) :
  isNaN (parseFloat shopPrice) = false ->
  isNaN (parseFloat mlPrice) = false ->
  V1.needsUpdate shopPrice mlPrice
  = num_gt (num_div (num_abs (num_sub (parseFloat mlPrice)
                                      (parseFloat shopPrice)))
                    (divisorOf (parseFloat shopPrice)))
           threshold.
Proof.
  intros Hs Hm. unfold V1.needsUpdate, divisorOf. rewrite Hs, Hm.
  cbn [orb].
  destruct (parseFloat shopPrice); try discriminate Hs; reflexivity.
Qed.

(** The divisor is [max(s, 1)] exactly for a zero and from 1 on. *)
Lemma divisorOf_max (s : num) :
  isNaN s = false ->
  (divisorOf s = num_max s one <-> isZero s = true \/ num_le one s = true).
Proof.
  intros Hs. unfold divisorOf, num_max, num_le, SFleb, SFltb.
  destruct (isZero s) eqn:Hz.
  - destruct s; try discriminate Hz. cbn. split; [auto | reflexivity].
  - destruct (SFcompare one s) as [c|] eqn:Hc.
    + rewrite (SFcompare_antisym one s c Hc).
      destruct c; cbn [CompOpp]; split;
        try (intros _; right; reflexivity);
        try reflexivity;
        try (intros [H | H]; discriminate H).
      intros H. rewrite H in Hc. vm_compute in Hc. discriminate Hc.
    + destruct s; try discriminate Hs; try discriminate Hz;
        cbn in Hc; discriminate Hc.
Qed.

(** C1 as stated fails: for a storefront price between 0 and 1 the code
    divides by the price itself, not by [max(s, 1)].  The prices "0.5"
    and "0.5078125" are binary64 numbers and every step on them is
    exact: the code answers true (0.0078125 / 0.5 = 0.015625) while the
    stated formula gives 0.0078125, below the threshold. *)
Lemma needsUpdate_not_max_formula :
  ~ (forall (s m : string) (qs qm : Q),
       valueOf (parseFloat (JStr s)) = Some qs ->
       valueOf (parseFloat (JStr m)) = Some qm ->
       (V1.needsUpdate (JStr s) (JStr m) = true
        <-> (1 # 100 < Qabs (qm - qs) / Qmax qs 1)%Q)).
Proof.
  intros H.
  specialize (H "0.5" "0.5078125" (1 # 2)%Q (65 # 128)%Q eq_refl eq_refl).
  destruct H as [H _].
  assert (Hcode : V1.needsUpdate (JStr "0.5") (JStr "0.5078125") = true)
    by (vm_compute; reflexivity).
  specialize (H Hcode).
  assert (Hmax : (Qmax (1 # 2) 1 == 1)%Q) by (apply Q.max_r; discriminate).
  rewrite Hmax in H. vm_compute in H. discriminate H.
Qed.

(** The same on the primitive floats of the machine, which agree with
    the numbers of the embedding on the prices and on the threshold;
    and decisions that turn on rounding, on underflow and on overflow.
    For "1.00" against "1.01" the exact quotient is 0.01, which is not
    above the threshold, but the number nearest to 1.01 is above 1.01
    and the code answers true. *)
Example binary64_divisor_check :
  (Binary64.needsUpdate Binary64.half Binary64.halfPlus = true
   /\ Binary64.claimed Binary64.half Binary64.halfPlus = false)
  /\ (FloatOps.Prim2SF Binary64.half = parseFloatStr "0.5"
      /\ FloatOps.Prim2SF Binary64.halfPlus = parseFloatStr "0.5078125"
      /\ FloatOps.Prim2SF Binary64.threshold = threshold
      /\ FloatOps.Prim2SF Binary64.onePlus = parseFloatStr "1.01"
      /\ FloatOps.Prim2SF Binary64.nearThreshold
         = parseFloatStr "0.010000000000000001")
  /\ (V1.needsUpdate (JStr "1.00") (JStr "1.01") = true
      /\ ~ (1 # 100 < Qabs ((101 # 100) - 1) / Qmax 1 1)%Q
      /\ Binary64.needsUpdate PrimFloat.one Binary64.onePlus = true
      /\ V1.needsUpdate (JStr "0") (JStr "0.010000000000000001") = false
      /\ Binary64.needsUpdate PrimFloat.zero Binary64.nearThreshold = false
      /\ V1.needsUpdate (JStr "-1e-400") (JStr "5") = true
      /\ parseFloatStr "1e400" = S754_infinity false).
Proof.
  repeat split; try (vm_compute; reflexivity).
  intros H. vm_compute in H. discriminate H.
Qed.

(** C1 (amended): for every pair of prices that both parse as numbers,
    [needsUpdate] is true iff |m - s| / d > 0.01 in binary64 arithmetic
    (the subtraction and the division each rounded to the nearest
    number, 0.01 being the number nearest to it), where the divisor d
    is the storefront price s itself when s is not zero and 1 when s is
    zero; d equals max(s, 1) exactly when s is zero or at least 1, and
    there the stated formula, computed in binary64, decides.  If either
    price does not parse, the answer is false. *)
Theorem needsUpdate_decision (shopPrice mlPrice : jsval) :
  ((isNaN (parseFloat shopPrice) = true
    \/ isNaN (parseFloat mlPrice) = true) ->
   V1.needsUpdate shopPrice mlPrice = false)
  /\
  (isNaN (parseFloat shopPrice) = false ->
   isNaN (parseFloat mlPrice) = false ->
   V1.needsUpdate shopPrice mlPrice
   = num_gt (num_div (num_abs (num_sub (parseFloat mlPrice)
                                       (parseFloat shopPrice)))
                     (divisorOf (parseFloat shopPrice)))
            threshold
   /\ (divisorOf (parseFloat shopPrice) = num_max (parseFloat shopPrice) one
       <-> isZero (parseFloat shopPrice) = true
           \/ num_le one (parseFloat shopPrice) = true)
   /\ (isZero (parseFloat shopPrice) = true
       \/ num_le one (parseFloat shopPrice) = true ->
       V1.needsUpdate shopPrice mlPrice
       = num_gt (num_div (num_abs (num_sub (parseFloat mlPrice)
                                           (parseFloat shopPrice)))
                         (num_max (parseFloat shopPrice) one))
                threshold)).
Proof.
  split.
  - intros [H | H]; unfold V1.needsUpdate; rewrite H.
    + rewrite orb_true_r. reflexivity.
    + reflexivity.
  - intros Hs Hm. split; [apply needsUpdate_numbers; assumption|].
    split; [apply divisorOf_max, Hs|].
    intros Hd. apply (divisorOf_max _ Hs) in Hd. rewrite <- Hd.
    apply needsUpdate_numbers; assumption.
Qed.

(** The storefront price "100.00" against the marketplace price "105":
    both parse, the storefront price is at least 1, and 5% is over the
    threshold; "abc" does not parse. *)
Lemma needsUpdate_decision_witness :
  V1.needsUpdate (JStr "100.00") (JStr "105") = true
  /\ V1.needsUpdate (JStr "100.00") (JStr "abc") = false.
Proof.
  split.
  - rewrite (proj2 (proj2 (proj2 (needsUpdate_decision
                                    (JStr "100.00") (JStr "105"))
                                 eq_refl eq_refl))
                   (or_intror eq_refl)).
    vm_compute. reflexivity.
  - apply (proj1 (needsUpdate_decision (JStr "100.00") (JStr "abc"))).
    right. reflexivity.
Defined.

(** ** One entry *)

Lemma allWhiteSpace_trimStart (s : string) :
  allWhiteSpace s = true -> trimStart s = "".
Proof.
  induction s as [|c r IH]; cbn; [reflexivity|].
  intros H. apply andb_true_iff in H as [Hc Hr]. rewrite Hc. auto.
Qed.

Lemma allWhiteSpace_trim (s : string) : allWhiteSpace s = true -> trim s = "".
Proof.
  intros H. unfold trim. rewrite allWhiteSpace_trimStart by exact H.
  reflexivity.
Qed.

Lemma trimEnd_allWhiteSpace (s : string) :
  trimEnd s = "" -> allWhiteSpace s = true.
Proof.
  induction s as [|c r IH]; cbn; [reflexivity|].
  destruct (isWhiteSpace c) eqn:Hc; cbn; [|discriminate].
  destruct (trimEnd r) eqn:Hr; cbn; [auto | discriminate].
Qed.

Lemma trimStart_allWhiteSpace (s : string) :
  allWhiteSpace (trimStart s) = true -> allWhiteSpace s = true.
Proof.
  induction s as [|c r IH]; cbn; [reflexivity|].
  destruct (isWhiteSpace c) eqn:Hc; cbn; [auto|].
  rewrite Hc. discriminate.
Qed.

(** A string trims to the empty string exactly when it is made of white
    space only. *)
Lemma trim_empty_iff (s : string) : trim s = "" <-> allWhiteSpace s = true.
Proof.
  split; [|apply allWhiteSpace_trim].
  unfold trim. intros H.
  apply trimStart_allWhiteSpace, trimEnd_allWhiteSpace, H.
Qed.

Ltac run_entry :=
  unfold tryCatch, bind, queueAdd, httpMlGet, httpShopifyPut, log, emit,
    sleep, throw, ret; cbn.

Ltac entry_cases w :=
  repeat match goal with
  | |- context [marketplace_get w ?h ?k] =>
      let st := fresh "status" in
      let hd := fresh "header" in
      let bd := fresh "body" in
      destruct (marketplace_get w h k) as [|st hd bd]; cbn
  | |- context [storefront_put w ?h ?i ?p] =>
      let st := fresh "pstatus" in
      let hd := fresh "pheader" in
      let bd := fresh "pbody" in
      destruct (storefront_put w h i p) as [|st hd bd]; cbn
  | |- context [if ?b then _ else _] => destruct b eqn:?; cbn
  | |- context [match ?x with Some _ => _ | None => _ end] =>
      destruct x; cbn
  | |- context [match ?x with MlNull => _ | MlItem _ => _ end] =>
      destruct x; cbn
  end.

Ltac entry_done :=
  eexists; split; [reflexivity|]; split; reflexivity.

(** Whatever the marketplace and the storefront answer, an entry is
    processed to its end: nothing is thrown, no catalogue page is read,
    and the marketplace is asked once if the SKU is not blank. *)
Lemma V1_processVariantEntry_total (e : Entry) (w : World) (h : Trace) :
  exists evs,
    V1.processVariantEntry e w h = (Ok tt, evs)
    /\ clean evs = true
    /\ fetchedSkus evs
       = (if isEmpty (skuOf (variant e)) then [] else [skuOf (variant e)]).
Proof.
  unfold V1.processVariantEntry, V1.fetchMlItem, V1.shopifyPut, V1.priceOf.
  destruct (isEmpty (skuOf (variant e))) eqn:Hsku.
  - unfold ret. entry_done.
  - run_entry. entry_cases w; entry_done.
Qed.

Lemma V2_processVariantEntry_total (e : Entry) (w : World) (h : Trace) :
  exists evs,
    V2.processVariantEntry e w h = (Ok tt, evs)
    /\ clean evs = true
    /\ fetchedSkus evs
       = (if isEmpty (skuOf (variant e)) then [] else [skuOf (variant e)]).
Proof.
  unfold V2.processVariantEntry, V2.fetchMlItem, V2.shopifyPut, V2.priceOf.
  destruct (isEmpty (skuOf (variant e))) eqn:Hsku.
  - unfold ret. entry_done.
  - run_entry. entry_cases w; entry_done.
Qed.

(** ** Blank SKUs *)

(** C6: an entry whose SKU is null, empty or made of white space only is
    skipped by [processVariantEntry] (both versions): the trace is empty,
    so no marketplace fetch and no storefront write is issued. *)
Theorem blank_sku_is_skipped (e : Entry) (w : World) (h : Trace) :
  allWhiteSpace (match v_sku (variant e) with Some s => s | None => "" end)
  = true ->
  V1.processVariantEntry e w h = (Ok tt, [])
  /\ V2.processVariantEntry e w h = (Ok tt, []).
Proof.
  intros H. apply allWhiteSpace_trim in H.
  unfold V1.processVariantEntry, V2.processVariantEntry, skuOf.
  rewrite H. split; reflexivity.
Qed.

Lemma blank_sku_is_skipped_witness :
  V1.processVariantEntry blankEntry (rateLimitWorld "3") [] = (Ok tt, [])
  /\ V2.processVariantEntry blankEntry (rateLimitWorld "3") [] = (Ok tt, []).
Proof.
  apply (blank_sku_is_skipped blankEntry (rateLimitWorld "3") []).
  reflexivity.
Defined.

(** ** Rate limiting *)

Lemma forEach_cons_ok {A} (x : A) (xs : list A) (body : A -> M unit)
    (w : World) (h evs : Trace) :
  body x w h = (Ok tt, evs) ->
  forEach (x :: xs) body w h
  = (let '(r, evs') := forEach xs body w (h ++ evs) in (r, evs ++ evs')).
Proof.
  intros H. cbn [forEach]. unfold bind. rewrite H. reflexivity.
Qed.

(** *** The numbers of a retry *)

Lemma roundInt_small (z : Z) :
  (Z.abs z <= 2 ^ 53)%Z -> roundInt z = IInt z.
Proof.
  intros Hz. unfold roundInt.
  destruct (Z.log2 (Z.abs z) - 52 <=? 0)%Z eqn:Hk; [reflexivity|].
  apply Z.leb_gt in Hk.
  assert (Hpos : (0 < Z.abs z)%Z).
  { destruct (Z.abs z) eqn:E; try reflexivity; cbn in Hk; lia. }
  pose proof (Z.log2_spec (Z.abs z) Hpos) as [Hlo _].
  assert (Hpow : (2 ^ 53 <= 2 ^ Z.log2 (Z.abs z))%Z)
    by (apply Z.pow_le_mono_r; lia).
  assert (Habs : Z.abs z = (2 ^ 53)%Z) by lia.
  destruct (Z.abs_eq_or_opp z) as [E | E]; rewrite E in Habs.
  - subst z. vm_compute. reflexivity.
  - assert (z = (- 2 ^ 53)%Z) by lia. subst z. vm_compute. reflexivity.
Qed.

(** Beyond 2^53 an integer is rounded to a number of its sign that is
    still beyond the range of a timer. *)
Lemma roundInt_large (z : Z) :
  (2 ^ 53 < Z.abs z)%Z ->
  (exists neg, roundInt z = IInf neg)
  \/ (exists z', roundInt z = IInt z'
                 /\ ((0 < z -> 2 ^ 53 <= z') /\ (z < 0 -> z' <= 0))%Z).
Proof.
  intros Hz. unfold roundInt.
  assert (Hpos : (0 < Z.abs z)%Z) by lia.
  pose proof (Z.log2_spec (Z.abs z) Hpos) as [Hlo Hhi].
  assert (H53 : (53 <= Z.log2 (Z.abs z))%Z).
  { destruct (Z_lt_le_dec (Z.log2 (Z.abs z)) 53) as [Hlt | Hge]; [|exact Hge].
    exfalso.
    assert ((2 ^ Z.succ (Z.log2 (Z.abs z)) <= 2 ^ 53)%Z)
      by (apply Z.pow_le_mono_r; lia).
    lia. }
  set (k := (Z.log2 (Z.abs z) - 52)%Z) in *.
  assert (Hk : (1 <= k)%Z) by (unfold k; lia).
  destruct (k <=? 0)%Z eqn:Ek; [apply Z.leb_le in Ek; lia|].
  cbv zeta.
  set (q := (Z.abs z / 2 ^ k)%Z).
  match goal with
  | |- context [if ?c then (q + 1)%Z else q] =>
      set (q' := if c then (q + 1)%Z else q)
  end.
  destruct (2 ^ 1024 <=? q' * 2 ^ k)%Z; [left; eexists; reflexivity|].
  right. eexists. split; [reflexivity|].
  assert (Hpk : (0 < 2 ^ k)%Z) by (apply Z.pow_pos_nonneg; lia).
  assert (Hq : (2 ^ 52 <= q)%Z).
  { unfold q. apply Z.div_le_lower_bound; [exact Hpk|].
    replace (2 ^ k * 2 ^ 52)%Z with (2 ^ Z.log2 (Z.abs z))%Z; [exact Hlo|].
    rewrite <- Z.pow_add_r by lia. f_equal. unfold k. lia. }
  assert (Hq' : (q <= q')%Z).
  { unfold q'.
    match goal with |- context [if ?c then _ else _] => destruct c end; lia. }
  assert (H2k : (2 <= 2 ^ k)%Z).
  { change 2%Z with (2 ^ 1)%Z at 1. apply Z.pow_le_mono_r; lia. }
  split; intros Hs.
  - rewrite (Z.sgn_pos z Hs). nia.
  - rewrite (Z.sgn_neg z Hs). nia.
Qed.

(** The wait of a timer given an integer rounded to a number. *)
Lemma timerDelay_roundInt (z : Z) :
  timerDelay (roundInt z)
  = if (1 <=? z)%Z && (z <=? 2147483647)%Z then z else 1%Z.
Proof.
  destruct (Z_le_gt_dec (Z.abs z) (2 ^ 53)) as [Hs | Hl].
  - rewrite (roundInt_small z Hs). reflexivity.
  - assert (Hout : (1 <=? z)%Z && (z <=? 2147483647)%Z = false).
    { apply andb_false_iff.
      destruct (Z_lt_le_dec z 0) as [Hn | Hp].
      - left. apply Z.leb_gt. lia.
      - right. apply Z.leb_gt. change (2 ^ 53)%Z with 9007199254740992%Z in Hl.
        lia. }
    rewrite Hout.
    destruct (roundInt_large z ltac:(lia)) as [[neg ->] | (z' & -> & Hp & Hn)];
      [reflexivity|].
    cbn [timerDelay].
    change (2 ^ 53)%Z with 9007199254740992%Z in Hp, Hl.
    destruct (Z_lt_le_dec z 0) as [Hneg | Hpos].
    + destruct (1 <=? z')%Z eqn:E; [apply Z.leb_le in E; lia | reflexivity].
    + assert (0 < z)%Z by lia.
      destruct (z' <=? 2147483647)%Z eqn:E;
        [apply Z.leb_le in E; lia | rewrite andb_false_r; reflexivity].
Qed.

(** C5 as stated fails for [retry-after: 0]: the error carries 0, which
    is falsy, so [(err.retryAfter || 5) * 1000] makes the orchestrator
    sleep 5000 ms and not the 0 ms of the header. *)
Lemma retry_after_zero_sleeps_five_seconds :
  ~ (forall (e : Entry) (w : World) (h : Trace) (s : string) (n : Z)
            (body : option MlBody),
        isEmpty (skuOf (variant e)) = false ->
        marketplace_get w (h ++ [EvQueueAdd MlQueue]) (skuOf (variant e))
        = Response 429 (Some s) body ->
        parseInt s = IInt n ->
        In (EvSleep (n * 1000)) (snd (V1.processVariantEntry e w h))).
Proof.
  intros H.
  specialize (H rateLimitedEntry (rateLimitWorld "0") [] "0" 0%Z None
                eq_refl eq_refl eq_refl).
  vm_compute in H.
  repeat (destruct H as [H | H]; [discriminate H|]). exact H.
Qed.

(** C5 (amended): when the marketplace answers 429, the error carries
    [parseInt] of the [retry-after] header (5 when the header is absent
    or empty), and the orchestrator asks a timer for that many seconds,
    or for 5 seconds when the carried number is a zero or not a number.
    The timer waits what it is asked when that is between 1 ms and
    2^31 - 1 ms, so the entry waits n seconds for a carried n from 1 to
    2147483 (3000 ms for [retry-after: 3]), 5 seconds for 0, -0 or
    [NaN], and 1 ms for a negative n, an n above 2147483 or an
    infinity.  The
    entry's trace is one fetch, the warning and the sleep: the fetch is
    not issued again, nothing is written or logged as updated, and the
    loop goes on with the next entry. *)
Theorem rate_limited_entry_waits_and_is_dropped
    (e : Entry) (w : World) (h : Trace)
    (header : option string) (body : option MlBody) :
  isEmpty (skuOf (variant e)) = false ->
  marketplace_get w (h ++ [EvQueueAdd MlQueue]) (skuOf (variant e))
  = Response 429 header body ->
  let sku := skuOf (variant e) in
  let err := rateLimitError header in
  let evs := rateLimitedTrace sku header body in
  V1.fetchMlItem sku w (h ++ [EvQueueAdd MlQueue])
  = (Throw err, [EvMlGet sku (Response 429 header body)])
  /\ V1.processVariantEntry e w h = (Ok tt, evs)
  /\ V2.processVariantEntry e w h = (Ok tt, evs)
  /\ fetchedSkus evs = [sku]
  /\ writes evs = []
  /\ (exists ms,
        evs = [EvQueueAdd MlQueue;
               EvMlGet sku (Response 429 header body);
               EvQueueDone MlQueue;
               EvLog (LogRateLimitWait (retryWait err));
               EvSleep ms]
        /\ ms = timerDelay (retryWait err))
  /\ (header = None \/ header = Some "" ->
      err_retryAfter err = Some (IInt 5))
  /\ (forall s, header = Some s -> s <> "" ->
        err_retryAfter err = Some (parseInt s))
  /\ (forall n, err_retryAfter err = Some (IInt n) ->
        ((1 <= n <= 2147483)%Z ->
         timerDelay (retryWait err) = (n * 1000)%Z)
        /\ (n = 0%Z -> timerDelay (retryWait err) = 5000%Z)
        /\ ((n < 0 \/ 2147483 < n)%Z ->
            timerDelay (retryWait err) = 1%Z))
  /\ (err_retryAfter err = Some INaN \/ err_retryAfter err = Some INegZero ->
      timerDelay (retryWait err) = 5000%Z)
  /\ (forall neg, err_retryAfter err = Some (IInf neg) ->
        timerDelay (retryWait err) = 1%Z)
  /\ (header = Some "3" -> timerDelay (retryWait err) = 3000%Z)
  /\ (forall rest,
        forEach (e :: rest) V1.processVariantEntry w h
        = (let '(r, evs') :=
             forEach rest V1.processVariantEntry w (h ++ evs) in
           (r, evs ++ evs'))).
Proof.
  intros Hsku Hml. cbv zeta.
  assert (H1 : V1.processVariantEntry e w h
               = (Ok tt, rateLimitedTrace (skuOf (variant e)) header body)).
  { unfold V1.processVariantEntry, V1.fetchMlItem.
    rewrite Hsku. run_entry. rewrite Hml. reflexivity. }
  assert (H2 : V2.processVariantEntry e w h
               = (Ok tt, rateLimitedTrace (skuOf (variant e)) header body)).
  { unfold V2.processVariantEntry, V2.fetchMlItem.
    rewrite Hsku. run_entry. rewrite Hml. reflexivity. }
  split.
  { unfold V1.fetchMlItem, bind, httpMlGet, throw. cbn.
    rewrite Hml. reflexivity. }
  split; [exact H1|]. split; [exact H2|].
  split; [reflexivity|]. split; [reflexivity|].
  split; [eexists; split; reflexivity|].
  split; [intros [-> | ->]; reflexivity|].
  split.
  { intros s -> Hs. unfold rateLimitError. cbn.
    destruct s; [contradiction | reflexivity]. }
  split.
  { intros n Hn. unfold retryWait. rewrite Hn.
    rewrite timerDelay_roundInt. split; [|split].
    - intros Hr. destruct (n =? 0)%Z eqn:E; [apply Z.eqb_eq in E; lia|].
      replace ((1 <=? n * 1000)%Z && (n * 1000 <=? 2147483647)%Z) with true;
        [reflexivity|].
      symmetry. apply andb_true_iff. split; apply Z.leb_le; lia.
    - intros ->. reflexivity.
    - intros Hr. destruct (n =? 0)%Z eqn:E; [apply Z.eqb_eq in E; lia|].
      replace ((1 <=? n * 1000)%Z && (n * 1000 <=? 2147483647)%Z) with false;
        [reflexivity|].
      symmetry. apply andb_false_iff.
      destruct Hr; [left | right]; apply Z.leb_gt; lia. }
  split; [intros [Hn | Hn]; unfold retryWait; rewrite Hn; reflexivity|].
  split; [intros neg Hn; unfold retryWait; rewrite Hn; reflexivity|].
  split; [intros ->; reflexivity|].
  intros rest. apply forEach_cons_ok. exact H1.
Qed.

(** The 429 scenario of the specification: [retry-after: 3] makes the
    entry wait 3000 ms, without a write, before the next entry; and
    [retry-after: 2147484] is beyond the range of the timer, which
    fires after 1 ms. *)
Lemma rate_limited_entry_witness :
  V1.processVariantEntry rateLimitedEntry (rateLimitWorld "3") []
  = (Ok tt, [EvQueueAdd MlQueue; EvMlGet "R" (Response 429 (Some "3") None);
             EvQueueDone MlQueue; EvLog (LogRateLimitWait (IInt 3000));
             EvSleep 3000])
  /\ V1.processVariantEntry rateLimitedEntry (rateLimitWorld "2147484") []
     = (Ok tt, [EvQueueAdd MlQueue;
                EvMlGet "R" (Response 429 (Some "2147484") None);
                EvQueueDone MlQueue;
                EvLog (LogRateLimitWait (IInt 2147484000));
                EvSleep 1]).
Proof.
  split.
  - exact (proj1 (proj2 (rate_limited_entry_waits_and_is_dropped
                           rateLimitedEntry (rateLimitWorld "3") []
                           (Some "3") None eq_refl eq_refl))).
  - exact (proj1 (proj2 (rate_limited_entry_waits_and_is_dropped
                           rateLimitedEntry (rateLimitWorld "2147484") []
                           (Some "2147484") None eq_refl eq_refl))).
Defined.

(** ** What a computation can throw *)

Lemma clean_app (a b : Trace) : clean (a ++ b) = clean a && clean b.
Proof. apply forallb_app. Qed.

Lemma Inv_ret {A} (a : A) : Inv (ret a).
Proof. intros w h. reflexivity. Qed.

Lemma Inv_outOfFuel {A} : Inv (@outOfFuel A).
Proof. intros w h. reflexivity. Qed.

Lemma Inv_log (l : LogLine) : Inv (log l).
Proof. intros w h. reflexivity. Qed.

Lemma Inv_onIdle (q : Queue) : Inv (onIdle q).
Proof. intros w h. reflexivity. Qed.

Lemma Inv_bind {A B} (m : M A) (f : A -> M B) :
  Inv m -> (forall a, Inv (f a)) -> Inv (bind m f).
Proof.
  intros Hm Hf w h. unfold bind.
  specialize (Hm w h). destruct (m w h) as [r e1].
  destruct r as [a | e | ]; [|exact Hm | exact Hm].
  specialize (Hf a w (h ++ e1)). destruct (f a w (h ++ e1)) as [r2 e2].
  unfold good in *. rename Hm into Hc1. rename Hf into Hc2.
  cbn [fst snd] in *.
  destruct r2 as [b | e | ].
  - rewrite clean_app, Hc1, Hc2. reflexivity.
  - destruct Hc2 as (evs0 & sid & r & -> & Herr & Hclean).
    exists (e1 ++ evs0), sid, r. rewrite app_assoc.
    repeat split; [exact Herr|]. rewrite clean_app, Hc1, Hclean. reflexivity.
  - rewrite clean_app, Hc1, Hc2. reflexivity.
Qed.

Lemma Inv_forEach {A} (xs : list A) (body : A -> M unit) :
  (forall x, Inv (body x)) -> Inv (forEach xs body).
Proof.
  intros Hbody. induction xs as [|x xs IH]; cbn [forEach].
  - apply Inv_ret.
  - apply Inv_bind; [apply Hbody | intros _; exact IH].
Qed.

Lemma Inv_V1_shopifyGet (since_id : Z) : Inv (V1.shopifyGet since_id).
Proof.
  intros w h. unfold V1.shopifyGet, bind, httpShopifyGet, throw, ret, good.
  cbn.
  destruct (storefront_get w h since_id) as [|status hdr body] eqn:E; cbn;
    [|destruct (statusOk status) eqn:Hok; cbn; [destruct body; cbn|]].
  - exists [], since_id, NetworkError. repeat split.
  - unfold clean, failedGet, getError. cbn. rewrite Hok. reflexivity.
  - exists [], since_id, (Response status hdr None).
    repeat split. unfold getError. rewrite Hok. reflexivity.
  - exists [], since_id, (Response status hdr body).
    repeat split. unfold getError. rewrite Hok. reflexivity.
Qed.

Lemma Inv_V2_shopifyGet (since_id : Z) : Inv (V2.shopifyGet since_id).
Proof. exact (Inv_V1_shopifyGet since_id). Qed.

Lemma Inv_V1_processVariantEntry (e : Entry) : Inv (V1.processVariantEntry e).
Proof.
  intros w h.
  destruct (V1_processVariantEntry_total e w h) as (evs & -> & Hc & _).
  exact Hc.
Qed.

Lemma Inv_V2_processVariantEntry (e : Entry) : Inv (V2.processVariantEntry e).
Proof.
  intros w h.
  destruct (V2_processVariantEntry_total e w h) as (evs & -> & Hc & _).
  exact Hc.
Qed.

Lemma Inv_V1_listVariantsBatch_loop (fuel : nat) (limit : jsint) :
  forall results since_id,
    Inv (V1.listVariantsBatch_loop fuel limit results since_id).
Proof.
  induction fuel as [|fuel IH]; intros results since_id;
    cbn [V1.listVariantsBatch_loop];
    destruct (limit_le0 limit || len_lt (length results) limit);
    try apply Inv_ret; try apply Inv_outOfFuel.
  apply Inv_bind; [apply Inv_V1_shopifyGet|]. intros data.
  destruct (isNil _); [apply Inv_ret|].
  destruct (_ <? _)%nat; [apply Inv_ret | apply IH].
Qed.

Lemma Inv_V2_listVariantsBatch_loop (fuel : nat) (limit : jsint) :
  forall results since_id,
    Inv (V2.listVariantsBatch_loop fuel limit results since_id).
Proof.
  induction fuel as [|fuel IH]; intros results since_id;
    cbn [V2.listVariantsBatch_loop];
    destruct (limit_le0 limit || len_lt (length results) limit);
    try apply Inv_ret; try apply Inv_outOfFuel.
  apply Inv_bind; [apply Inv_V2_shopifyGet|]. intros data.
  destruct (isNil _); [apply Inv_ret|].
  destruct (_ <? _)%nat; [apply Inv_ret | apply IH].
Qed.

Lemma Inv_V1_findVariantsBySku_loop (fuel : nat) (targetSku : string) :
  forall matches since_id,
    Inv (V1.findVariantsBySku_loop fuel targetSku matches since_id).
Proof.
  induction fuel as [|fuel IH]; intros matches since_id;
    cbn [V1.findVariantsBySku_loop]; [apply Inv_outOfFuel|].
  apply Inv_bind; [apply Inv_V1_shopifyGet|]. intros data.
  destruct (isNil _); [apply Inv_ret|].
  destruct (_ <? _)%nat; [apply Inv_ret | apply IH].
Qed.

Lemma Inv_V2_findVariantsBySku_loop (fuel : nat) (targetSku : string) :
  forall matches since_id,
    Inv (V2.findVariantsBySku_loop fuel targetSku matches since_id).
Proof.
  induction fuel as [|fuel IH]; intros matches since_id;
    cbn [V2.findVariantsBySku_loop]; [apply Inv_outOfFuel|].
  apply Inv_bind; [apply Inv_V2_shopifyGet|]. intros data.
  destruct (isNil _); [apply Inv_ret|].
  destruct (_ <? _)%nat; [apply Inv_ret | apply IH].
Qed.

Create HintDb inv.
#[local] Hint Resolve Inv_ret Inv_log Inv_onIdle
  Inv_V1_processVariantEntry Inv_V2_processVariantEntry : inv.

Ltac inv_step :=
  match goal with
  | |- Inv (bind _ _) => apply Inv_bind; [|intros ?]
  | |- Inv (forEach _ _) => apply Inv_forEach; intros ?
  | |- Inv (if ?b then _ else _) => destruct b
  | |- Inv (V1.listVariantsBatch _ _) => apply Inv_V1_listVariantsBatch_loop
  | |- Inv (V2.listVariantsBatch _ _) => apply Inv_V2_listVariantsBatch_loop
  | |- Inv (V1.findVariantsBySku _ _) => apply Inv_V1_findVariantsBySku_loop
  | |- Inv (V2.findVariantsBySku _ _) => apply Inv_V2_findVariantsBySku_loop
  | |- Inv _ => solve [auto with inv]
  end.

Lemma Inv_V1_mainBody (env : Env) (fuel : nat) :
  skuFileReadable env -> Inv (V1.mainBody env fuel).
Proof.
  intros Hfile. unfold V1.mainBody, V1.detectSkuList, V1.readSkuListFile.
  unfold skuFileReadable in Hfile.
  destruct (sku_list_txt env); [| |contradiction]; repeat inv_step.
Qed.

Lemma Inv_V2_mainBody (env : Env) (fuel : nat) : Inv (V2.mainBody env fuel).
Proof.
  unfold V2.mainBody. cbv zeta. repeat inv_step.
Qed.

(** ** Specifications of the pieces of a run *)

Lemma fetchedSkus_app (a b : Trace) :
  fetchedSkus (a ++ b) = fetchedSkus a ++ fetchedSkus b.
Proof.
  induction a as [|ev a IH]; [reflexivity|].
  destruct ev; cbn; congruence.
Qed.

Lemma noFetch_app (a b : Trace) : noFetch a -> noFetch b -> noFetch (a ++ b).
Proof.
  unfold noFetch. intros Ha Hb. rewrite fetchedSkus_app, Ha, Hb. reflexivity.
Qed.

Lemma onlyFetches_app (sku : string) (a b : Trace) :
  onlyFetches sku a -> onlyFetches sku b -> onlyFetches sku (a ++ b).
Proof.
  unfold onlyFetches. intros Ha Hb. rewrite fetchedSkus_app.
  apply Forall_app. split; assumption.
Qed.

Lemma neverFetches_app (sku : string) (a b : Trace) :
  neverFetches sku a -> neverFetches sku b -> neverFetches sku (a ++ b).
Proof.
  unfold neverFetches. intros Ha Hb. rewrite fetchedSkus_app, in_app_iff.
  tauto.
Qed.

Lemma noFetch_onlyFetches (sku : string) (tr : Trace) :
  noFetch tr -> onlyFetches sku tr.
Proof. unfold noFetch, onlyFetches. intros ->. constructor. Qed.

Lemma noFetch_neverFetches (sku : string) (tr : Trace) :
  noFetch tr -> neverFetches sku tr.
Proof. unfold noFetch, neverFetches. intros ->. intros []. Qed.

Lemma Post_ret {A} (P : Trace -> Prop) (Q : A -> Prop) (a : A) :
  P [] -> Q a -> Post P Q (ret a).
Proof.
  intros HP HQ w h. split; [exact HP|]. cbn. intros b Hb.
  inversion Hb; subst. exact HQ.
Qed.

Lemma Post_emit (P : Trace -> Prop) (ev : Event) :
  P [ev] -> Post P (fun _ => True) (emit ev).
Proof. intros HP w h. split; [exact HP | trivial]. Qed.

Lemma Post_outOfFuel {A} (P : Trace -> Prop) (Q : A -> Prop) :
  P [] -> Post P Q outOfFuel.
Proof. intros HP w h. split; [exact HP | discriminate]. Qed.

Lemma Post_weaken {A} (P P' : Trace -> Prop) (Q Q' : A -> Prop) (m : M A) :
  (forall tr, P tr -> P' tr) -> (forall a, Q a -> Q' a) ->
  Post P Q m -> Post P' Q' m.
Proof.
  intros HP HQ Hm w h. destruct (Hm w h) as [H1 H2]. split; auto.
Qed.

Lemma Post_bind {A B} (P : Trace -> Prop) (Q : A -> Prop) (R : B -> Prop)
    (m : M A) (f : A -> M B) :
  (forall a b, P a -> P b -> P (a ++ b)) ->
  Post P Q m -> (forall a, Q a -> Post P R (f a)) ->
  Post P R (bind m f).
Proof.
  intros Happ Hm Hf w h. unfold bind.
  specialize (Hm w h). destruct (m w h) as [r e1]. cbn [fst snd] in Hm.
  destruct Hm as [HP HQ].
  destruct r as [a | e | ]; cbn [fst snd];
    [|split; [exact HP | discriminate] ..].
  specialize (Hf a (HQ a eq_refl) w (h ++ e1)).
  destruct (f a w (h ++ e1)) as [r2 e2]. cbn [fst snd] in *.
  destruct Hf as [HP2 HR]. split; [apply Happ; assumption | exact HR].
Qed.

Lemma bind_trace_split {A B} (P1 P2 : Trace -> Prop) (m : M A)
    (f : A -> M B) (w : World) (h : Trace) :
  P2 [] ->
  Post P1 (fun _ => True) m ->
  (forall a, Post P2 (fun _ => True) (f a)) ->
  exists e1 e2, snd (bind m f w h) = e1 ++ e2 /\ P1 e1 /\ P2 e2.
Proof.
  intros Hnil Hm Hf. unfold bind.
  specialize (Hm w h). destruct (m w h) as [r e1]. destruct Hm as [H1 _].
  cbn [snd] in H1.
  destruct r as [a | e | ].
  - specialize (Hf a w (h ++ e1)). destruct (f a w (h ++ e1)) as [r2 e2].
    destruct Hf as [H2 _]. cbn [snd] in *. exists e1, e2. auto.
  - exists e1, []. cbn [snd]. rewrite app_nil_r. auto.
  - exists e1, []. cbn [snd]. rewrite app_nil_r. auto.
Qed.

Lemma Post_forEach {A} (P : Trace -> Prop) (xs : list A)
    (body : A -> M unit) :
  P [] -> (forall a b, P a -> P b -> P (a ++ b)) ->
  (forall x, In x xs -> Post P (fun _ => True) (body x)) ->
  Post P (fun _ => True) (forEach xs body).
Proof.
  intros Hnil Happ. induction xs as [|x xs IH]; intros Hbody;
    cbn [forEach].
  - apply Post_ret; trivial.
  - apply (Post_bind P (fun _ => True)); [exact Happ | |].
    + apply Hbody. left. reflexivity.
    + intros _ _. apply IH. intros y Hy. apply Hbody. right. exact Hy.
Qed.

Lemma Post_shopifyGet (since_id : Z) :
  Post noFetch (fun _ => True) (V1.shopifyGet since_id).
Proof.
  intros w h. split; [|trivial].
  unfold V1.shopifyGet, bind, httpShopifyGet. cbn.
  destruct (storefront_get w h since_id) as [|status hdr [data|]]; cbn;
    try destruct (statusOk status); reflexivity.
Qed.

Lemma Post_listVariantsBatch_loop (fuel : nat) (limit : jsint) :
  forall results since_id,
    Post noFetch (fun _ => True)
         (V1.listVariantsBatch_loop fuel limit results since_id).
Proof.
  induction fuel as [|fuel IH]; intros results since_id;
    cbn [V1.listVariantsBatch_loop];
    destruct (limit_le0 limit || len_lt (length results) limit);
    try (apply Post_ret; [reflexivity | trivial]);
    try (apply Post_outOfFuel; reflexivity).
  apply (Post_bind noFetch (fun _ => True));
    [apply noFetch_app | apply Post_shopifyGet |].
  intros data _.
  destruct (isNil _); [apply Post_ret; [reflexivity | trivial]|].
  destruct (_ <? _)%nat; [apply Post_ret; [reflexivity | trivial] | apply IH].
Qed.

Lemma pushMatches_sku (targetSku : string) (products : list Product) :
  forall matches,
    Forall (fun e => skuOf (variant e) = targetSku) matches ->
    Forall (fun e => skuOf (variant e) = targetSku)
           (V1.pushMatches targetSku products matches).
Proof.
  unfold V1.pushMatches.
  induction products as [|p ps IH]; intros matches H; cbn [fold_left];
    [exact H|].
  apply IH. clear IH. revert matches H.
  induction (p_variants p) as [|v vs IHv]; intros matches H;
    cbn [fold_left]; [exact H|].
  apply IHv. destruct (String.eqb (skuOf v) targetSku) eqn:E; [|exact H].
  apply Forall_app. split; [exact H|]. constructor; [|constructor].
  apply String.eqb_eq, E.
Qed.

Lemma Post_findVariantsBySku_loop (fuel : nat) (targetSku : string) :
  forall matches since_id,
    Forall (fun e => skuOf (variant e) = targetSku) matches ->
    Post noFetch (Forall (fun e => skuOf (variant e) = targetSku))
         (V1.findVariantsBySku_loop fuel targetSku matches since_id).
Proof.
  induction fuel as [|fuel IH]; intros matches since_id Hm;
    cbn [V1.findVariantsBySku_loop];
    [apply Post_outOfFuel; reflexivity|].
  apply (Post_bind noFetch (fun _ => True));
    [apply noFetch_app | apply Post_shopifyGet |].
  intros data _.
  destruct (isNil _); [apply Post_ret; [reflexivity | exact Hm]|].
  destruct (_ <? _)%nat.
  - apply Post_ret; [reflexivity | apply pushMatches_sku, Hm].
  - apply IH, pushMatches_sku, Hm.
Qed.

Lemma Post_V2_processVariantEntry (e : Entry) :
  Post (fun tr => fetchedSkus tr
                  = if isEmpty (skuOf (variant e)) then []
                    else [skuOf (variant e)])
       (fun _ => True) (V2.processVariantEntry e).
Proof.
  intros w h.
  destruct (V2_processVariantEntry_total e w h) as (evs & -> & _ & F).
  split; [exact F | trivial].
Qed.

(** Version 2 handles [TEST_SKU] before the batch: every marketplace
    lookup of the first part of the script is for [TEST_SKU], and none
    of the second part is. *)
Lemma V2_mainBody_test_sku_first (env : Env) (fuel : nat) (w : World)
    (h : Trace) :
  truthyStr (TEST_SKU env) = true ->
  exists first second,
    fetchedSkus (snd (V2.mainBody env fuel w h)) = first ++ second
    /\ Forall (fun s => s = TEST_SKU env) first
    /\ ~ In (TEST_SKU env) second.
Proof.
  intros Htest. unfold V2.mainBody. rewrite Htest.
  set (T := TEST_SKU env).
  match goal with
  | |- context [snd (bind ?m ?f w h)] =>
      assert (HA : Post (onlyFetches T) (fun _ => True) m);
      [| assert (HB : forall a, Post (neverFetches T) (fun _ => True) (f a))]
  end.
  - apply (Post_bind _ (fun _ => True));
      [apply onlyFetches_app | apply Post_emit; constructor |].
    intros _ _.
    apply (Post_bind _ (Forall (fun e => skuOf (variant e) = T)));
      [apply onlyFetches_app | |].
    + eapply Post_weaken;
        [apply noFetch_onlyFetches | |
         apply (Post_findVariantsBySku_loop fuel T [] 0%Z); constructor].
      auto.
    + intros found Hfound.
      destruct (length found =? 0)%nat; [apply Post_emit; constructor|].
      apply (Post_bind _ (fun _ => True));
        [apply onlyFetches_app | apply Post_emit; constructor |].
      intros _ _.
      apply (Post_bind _ (fun _ => True));
        [apply onlyFetches_app | | intros _ _; apply Post_emit; constructor].
      apply Post_forEach; [constructor | apply onlyFetches_app |].
      intros e He. eapply Post_weaken;
        [| | apply Post_V2_processVariantEntry]; [|auto].
      intros tr Htr. unfold onlyFetches. rewrite Htr.
      rewrite Forall_forall in Hfound. rewrite (Hfound e He).
      destruct (isEmpty T); repeat constructor.
  - intros _. cbv zeta.
    apply (Post_bind _ (fun _ => True));
      [apply neverFetches_app | |].
    + eapply Post_weaken;
        [apply noFetch_neverFetches | |
         apply (Post_listVariantsBatch_loop fuel _ [] 0%Z)].
      auto.
    + intros batch _.
      apply (Post_bind _ (fun _ => True));
        [apply neverFetches_app | apply Post_emit; intros [] |].
      intros _ _.
      apply (Post_bind _ (fun _ => True)); [apply neverFetches_app | |].
      * apply Post_forEach; [intros [] | apply neverFetches_app |].
        intros e He. apply filter_In in He as [_ He].
        apply negb_true_iff, String.eqb_neq in He.
        eapply Post_weaken;
          [| | apply Post_V2_processVariantEntry]; [|auto].
        intros tr Htr. unfold neverFetches. rewrite Htr.
        destruct (isEmpty (skuOf (variant e))); [intros []|].
        intros [Heq | []]. apply He. exact Heq.
      * intros _ _.
        apply (Post_bind _ (fun _ => True));
          [apply neverFetches_app | apply Post_emit; intros [] |].
        intros _ _.
        apply (Post_bind _ (fun _ => True));
          [apply neverFetches_app | apply Post_emit; intros [] |].
        intros _ _. apply Post_emit. intros [].
  - destruct (bind_trace_split (onlyFetches T) (neverFetches T) _ _ w h
                (fun H => H) HA HB) as (e1 & e2 & -> & H1 & H2).
    exists (fetchedSkus e1), (fetchedSkus e2).
    rewrite fetchedSkus_app. auto.
Qed.

(** ** Pagination *)

Lemma entriesOf_cons (p : Product) (ps : list Product) :
  entriesOf (p :: ps) = map (mkEntry p) (p_variants p) ++ entriesOf ps.
Proof. reflexivity. Qed.

Lemma entriesOf_app (a b : list Product) :
  entriesOf (a ++ b) = entriesOf a ++ entriesOf b.
Proof. apply flat_map_app. Qed.

Lemma pushVariants_unbounded (limit : jsint) (p : Product)
    (vs : list Variant) :
  limit_gt0 limit = false ->
  forall results,
    V1.pushVariants limit p vs results = results ++ map (mkEntry p) vs.
Proof.
  intros H. induction vs as [|v vs IH]; intros results;
    cbn [V1.pushVariants map].
  - rewrite app_nil_r. reflexivity.
  - rewrite H. cbn [andb]. rewrite IH, <- app_assoc. reflexivity.
Qed.

Lemma pushProducts_unbounded (limit : jsint) (ps : list Product) :
  limit_gt0 limit = false ->
  forall results,
    V1.pushProducts limit ps results = results ++ entriesOf ps.
Proof.
  intros H. induction ps as [|p ps IH]; intros results;
    cbn [V1.pushProducts].
  - cbn. rewrite app_nil_r. reflexivity.
  - rewrite H. cbn [andb].
    rewrite IH, pushVariants_unbounded, entriesOf_cons, <- app_assoc
      by exact H.
    reflexivity.
Qed.

Lemma pushVariants_bounded (n : Z) (p : Product) (vs : list Variant) :
  forall results,
    (Z.of_nat (length results) < n)%Z ->
    V1.pushVariants (IInt n) p vs results
    = firstn (Z.to_nat n) (results ++ map (mkEntry p) vs).
Proof.
  induction vs as [|v vs IH]; intros results Hlt;
    cbn [V1.pushVariants map].
  - rewrite app_nil_r. symmetry. apply firstn_all2. lia.
  - assert (Hpos : limit_gt0 (IInt n) = true) by (apply Z.ltb_lt; lia).
    rewrite Hpos. cbn [andb len_ge].
    replace (results ++ mkEntry p v :: map (mkEntry p) vs)
      with ((results ++ [mkEntry p v]) ++ map (mkEntry p) vs)
      by (rewrite <- app_assoc; reflexivity).
    assert (Hlen : length (results ++ [mkEntry p v]) = S (length results))
      by (rewrite length_app; cbn; lia).
    destruct (n <=? Z.of_nat (length (results ++ [mkEntry p v])))%Z eqn:E.
    + apply Z.leb_le in E. rewrite firstn_app.
      rewrite firstn_all2 by lia.
      replace (Z.to_nat n - length (results ++ [mkEntry p v]))%nat
        with 0%nat by lia.
      cbn [firstn]. rewrite app_nil_r. reflexivity.
    + apply Z.leb_gt in E. apply IH. lia.
Qed.

Lemma pushProducts_bounded (n : Z) (ps : list Product) :
  forall results,
    (Z.of_nat (length results) < n)%Z ->
    V1.pushProducts (IInt n) ps results
    = firstn (Z.to_nat n) (results ++ entriesOf ps).
Proof.
  induction ps as [|p ps IH]; intros results Hlt; cbn [V1.pushProducts].
  - cbn. rewrite app_nil_r. symmetry. apply firstn_all2. lia.
  - assert (Hpos : limit_gt0 (IInt n) = true) by (apply Z.ltb_lt; lia).
    rewrite Hpos, pushVariants_bounded by exact Hlt. cbn [andb len_ge].
    rewrite entriesOf_cons, app_assoc.
    set (X := results ++ map (mkEntry p) (p_variants p)).
    destruct (n <=? Z.of_nat (length (firstn (Z.to_nat n) X)))%Z eqn:E.
    + apply Z.leb_le in E. rewrite length_firstn in E.
      rewrite firstn_app.
      replace (Z.to_nat n - length X)%nat with 0%nat by lia.
      cbn [firstn]. rewrite app_nil_r. reflexivity.
    + apply Z.leb_gt in E. rewrite length_firstn in E.
      rewrite (firstn_all2 X) by lia. apply IH. lia.
Qed.

(** One turn of the [while] of [listVariantsBatch], in any world: the
    read, then the end of the loop on a failed read, an empty page or a
    page of fewer than 250 products, and another turn otherwise. *)
Lemma listVariantsBatch_loop_step (fuel : nat) (limit : jsint)
    (results : list Entry) (since_id : Z) (w : World) (h : Trace) :
  capReached limit results = false ->
  V1.listVariantsBatch_loop (S fuel) limit results since_id w h
  = let r := storefront_get w h since_id in
    match getError r with
    | Some err => (Throw err, [EvShopifyGet since_id r])
    | None =>
        if isNil (pageOf r) then (Ok results, [EvShopifyGet since_id r])
        else if (length (pageOf r) <? 250)%nat then
          (Ok (V1.pushProducts limit (pageOf r) results),
           [EvShopifyGet since_id r])
        else
          let '(r2, e2) :=
            V1.listVariantsBatch_loop fuel limit
              (V1.pushProducts limit (pageOf r) results)
              (lastId (pageOf r)) w (h ++ [EvShopifyGet since_id r]) in
          (r2, EvShopifyGet since_id r :: e2)
    end.
Proof.
  unfold capReached. rewrite negb_false_iff. intros Hc.
  cbn [V1.listVariantsBatch_loop]. rewrite Hc.
  unfold bind at 1, V1.shopifyGet at 1, bind at 1, httpShopifyGet at 1.
  cbv zeta.
  destruct (storefront_get w h since_id) as [|status hdr [[products|]|]];
    try reflexivity;
    cbn [getError pageOf]; destruct (statusOk status); try reflexivity.
  cbn [negb]. unfold ret at 1. cbn [app].
  destruct (isNil products); [reflexivity|].
  destruct (length products <? 250)%nat; [reflexivity|].
  destruct (V1.listVariantsBatch_loop _ _ _ _ _ _); reflexivity.
Qed.

Lemma listVariantsBatch_loop_capped (fuel : nat) (limit : jsint)
    (results : list Entry) (since_id : Z) (w : World) (h : Trace) :
  capReached limit results = true ->
  V1.listVariantsBatch_loop fuel limit results since_id w h
  = (Ok results, []).
Proof.
  unfold capReached. rewrite negb_true_iff. intros Hc.
  destruct fuel; cbn [V1.listVariantsBatch_loop]; rewrite Hc; reflexivity.
Qed.

(** *** A storefront that serves a catalogue *)

Lemma ascendingFrom_sorted (catalog : list Product) :
  forall k,
    ascendingFrom k catalog = true ->
    StronglySorted Z.lt (k :: map p_id catalog).
Proof.
  induction catalog as [|p rest IH]; intros k H; cbn [map].
  - repeat constructor.
  - cbn in H. apply andb_true_iff in H as [Hk Hrest].
    apply Z.ltb_lt in Hk. specialize (IH _ Hrest).
    inversion IH as [|i l Hs Hall]; subst.
    constructor; [exact IH|]. constructor; [exact Hk|].
    eapply Forall_impl; [|exact Hall]. cbn. intros a Ha. lia.
Qed.

Lemma ascendingIds_sorted (catalog : list Product) :
  ascendingIds catalog -> StronglySorted Z.lt (map p_id catalog).
Proof.
  intros H. apply ascendingFrom_sorted in H. inversion H. assumption.
Qed.

Lemma filter_all_above (k : Z) (l : list Product) :
  Forall (fun i => (k < i)%Z) (map p_id l) ->
  filter (fun p => (k <? p_id p)%Z) l = l.
Proof.
  intros H. apply forallb_filter_id, forallb_forall.
  intros p Hin. apply Z.ltb_lt.
  rewrite Forall_forall in H. apply H, in_map, Hin.
Qed.

Lemma filter_after (a b : list Product) (x : Product) :
  StronglySorted Z.lt (map p_id (a ++ x :: b)) ->
  filter (fun p => (p_id x <? p_id p)%Z) (a ++ x :: b) = b.
Proof.
  induction a as [|y a IH]; cbn [app map filter]; intros H;
    inversion H as [|i l Hs Hall]; subst.
  - rewrite Z.ltb_irrefl. apply filter_all_above, Hall.
  - assert (Hy : (p_id y < p_id x)%Z).
    { rewrite Forall_forall in Hall. apply Hall.
      rewrite map_app. apply in_or_app. right. left. reflexivity. }
    replace (p_id x <? p_id y)%Z with false
      by (symmetry; apply Z.ltb_ge; lia).
    apply IH, Hs.
Qed.

Lemma catalog_first_page (catalog : list Product) :
  ascendingIds catalog -> catalogPage catalog 0 = firstn 250 catalog.
Proof.
  intros H. unfold catalogPage. apply ascendingFrom_sorted in H.
  inversion H; subst.
  rewrite filter_all_above by assumption. reflexivity.
Qed.

Lemma catalogWorld_serves (catalog : list Product) ml put :
  servesCatalog (catalogWorld catalog ml put) catalog.
Proof. intros h since_id. reflexivity. Qed.

Lemma firstn_nil_inv {A} (n : nat) (l : list A) :
  firstn (S n) l = [] -> l = [].
Proof. destruct l; [reflexivity | discriminate]. Qed.

(** The unbounded scan of a catalogue: from a state where [rest] is what
    the cursor has not passed, the loop returns every entry of [rest]
    after one read for each full page and a last one. *)
Lemma listVariantsBatch_loop_catalog (w : World) (catalog : list Product)
    (limit : jsint) :
  servesCatalog w catalog ->
  StronglySorted Z.lt (map p_id catalog) ->
  limit_le0 limit = true -> limit_gt0 limit = false ->
  forall fuel done rest results since_id h,
    catalog = done ++ rest ->
    catalogPage catalog since_id = firstn 250 rest ->
    (length rest / 250 < fuel)%nat ->
    exists evs,
      V1.listVariantsBatch_loop fuel limit results since_id w h
      = (Ok (results ++ entriesOf rest), evs)
      /\ length (pageRequests evs) = S (length rest / 250).
Proof.
  intros Hserve Hsorted Hle Hgt.
  induction fuel as [|fuel IH];
    intros done rest results since_id h Hcat Hpage Hfuel; [lia|].
  rewrite listVariantsBatch_loop_step
    by (unfold capReached; rewrite Hle; reflexivity).
  cbv zeta. rewrite !(Hserve h since_id).
  change (getError (Response 200 None
                      (Some (Some (catalogPage catalog since_id)))))
    with (@None JsError).
  cbn [pageOf]. rewrite Hpage.
  destruct (isNil (firstn 250 rest)) eqn:Hnil.
  { assert (rest = []) as ->.
    { destruct rest; [reflexivity | discriminate Hnil]. }
    eexists. split; [cbn; rewrite app_nil_r; reflexivity | reflexivity]. }
  rewrite pushProducts_unbounded by exact Hgt.
  destruct (length (firstn 250 rest) <? 250)%nat eqn:Hshort.
  { apply Nat.ltb_lt in Hshort. rewrite length_firstn in Hshort.
    assert (Hlen : (length rest < 250)%nat) by lia.
    rewrite firstn_all2 by lia.
    eexists. split; [reflexivity|].
    rewrite Nat.div_small by exact Hlen. reflexivity. }
  apply Nat.ltb_ge in Hshort. rewrite length_firstn in Hshort.
  assert (Hlen : (250 <= length rest)%nat) by lia.
  assert (Hplen : length (firstn 250 rest) = 250%nat)
    by (rewrite length_firstn; lia).
  assert (Hrest : rest = firstn 250 rest ++ skipn 250 rest)
    by (symmetry; apply firstn_skipn).
  assert (Hdiv : (length rest / 250 = S (length (skipn 250 rest) / 250))%nat).
  { rewrite length_skipn.
    replace (length rest) with (1 * 250 + (length rest - 250))%nat at 1
      by lia.
    rewrite Nat.div_add_l by discriminate. reflexivity. }
  remember (firstn 250 rest) as page eqn:Epage.
  remember (skipn 250 rest) as tail eqn:Etail.
  clear Epage Etail.
  assert (Hpne : page <> []) by (intros E; rewrite E in Hnil; discriminate).
  pose proof (app_removelast_last (mkProduct 0 []) Hpne) as Hlast.
  remember (removelast page) as front eqn:Efront.
  assert (Hid : lastId page = p_id (last page (mkProduct 0 []))) by reflexivity.
  remember (last page (mkProduct 0 [])) as x eqn:Ex.
  clear Efront Ex.
  assert (Hcat2 : catalog = (done ++ front) ++ x :: tail).
  { rewrite Hcat, Hrest, Hlast, <- !app_assoc. reflexivity. }
  destruct (IH (done ++ page) tail
               (results ++ entriesOf page) (lastId page)
               (h ++ [EvShopifyGet since_id
                        (Response 200 None (Some (Some page)))]))
    as (evs & Hrun & Hreq).
  - rewrite <- app_assoc, <- Hrest. exact Hcat.
  - unfold catalogPage. f_equal. rewrite Hid, Hcat2.
    apply filter_after. rewrite <- Hcat2. exact Hsorted.
  - lia.
  - rewrite Hrun. eexists. split.
    + rewrite <- app_assoc, <- entriesOf_app, <- Hrest. reflexivity.
    + cbn [pageRequests length]. rewrite Hreq, Hdiv. reflexivity.
Qed.

(** An infinite limit never stops the scan: the loop runs as it does
    for the limit 0. *)
Lemma pushVariants_infinite (neg : bool) (p : Product) (vs : list Variant) :
  forall results,
    V1.pushVariants (IInf neg) p vs results
    = V1.pushVariants (IInt 0) p vs results.
Proof.
  induction vs as [|v vs IH]; intros results; cbn [V1.pushVariants];
    [reflexivity|].
  cbn [limit_gt0 len_ge]. rewrite IH. destruct neg; reflexivity.
Qed.

Lemma pushProducts_infinite (neg : bool) (ps : list Product) :
  forall results,
    V1.pushProducts (IInf neg) ps results
    = V1.pushProducts (IInt 0) ps results.
Proof.
  induction ps as [|p ps IH]; intros results; cbn [V1.pushProducts];
    [reflexivity|].
  rewrite pushVariants_infinite, IH. cbn [limit_gt0 len_ge].
  destruct neg; reflexivity.
Qed.

Lemma listVariantsBatch_loop_infinite (neg : bool) (fuel : nat) :
  forall results since_id w h,
    V1.listVariantsBatch_loop fuel (IInf neg) results since_id w h
    = V1.listVariantsBatch_loop fuel (IInt 0) results since_id w h.
Proof.
  induction fuel as [|fuel IH]; intros results since_id w h.
  - cbn [V1.listVariantsBatch_loop limit_le0 len_lt].
    destruct neg; reflexivity.
  - rewrite !listVariantsBatch_loop_step
      by (unfold capReached; cbn; destruct neg; reflexivity).
    cbv zeta. rewrite pushProducts_infinite, IH. reflexivity.
Qed.

Lemma capReached_initial (n : Z) :
  (0 < n)%Z -> capReached (IInt n) [] = false.
Proof.
  intros H. unfold capReached. cbn.
  replace (0 <? n)%Z with true by (symmetry; apply Z.ltb_lt; exact H).
  rewrite orb_true_r. reflexivity.
Qed.

Lemma capReached_full (n : Z) (results : list Entry) :
  (0 < n)%Z -> length results = Z.to_nat n ->
  capReached (IInt n) results = true.
Proof.
  intros H Hlen. unfold capReached. cbn. rewrite Hlen.
  replace (n <=? 0)%Z with false by (symmetry; apply Z.leb_gt; exact H).
  replace (Z.of_nat (Z.to_nat n) <? n)%Z with false
    by (symmetry; apply Z.ltb_ge; lia).
  reflexivity.
Qed.

(** A bounded scan whose cap is reached inside the first page reads that
    page only. *)
Lemma listVariantsBatch_first_page (w : World) (catalog : list Product)
    (n : Z) (fuel : nat) (h : Trace) :
  servesCatalog w catalog ->
  ascendingIds catalog ->
  (0 < n)%Z ->
  (Z.to_nat n <= length (entriesOf (firstn 250 catalog)))%nat ->
  (1 <= fuel)%nat ->
  V1.listVariantsBatch fuel (IInt n) w h
  = (Ok (firstn (Z.to_nat n) (entriesOf catalog)),
     [EvShopifyGet 0
        (Response 200 None (Some (Some (firstn 250 catalog))))]).
Proof.
  intros Hserve Hasc Hn Hfirst Hfuel. unfold V1.listVariantsBatch.
  destruct fuel as [|fuel]; [lia|].
  rewrite listVariantsBatch_loop_step by (apply capReached_initial, Hn).
  cbv zeta. rewrite !(Hserve h 0%Z).
  change (getError (Response 200 None (Some (Some (catalogPage catalog 0)))))
    with (@None JsError).
  cbn [pageOf]. rewrite catalog_first_page by exact Hasc.
  remember (firstn 250 catalog) as page eqn:Epage.
  assert (Hcat : catalog = page ++ skipn 250 catalog)
    by (rewrite Epage; symmetry; apply firstn_skipn).
  assert (Hres : firstn (Z.to_nat n) (entriesOf page)
                 = firstn (Z.to_nat n) (entriesOf catalog)).
  { rewrite Hcat at 1. rewrite entriesOf_app, firstn_app.
    replace (Z.to_nat n - length (entriesOf page))%nat with 0%nat by lia.
    cbn [firstn]. rewrite app_nil_r. reflexivity. }
  destruct (isNil page) eqn:Hnil.
  { destruct page; [cbn in Hfirst; lia | discriminate Hnil]. }
  rewrite pushProducts_bounded by (cbn; lia). cbn [app]. rewrite Hres.
  destruct (length page <? 250)%nat; [reflexivity|].
  rewrite listVariantsBatch_loop_capped; [reflexivity|].
  apply capReached_full; [exact Hn|].
  rewrite <- Hres, length_firstn. lia.
Qed.

Lemma entriesOf_length_ge (catalog : list Product) :
  withVariants catalog ->
  (length catalog <= length (entriesOf catalog))%nat.
Proof.
  unfold withVariants.
  induction catalog as [|p ps IH]; intros H; [apply Nat.le_refl|].
  cbn [forallb] in H. apply andb_true_iff in H as [Hp Hps].
  rewrite entriesOf_cons, length_app, length_map. cbn [length].
  specialize (IH Hps).
  destruct (p_variants p); [discriminate Hp | cbn; lia].
Qed.

Lemma withVariants_firstn (n : nat) (catalog : list Product) :
  withVariants catalog -> withVariants (firstn n catalog).
Proof.
  unfold withVariants. intros H.
  rewrite <- (firstn_skipn n catalog), forallb_app in H.
  apply andb_true_iff in H. apply H.
Qed.

(** The unbounded scan of a whole catalogue. *)
Lemma listVariantsBatch_whole_catalog (w : World) (catalog : list Product)
    (fuel : nat) (h : Trace) :
  servesCatalog w catalog ->
  ascendingIds catalog ->
  (length catalog / 250 < fuel)%nat ->
  exists evs,
    V1.listVariantsBatch fuel (IInt 0) w h
    = (Ok (entriesOf catalog), evs)
    /\ length (pageRequests evs) = S (length catalog / 250).
Proof.
  intros Hserve Hasc Hfuel. unfold V1.listVariantsBatch.
  apply (listVariantsBatch_loop_catalog w catalog (IInt 0) Hserve
           (ascendingIds_sorted _ Hasc) eq_refl eq_refl fuel [] catalog
           [] 0%Z h eq_refl (catalog_first_page _ Hasc) Hfuel).
Qed.

(** The bounded scan of a catalogue, from a state where the cap is not
    reached: the loop returns the first [n] of the entries it has and
    of those of [rest]. *)
Lemma listVariantsBatch_loop_bounded (w : World) (catalog : list Product)
    (n : Z) :
  servesCatalog w catalog ->
  StronglySorted Z.lt (map p_id catalog) ->
  forall fuel done rest results since_id h,
    catalog = done ++ rest ->
    catalogPage catalog since_id = firstn 250 rest ->
    (length rest / 250 < fuel)%nat ->
    (Z.of_nat (length results) < n)%Z ->
    exists evs,
      V1.listVariantsBatch_loop fuel (IInt n) results since_id w h
      = (Ok (firstn (Z.to_nat n) (results ++ entriesOf rest)), evs).
Proof.
  intros Hserve Hsorted.
  induction fuel as [|fuel IH];
    intros done rest results since_id h Hcat Hpage Hfuel Hlt; [lia|].
  assert (Hcap : capReached (IInt n) results = false).
  { unfold capReached. cbn.
    replace (Z.of_nat (length results) <? n)%Z with true
      by (symmetry; apply Z.ltb_lt; exact Hlt).
    rewrite orb_true_r. reflexivity. }
  rewrite listVariantsBatch_loop_step by exact Hcap.
  cbv zeta. rewrite !(Hserve h since_id).
  change (getError (Response 200 None
                      (Some (Some (catalogPage catalog since_id)))))
    with (@None JsError).
  cbn [pageOf]. rewrite Hpage.
  destruct (isNil (firstn 250 rest)) eqn:Hnil.
  { assert (rest = []) as ->.
    { destruct rest; [reflexivity | discriminate Hnil]. }
    eexists. cbn [entriesOf flat_map]. rewrite app_nil_r.
    rewrite (firstn_all2 results) by lia. reflexivity. }
  rewrite pushProducts_bounded by exact Hlt.
  destruct (length (firstn 250 rest) <? 250)%nat eqn:Hshort.
  { apply Nat.ltb_lt in Hshort. rewrite length_firstn in Hshort.
    rewrite (firstn_all2 rest) by lia. eexists. reflexivity. }
  apply Nat.ltb_ge in Hshort. rewrite length_firstn in Hshort.
  assert (Hrest : rest = firstn 250 rest ++ skipn 250 rest)
    by (symmetry; apply firstn_skipn).
  assert (Hdiv : (length rest / 250 = S (length (skipn 250 rest) / 250))%nat).
  { rewrite length_skipn.
    replace (length rest) with (1 * 250 + (length rest - 250))%nat at 1
      by lia.
    rewrite Nat.div_add_l by discriminate. reflexivity. }
  remember (firstn 250 rest) as page eqn:Epage.
  remember (skipn 250 rest) as tail eqn:Etail.
  clear Epage Etail.
  assert (Hpne : page <> []) by (intros E; rewrite E in Hnil; discriminate).
  pose proof (app_removelast_last (mkProduct 0 []) Hpne) as Hlast.
  remember (removelast page) as front eqn:Efront.
  assert (Hid : lastId page = p_id (last page (mkProduct 0 []))) by reflexivity.
  remember (last page (mkProduct 0 [])) as x eqn:Ex.
  clear Efront Ex.
  assert (Hcat2 : catalog = (done ++ front) ++ x :: tail).
  { rewrite Hcat, Hrest, Hlast, <- !app_assoc. reflexivity. }
  set (X := results ++ entriesOf page).
  assert (HX : results ++ entriesOf rest = X ++ entriesOf tail).
  { unfold X. rewrite Hrest, entriesOf_app, app_assoc. reflexivity. }
  rewrite HX.
  destruct (Z_lt_le_dec (Z.of_nat (length X)) n) as [Hless | Hfull].
  - rewrite (firstn_all2 X) by lia.
    destruct (IH (done ++ page) tail X (lastId page)
                 (h ++ [EvShopifyGet since_id
                          (Response 200 None (Some (Some page)))]))
      as (evs & Hrun).
    + rewrite <- app_assoc, <- Hrest. exact Hcat.
    + unfold catalogPage. f_equal. rewrite Hid, Hcat2.
      apply filter_after. rewrite <- Hcat2. exact Hsorted.
    + lia.
    + exact Hless.
    + rewrite Hrun. eexists. reflexivity.
  - rewrite listVariantsBatch_loop_capped.
    + eexists. rewrite firstn_app.
      replace (Z.to_nat n - length X)%nat with 0%nat by lia.
      cbn [firstn]. rewrite app_nil_r. reflexivity.
    + apply capReached_full; [lia|]. rewrite length_firstn. lia.
Qed.

(** On a storefront that serves a catalogue, [listVariantsBatch] returns
    the scan of the catalogue, for every limit. *)
Lemma listVariantsBatch_scan (w : World) (catalog : list Product)
    (limit : jsint) (fuel : nat) (h : Trace) :
  servesCatalog w catalog ->
  ascendingIds catalog ->
  (length catalog / 250 < fuel)%nat ->
  exists evs,
    V1.listVariantsBatch fuel limit w h
    = (Ok (scanResult limit (entriesOf catalog)), evs).
Proof.
  intros Hserve Hasc Hfuel. unfold V1.listVariantsBatch.
  destruct limit as [|n| |neg]; cbn [scanResult].
  - exists []. apply listVariantsBatch_loop_capped. reflexivity.
  - destruct (0 <? n)%Z eqn:Hn.
    + apply Z.ltb_lt in Hn.
      apply (listVariantsBatch_loop_bounded w catalog n Hserve
               (ascendingIds_sorted _ Hasc) fuel [] catalog [] 0%Z h
               eq_refl (catalog_first_page _ Hasc) Hfuel).
      cbn. exact Hn.
    + apply Z.ltb_ge in Hn.
      destruct (listVariantsBatch_loop_catalog w catalog (IInt n) Hserve
                  (ascendingIds_sorted _ Hasc)) with
          (fuel := fuel) (done := @nil Product) (rest := catalog)
          (results := @nil Entry) (since_id := 0%Z) (h := h)
        as (evs & Hrun & _).
      * apply Z.leb_le. exact Hn.
      * apply Z.ltb_ge. exact Hn.
      * reflexivity.
      * apply catalog_first_page, Hasc.
      * exact Hfuel.
      * exists evs. exact Hrun.
  - destruct (listVariantsBatch_loop_catalog w catalog INegZero Hserve
                (ascendingIds_sorted _ Hasc) eq_refl eq_refl fuel [] catalog
                [] 0%Z h eq_refl (catalog_first_page _ Hasc) Hfuel)
      as (evs & Hrun & _).
    exists evs. exact Hrun.
  - rewrite listVariantsBatch_loop_infinite.
    destruct (listVariantsBatch_loop_catalog w catalog (IInt 0) Hserve
                (ascendingIds_sorted _ Hasc) eq_refl eq_refl fuel [] catalog
                [] 0%Z h eq_refl (catalog_first_page _ Hasc) Hfuel)
      as (evs & Hrun & _).
    exists evs. exact Hrun.
Qed.

(** C3 as stated fails: the pages hold products, not variants.  A
    catalogue of 130 products with two variants each has 260 variants
    and fits in one page: the scan with limit 0 returns the 260 entries
    after one page request, not two. *)
Lemma variants_are_not_pages :
  ~ (forall (w : World) (catalog : list Product) (h : Trace) (fuel : nat),
        servesCatalog w catalog ->
        ascendingIds catalog ->
        length (entriesOf catalog) = 260%nat ->
        (2 <= fuel)%nat ->
        exists evs,
          V1.listVariantsBatch fuel (IInt 0) w h
          = (Ok (entriesOf catalog), evs)
          /\ length (pageRequests evs) = 2%nat).
Proof.
  intros H.
  destruct (H (catalogWorld (pairCatalog 130 0 "S" "1.00") (mlPrices []) okPut)
              (pairCatalog 130 0 "S" "1.00") [] 2%nat
              (catalogWorld_serves _ _ _))
    as (evs & Hrun & Hreq);
    [vm_compute; reflexivity | vm_compute; reflexivity | apply Nat.le_refl |].
  assert (Hone : length (pageRequests
                           (snd (V1.listVariantsBatch 2 (IInt 0)
                                   (catalogWorld (pairCatalog 130 0 "S" "1.00")
                                                 (mlPrices []) okPut) [])))
                 = 1%nat) by (vm_compute; reflexivity).
  rewrite Hrun in Hone. cbn [snd] in Hone. rewrite Hreq in Hone.
  discriminate Hone.
Qed.

(** C3 (amended): on a storefront that serves a catalogue in pages of at
    most 250 products, for a catalogue of 260 variants whose first page
    is full (at least 250 products, each with a variant; 260 products of
    one variant each is the case in point), [listVariantsBatch] with
    limit 0 returns the 260 entries after exactly two page requests, and
    with limit 100 the first 100 entries after one page request,
    whatever the marketplace and the storefront writes do.  In any
    world, the loop ends without a request when the cap is reached, ends
    after a page of fewer than 250 products, and goes round again after
    a page of 250; so that on any catalogue it returns the scan of the
    catalogue: every entry, or the first [limit] of them. *)
Theorem listVariantsBatch_pagination :
  (forall w catalog h,
      servesCatalog w catalog ->
      ascendingIds catalog ->
      withVariants catalog ->
      length (entriesOf catalog) = 260%nat ->
      (250 <= length catalog)%nat ->
      (forall fuel, (2 <= fuel)%nat ->
         exists evs,
           V1.listVariantsBatch fuel (IInt 0) w h
           = (Ok (entriesOf catalog), evs)
           /\ length (pageRequests evs) = 2%nat)
      /\
      (forall fuel, (1 <= fuel)%nat ->
         exists res evs,
           V1.listVariantsBatch fuel (IInt 100) w h = (Ok res, evs)
           /\ res = firstn 100 (entriesOf catalog)
           /\ length res = 100%nat
           /\ length (pageRequests evs) = 1%nat))
  /\
  (forall fuel limit results since_id w h,
      (capReached limit results = true ->
       V1.listVariantsBatch_loop fuel limit results since_id w h
       = (Ok results, []))
      /\
      (capReached limit results = false ->
       getError (storefront_get w h since_id) = None ->
       (length (pageOf (storefront_get w h since_id)) < 250)%nat ->
       exists res,
         V1.listVariantsBatch_loop (S fuel) limit results since_id w h
         = (Ok res, [EvShopifyGet since_id (storefront_get w h since_id)]))
      /\
      (capReached limit results = false ->
       getError (storefront_get w h since_id) = None ->
       (250 <= length (pageOf (storefront_get w h since_id)))%nat ->
       V1.listVariantsBatch_loop (S fuel) limit results since_id w h
       = (let r := storefront_get w h since_id in
          let '(r2, e2) :=
            V1.listVariantsBatch_loop fuel limit
              (V1.pushProducts limit (pageOf r) results)
              (lastId (pageOf r)) w (h ++ [EvShopifyGet since_id r]) in
          (r2, EvShopifyGet since_id r :: e2))))
  /\
  (forall w catalog limit fuel h,
      servesCatalog w catalog ->
      ascendingIds catalog ->
      (length catalog / 250 < fuel)%nat ->
      exists evs,
        V1.listVariantsBatch fuel limit w h
        = (Ok (scanResult limit (entriesOf catalog)), evs)).
Proof.
  split; [|split; [|apply listVariantsBatch_scan]].
  - intros w catalog h Hserve Hasc Hvar Htotal Hfull.
    pose proof (entriesOf_length_ge catalog Hvar) as Hle.
    split.
    + intros fuel Hfuel.
      assert (Hdiv : (length catalog / 250 = 1)%nat).
      { replace (length catalog)
          with (1 * 250 + (length catalog - 250))%nat by lia.
        rewrite Nat.div_add_l by discriminate.
        rewrite Nat.div_small by lia. reflexivity. }
      destruct (listVariantsBatch_whole_catalog w catalog fuel h Hserve Hasc)
        as (evs & Hrun & Hreq); [lia|].
      exists evs. split; [exact Hrun|]. rewrite Hreq, Hdiv. reflexivity.
    + intros fuel Hfuel.
      assert (Hfirst : (Z.to_nat 100
                        <= length (entriesOf (firstn 250 catalog)))%nat).
      { etransitivity;
          [|apply entriesOf_length_ge, withVariants_firstn, Hvar].
        rewrite length_firstn. lia. }
      eexists. eexists. split.
      * apply (listVariantsBatch_first_page w catalog 100 fuel h Hserve Hasc);
          [lia | exact Hfirst | exact Hfuel].
      * split; [reflexivity|]. split; [|reflexivity].
        rewrite length_firstn. change (Z.to_nat 100) with 100%nat. lia.
  - intros fuel limit results since_id w h. split; [|split].
    + apply listVariantsBatch_loop_capped.
    + intros Hcap Herr Hshort.
      rewrite listVariantsBatch_loop_step by exact Hcap.
      cbv zeta. rewrite Herr. apply Nat.ltb_lt in Hshort. rewrite Hshort.
      destruct (isNil _); eexists; reflexivity.
    + intros Hcap Herr Hlong.
      rewrite listVariantsBatch_loop_step by exact Hcap.
      cbv zeta. rewrite Herr. apply Nat.ltb_ge in Hlong. rewrite Hlong.
      destruct (pageOf (storefront_get w h since_id)); [cbn in Hlong|];
        [discriminate | reflexivity].
Qed.

(** The catalogue of the pagination scenario: 260 products of one
    variant each, scanned whole in two page requests and up to 100
    entries in one. *)
Lemma listVariantsBatch_pagination_witness :
  (exists evs,
      V1.listVariantsBatch 2 (IInt 0)
        (catalogWorld (sampleCatalog 260 0 "S" "1.00") (mlPrices []) okPut) []
      = (Ok (entriesOf (sampleCatalog 260 0 "S" "1.00")), evs)
      /\ length (pageRequests evs) = 2%nat)
  /\
  (exists res evs,
      V1.listVariantsBatch 1 (IInt 100)
        (catalogWorld (sampleCatalog 260 0 "S" "1.00") (mlPrices []) okPut) []
      = (Ok res, evs)
      /\ res = firstn 100 (entriesOf (sampleCatalog 260 0 "S" "1.00"))
      /\ length res = 100%nat
      /\ length (pageRequests evs) = 1%nat).
Proof.
  pose proof (proj1 listVariantsBatch_pagination
                (catalogWorld (sampleCatalog 260 0 "S" "1.00")
                              (mlPrices []) okPut)
                (sampleCatalog 260 0 "S" "1.00") []
                ltac:(intros h since_id; reflexivity)
                ltac:(vm_compute; reflexivity)
                ltac:(vm_compute; reflexivity)
                ltac:(vm_compute; reflexivity)
                ltac:(apply Nat.leb_le; vm_compute; reflexivity))
    as [Hall Hcap].
  split.
  - apply (Hall 2%nat). apply Nat.le_refl.
  - apply (Hcap 1%nat). apply Nat.le_refl.
Defined.

(** ** The working set *)

Lemma secretSkus_missing (env : Env) :
  missing (env_SKU_LIST env) = true -> secretSkus env = [].
Proof.
  unfold secretSkus, missing, orDefault, truthyStr.
  destruct (env_SKU_LIST env) as [s|]; [|reflexivity].
  intros H. rewrite H. reflexivity.
Qed.

Lemma length_pos_iff {A} (l : list A) :
  (0 <? length l)%nat = negb (isNil l).
Proof. destruct l; reflexivity. Qed.

Lemma bind_run {A B} (m : M A) (f : A -> M B) (w : World) (h : Trace)
    (a : A) (evs : Trace) :
  m w h = (Ok a, evs) ->
  bind m f w h = (let '(r2, e2) := f a w (h ++ evs) in (r2, evs ++ e2)).
Proof. unfold bind. intros ->. reflexivity. Qed.

(** [detectSkuList] only logs, and returns [sourceSkus], when
    [sku_list.txt] is absent or can be read. *)
Lemma detectSkuList_value (env : Env) (w : World) (h : Trace) :
  skuFileReadable env ->
  exists evs,
    V1.detectSkuList env w h = (Ok (sourceSkus env), evs) /\ noFetch evs.
Proof.
  intros Hfile.
  assert (Hread : V1.readSkuListFile (sku_list_txt env) w h
                  = (Ok (fileSkus env), [])).
  { unfold fileSkus, V1.readSkuListFile. unfold skuFileReadable in Hfile.
    destruct (sku_list_txt env); [reflexivity | reflexivity | contradiction]. }
  unfold V1.detectSkuList. rewrite (bind_run _ _ w h _ [] Hread).
  unfold sourceSkus. fold (secretSkus env). cbv zeta. rewrite app_nil_r.
  destruct (0 <? length (fileSkus env))%nat.
  - eexists. split; reflexivity.
  - destruct (negb (missing (env_SKU_LIST env)));
      [|eexists; split; reflexivity].
    destruct (0 <? length (secretSkus env))%nat; eexists; split; reflexivity.
Qed.

(** A [sku_list.txt] that cannot be read ends the script at line 172. *)
Lemma detectSkuList_unreadable (env : Env) (w : World) (h : Trace) :
  sku_list_txt env = Unreadable ->
  V1.detectSkuList env w h = (Throw (plainError MsgReadFile), []).
Proof.
  intros E. unfold V1.detectSkuList, V1.readSkuListFile. rewrite E.
  reflexivity.
Qed.

Lemma V1_mainBody_unreadable (env : Env) (fuel : nat) (w : World)
    (h : Trace) :
  sku_list_txt env = Unreadable ->
  V1.mainBody env fuel w h = (Throw (plainError MsgReadFile), []).
Proof.
  intros E. unfold V1.mainBody, bind.
  rewrite (detectSkuList_unreadable env w h E). reflexivity.
Qed.

Lemma skuFileReadable_dec (env : Env) :
  skuFileReadable env \/ sku_list_txt env = Unreadable.
Proof.
  unfold skuFileReadable.
  destruct (sku_list_txt env); [left | left | right];
    try discriminate; reflexivity.
Qed.

(** The script of version 1 is: find the source of the SKU list, run the
    working set, wait for the queues. *)
Lemma mainBody_runs_workingSet (env : Env) (fuel : nat) (w : World)
    (h : Trace) :
  V1.mainBody env fuel w h
  = (_ <- V1.detectSkuList env ;;
     runWorkingSet fuel (workingSet env) ;;
     onIdle MlQueue ;; onIdle ShopifyQueue ;; log LogSyncFinished) w h.
Proof.
  destruct (skuFileReadable_dec env) as [Hfile | Hfile].
  - destruct (detectSkuList_value env w h Hfile) as (evs & Hd & _).
    unfold V1.mainBody.
    rewrite !(bind_run (V1.detectSkuList env) _ w h _ evs Hd).
    unfold workingSet, runWorkingSet.
    destruct (FULL_SYNC env); [reflexivity|].
    destruct (0 <? length (V1.testSkuFirst (TEST_SKU env)
                                             (sourceSkus env)))%nat;
      reflexivity.
  - rewrite (V1_mainBody_unreadable env fuel w h Hfile).
    unfold bind. rewrite (detectSkuList_unreadable env w h Hfile).
    reflexivity.
Qed.

Lemma testSkuFirst_shape (testSku : string) (skuList : list string) :
  truthyStr testSku = true ->
  exists rest,
    V1.testSkuFirst testSku skuList = testSku :: rest
    /\ ~ In testSku rest.
Proof.
  intros H. unfold V1.testSkuFirst. rewrite H.
  eexists. split; [reflexivity|].
  rewrite filter_In. intros [_ Hneq].
  rewrite String.eqb_refl in Hneq. discriminate Hneq.
Qed.

Lemma testSkuFirst_nonempty (testSku : string) (skuList : list string) :
  skuList <> [] -> isNil (V1.testSkuFirst testSku skuList) = false.
Proof.
  unfold V1.testSkuFirst. destruct (truthyStr testSku); [reflexivity|].
  destruct skuList; [contradiction | reflexivity].
Qed.

(** C4 as stated fails: a [TEST_SKU] is a source of the working set
    too.  With [TEST_SKU=T] and neither the flag, nor [sku_list.txt],
    nor [SKU_LIST], the run is not the bounded default scan: it looks
    up the one SKU "T". *)
Lemma test_sku_alone_is_a_list :
  ~ (forall env : Env,
        FULL_SYNC env = false ->
        fileSkus env = [] ->
        secretSkus env = [] ->
        workingSet env = BoundedScan (BATCH_SIZE env)).
Proof.
  intros H.
  specialize (H envTestSku eq_refl eq_refl eq_refl).
  vm_compute in H. discriminate H.
Qed.

(** The run itself: it takes the branch of the SKU list, reads the
    catalogue for "T" and looks "T" up, and never logs a batch. *)
Example test_sku_alone_run :
  V1.main envTestSku 5 worldAT
  = (Exited 0,
     [EvLog (LogProcessingList 1); EvLog (LogProcessingSku "T");
      EvShopifyGet 0 (storefront_get worldAT [] 0);
      EvQueueAdd MlQueue; EvMlGet "T" (Response 404 None None);
      EvQueueDone MlQueue; EvLog (LogNotFound "T");
      EvQueueIdle MlQueue; EvQueueIdle ShopifyQueue; EvLog LogSyncFinished]).
Proof. vm_compute. reflexivity. Qed.

(** C4 (amended): when [sku_list.txt] is absent or can be read, the
    working set of version 1 is chosen in the order full-sync flag, then
    the list of [sku_list.txt], then the list of [SKU_LIST], then
    [TEST_SKU] alone as a list of one SKU, then the scan bounded by
    [BATCH_SIZE]; the SKU list is the list of the file or the list of
    [SKU_LIST], never a mix of the two, with [TEST_SKU] put in front of
    it when it is set; the script reads the source of the list and runs
    the working set so chosen; and with [FULL_SYNC] true that is the
    scan with limit 0, which returns every entry of the catalogue
    whatever the batch size, the SKU lists and [TEST_SKU] are.  A
    [sku_list.txt] that cannot be read ends the run with status 1 before
    anything is chosen, also with [FULL_SYNC] true. *)
Theorem working_set_precedence (env : Env) :
  (FULL_SYNC env = true -> workingSet env = FullScan (IInt 0))
  /\
  (FULL_SYNC env = false ->
   fileSkus env <> [] ->
   sourceSkus env = fileSkus env
   /\ workingSet env
      = ExplicitSkus (V1.testSkuFirst (TEST_SKU env) (fileSkus env)))
  /\
  (FULL_SYNC env = false ->
   fileSkus env = [] ->
   secretSkus env <> [] ->
   sourceSkus env = secretSkus env
   /\ workingSet env
      = ExplicitSkus (V1.testSkuFirst (TEST_SKU env) (secretSkus env)))
  /\
  (FULL_SYNC env = false ->
   fileSkus env = [] ->
   secretSkus env = [] ->
   TEST_SKU env <> "" ->
   workingSet env = ExplicitSkus [TEST_SKU env])
  /\
  (FULL_SYNC env = false ->
   fileSkus env = [] ->
   secretSkus env = [] ->
   TEST_SKU env = "" ->
   workingSet env = BoundedScan (BATCH_SIZE env))
  /\
  (skuFileReadable env ->
   forall fuel w h,
     (exists evs,
         V1.detectSkuList env w h = (Ok (sourceSkus env), evs)
         /\ noFetch evs)
     /\ V1.mainBody env fuel w h
        = (_ <- V1.detectSkuList env ;;
           runWorkingSet fuel (workingSet env) ;;
           onIdle MlQueue ;; onIdle ShopifyQueue ;; log LogSyncFinished) w h)
  /\
  (sourceSkus env = fileSkus env \/ sourceSkus env = secretSkus env)
  /\
  (forall w catalog fuel h,
      servesCatalog w catalog ->
      ascendingIds catalog ->
      (length catalog / 250 < fuel)%nat ->
      exists evs,
        V1.listVariantsBatch fuel (IInt 0) w h
        = (Ok (entriesOf catalog), evs))
  /\
  (sku_list_txt env = Unreadable ->
   missing (SHOP env) || missing (SHOPIFY_TOKEN env) = false ->
   forall fuel w,
     V1.main env fuel w
     = (Exited 1, [EvLog (LogFatal (plainError MsgReadFile))])).
Proof.
  split; [|split; [|split; [|split; [|split; [|split; [|split; [|split]]]]]]].
  - intros H. unfold workingSet. rewrite H. reflexivity.
  - intros Hfull Hfile.
    assert (Hsrc : sourceSkus env = fileSkus env).
    { unfold sourceSkus. rewrite length_pos_iff.
      destruct (fileSkus env); [contradiction | reflexivity]. }
    split; [exact Hsrc|].
    unfold workingSet. rewrite Hfull, Hsrc, length_pos_iff.
    rewrite testSkuFirst_nonempty by exact Hfile. reflexivity.
  - intros Hfull Hfile Hsecret.
    assert (Hsrc : sourceSkus env = secretSkus env).
    { unfold sourceSkus. rewrite Hfile. cbn.
      destruct (missing (env_SKU_LIST env)) eqn:Hm; [|reflexivity].
      apply secretSkus_missing in Hm. contradiction. }
    split; [exact Hsrc|].
    unfold workingSet. rewrite Hfull, Hsrc, length_pos_iff.
    rewrite testSkuFirst_nonempty by exact Hsecret. reflexivity.
  - intros Hfull Hfile Hsecret Htest.
    assert (Hsrc : sourceSkus env = []).
    { unfold sourceSkus. rewrite Hfile, Hsecret. cbn.
      destruct (negb _); reflexivity. }
    unfold workingSet, V1.testSkuFirst. rewrite Hfull, Hsrc.
    destruct (TEST_SKU env); [contradiction | reflexivity].
  - intros Hfull Hfile Hsecret Htest.
    assert (Hsrc : sourceSkus env = []).
    { unfold sourceSkus. rewrite Hfile, Hsecret. cbn.
      destruct (negb _); reflexivity. }
    unfold workingSet. rewrite Hfull, Hsrc, Htest. reflexivity.
  - intros Hfile fuel w h.
    split; [apply detectSkuList_value, Hfile|].
    apply mainBody_runs_workingSet.
  - unfold sourceSkus.
    destruct (0 <? length (fileSkus env))%nat; [left; reflexivity|].
    destruct (missing (env_SKU_LIST env)) eqn:Hm; cbn [negb];
      [|right; reflexivity].
    right. symmetry. apply secretSkus_missing, Hm.
  - intros w catalog fuel h Hserve Hasc Hfuel.
    destruct (listVariantsBatch_whole_catalog w catalog fuel h Hserve Hasc
                Hfuel) as (evs & Hrun & _).
    exists evs. exact Hrun.
  - intros Hfile Hcreds fuel w. unfold V1.main, runScript.
    rewrite Hcreds, (V1_mainBody_unreadable env fuel w [] Hfile).
    reflexivity.
Qed.

(** One environment for each source: the flag over [TEST_SKU]; the
    file over [SKU_LIST]; [SKU_LIST]; [TEST_SKU] alone; nothing, which
    gives the default batch of 200; and a [sku_list.txt] that cannot be
    read, under [FULL_SYNC=true]. *)
Lemma working_set_precedence_witness :
  workingSet envFullSyncT = FullScan (IInt 0)
  /\ workingSet envFile = ExplicitSkus ["A"; "B"]
  /\ workingSet envAB = ExplicitSkus ["A"; "B"]
  /\ workingSet envTestSku = ExplicitSkus ["T"]
  /\ workingSet baseEnv = BoundedScan (IInt 200)
  /\ V1.mainBody envAB 5 flakyWorld []
     = (_ <- V1.detectSkuList envAB ;;
        runWorkingSet 5 (workingSet envAB) ;;
        onIdle MlQueue ;; onIdle ShopifyQueue ;; log LogSyncFinished)
         flakyWorld []
  /\ V1.main envUnreadable 5 flakyWorld
     = (Exited 1, [EvLog (LogFatal (plainError MsgReadFile))]).
Proof.
  split; [|split; [|split; [|split; [|split; [|split]]]]].
  - apply (proj1 (working_set_precedence envFullSyncT)). reflexivity.
  - exact (proj2 (proj1 (proj2 (working_set_precedence envFile))
                        eq_refl ltac:(discriminate))).
  - exact (proj2 (proj1 (proj2 (proj2 (working_set_precedence envAB)))
                        eq_refl eq_refl ltac:(discriminate))).
  - exact (proj1 (proj2 (proj2 (proj2 (working_set_precedence envTestSku))))
                 eq_refl eq_refl eq_refl ltac:(discriminate)).
  - exact (proj1 (proj2 (proj2 (proj2 (proj2
                   (working_set_precedence baseEnv)))))
                 eq_refl eq_refl eq_refl eq_refl).
  - exact (proj2 (proj1 (proj2 (proj2 (proj2 (proj2 (proj2
                   (working_set_precedence envAB))))))
                        ltac:(discriminate) 5%nat flakyWorld [])).
  - exact (proj2 (proj2 (proj2 (proj2 (proj2 (proj2 (proj2 (proj2
                   (working_set_precedence envUnreadable))))))))
                 eq_refl eq_refl 5%nat flakyWorld).
Defined.

(** C2 as stated fails when [FULL_SYNC] is true: the list with
    [TEST_SKU] in front is built and then not used, the working set is
    the scan of the whole catalogue.  With [TEST_SKU=T] on a catalogue
    that lists "A" before "T", "T" comes second. *)
Lemma full_sync_ignores_test_sku :
  ~ (forall (env : Env) (catalog : list Product),
        truthyStr (TEST_SKU env) = true ->
        priorityFirst (TEST_SKU env)
                      (resolvedSkus (workingSet env) catalog)).
Proof.
  intros H. destruct (H envFullSyncT catalogAT eq_refl) as [H0 _].
  vm_compute in H0. discriminate H0.
Qed.

(** The run itself: the marketplace is asked for "A" before "T". *)
Example catalogue_order_run_with_test_sku :
  TEST_SKU envFullSyncT = "T"
  /\ resolvedSkus (workingSet envFullSyncT) catalogAT = ["A"; "T"]
  /\ fst (V1.main envFullSyncT 5 worldAT) = Exited 0
  /\ fetchedSkus (snd (V1.main envFullSyncT 5 worldAT)) = ["A"; "T"].
Proof. repeat split; vm_compute; reflexivity. Qed.

Lemma V2_main_test_sku_first (env : Env) (fuel : nat) (w : World) :
  truthyStr (TEST_SKU env) = true ->
  exists first second,
    fetchedSkus (snd (V2.main env fuel w)) = first ++ second
    /\ Forall (fun s => s = TEST_SKU env) first
    /\ ~ In (TEST_SKU env) second.
Proof.
  intros Htest. unfold V2.main, runScript.
  destruct (missing (SHOP env) || missing (SHOPIFY_TOKEN env)).
  { exists [], []. repeat split; [constructor | intros []]. }
  destruct (V2_mainBody_test_sku_first env fuel w [] Htest)
    as (first & second & Hf & H1 & H2).
  destruct (V2.mainBody env fuel w []) as [r evs]. cbn [snd] in Hf.
  exists first, second. split; [|split; assumption].
  destruct r as [a | e | ]; cbn [snd]; try exact Hf.
  rewrite fetchedSkus_app, Hf. cbn. apply app_nil_r.
Qed.

(** C2 (amended): when [TEST_SKU] is set, the SKU list after lines
    182-185 has it at position 0 and nowhere else, whether or not it was
    in the list; when [FULL_SYNC] is not true, that list is the working
    set of version 1, which so contains [TEST_SKU] exactly once and at
    position 0.  In version 2, which has no SKU list, the marketplace
    lookups for [TEST_SKU] all come before the lookups for any other
    SKU. *)
Theorem test_sku_first_in_working_set (env : Env) :
  truthyStr (TEST_SKU env) = true ->
  (forall skuList,
      nth_error (V1.testSkuFirst (TEST_SKU env) skuList) 0
      = Some (TEST_SKU env)
      /\ count_occ string_dec (V1.testSkuFirst (TEST_SKU env) skuList)
                   (TEST_SKU env) = 1%nat)
  /\
  (FULL_SYNC env = false ->
   workingSet env
   = ExplicitSkus (V1.testSkuFirst (TEST_SKU env) (sourceSkus env))
   /\ forall catalog,
       priorityFirst (TEST_SKU env) (resolvedSkus (workingSet env) catalog))
  /\
  (forall fuel w,
      exists first second,
        fetchedSkus (snd (V2.main env fuel w)) = first ++ second
        /\ Forall (fun s => s = TEST_SKU env) first
        /\ ~ In (TEST_SKU env) second).
Proof.
  intros Htest.
  assert (Hlist : forall skuList,
             nth_error (V1.testSkuFirst (TEST_SKU env) skuList) 0
             = Some (TEST_SKU env)
             /\ count_occ string_dec (V1.testSkuFirst (TEST_SKU env) skuList)
                          (TEST_SKU env) = 1%nat).
  { intros skuList.
    destruct (testSkuFirst_shape (TEST_SKU env) skuList Htest)
      as (rest & -> & Hnot).
    split; [reflexivity|].
    rewrite count_occ_cons_eq by reflexivity.
    f_equal. apply count_occ_not_In, Hnot. }
  split; [exact Hlist|]. split.
  - intros Hfull.
    assert (Hws : workingSet env
                  = ExplicitSkus (V1.testSkuFirst (TEST_SKU env)
                                                  (sourceSkus env))).
    { unfold workingSet. rewrite Hfull.
      destruct (testSkuFirst_shape (TEST_SKU env) (sourceSkus env) Htest)
        as (rest & -> & _). reflexivity. }
    split; [exact Hws|]. intros catalog. rewrite Hws. apply Hlist.
  - intros fuel w. apply V2_main_test_sku_first, Htest.
Qed.

(** With [TEST_SKU=T] and [SKU_LIST=A,T,B] the working set is T, A, B. *)
Lemma test_sku_first_witness :
  workingSet envListT = ExplicitSkus ["T"; "A"; "B"]
  /\ priorityFirst "T" (resolvedSkus (workingSet envListT) catalogAT).
Proof.
  destruct (proj1 (proj2 (test_sku_first_in_working_set envListT eq_refl))
              eq_refl) as [Hws Hfirst].
  split; [exact Hws | exact (Hfirst catalogAT)].
Defined.

(** ** Failures of one entry *)

Lemma forEach_entries_total (body : Entry -> M unit) :
  (forall e w h, exists evs,
      body e w h = (Ok tt, evs)
      /\ fetchedSkus evs
         = (if isEmpty (skuOf (variant e)) then [] else [skuOf (variant e)])) ->
  forall entries w h, exists evs,
    forEach entries body w h = (Ok tt, evs)
    /\ fetchedSkus evs
       = filter truthyStr (map (fun e => skuOf (variant e)) entries).
Proof.
  intros Hbody entries. induction entries as [|e rest IH]; intros w h.
  - exists []. split; reflexivity.
  - destruct (Hbody e w h) as (ev1 & H1 & F1).
    destruct (IH w (h ++ ev1)) as (ev2 & H2 & F2).
    exists (ev1 ++ ev2). split.
    + rewrite (forEach_cons_ok e rest body w h ev1 H1), H2. reflexivity.
    + rewrite fetchedSkus_app, F1, F2. cbn [map filter].
      unfold truthyStr at 2.
      destruct (isEmpty (skuOf (variant e))); reflexivity.
Qed.

(** Version 1 with a [sku_list.txt] that cannot be read. *)
Lemma V1_main_unreadable (env : Env) (fuel : nat) (w : World) :
  missing (SHOP env) || missing (SHOPIFY_TOKEN env) = false ->
  sku_list_txt env = Unreadable ->
  V1.main env fuel w
  = (Exited 1, [EvLog (LogFatal (plainError MsgReadFile))]).
Proof.
  intros Hcreds Hfile. unfold V1.main, runScript.
  rewrite Hcreds, (V1_mainBody_unreadable env fuel w [] Hfile).
  reflexivity.
Qed.

Lemma main_exit_1 (env : Env) (body : M unit) (w : World) (tr : Trace) :
  Inv body ->
  runScript env body w = (Exited 1, tr) ->
  missing (SHOP env) || missing (SHOPIFY_TOKEN env) = true
  \/ clean tr = false.
Proof.
  intros HInv. unfold runScript.
  destruct (missing (SHOP env) || missing (SHOPIFY_TOKEN env));
    [left; reflexivity|].
  specialize (HInv w []). destruct (body w []) as [r evs].
  rename HInv into Hc. unfold good in Hc. cbn [fst snd] in Hc.
  destruct r as [a | e | ]; intros H; inversion H; subst.
  destruct Hc as (evs0 & sid & r & -> & Herr & _).
  right. rewrite !clean_app. cbn. rewrite Herr.
  rewrite andb_false_r. reflexivity.
Qed.

(** A full-sync run over a catalogue, whatever the marketplace and the
    storefront writes answer: it exits with status 0 after one lookup
    for every entry that has a SKU. *)
Lemma V1_full_sync_run (env : Env) (w : World) (catalog : list Product)
    (fuel : nat) :
  missing (SHOP env) || missing (SHOPIFY_TOKEN env) = false ->
  skuFileReadable env ->
  FULL_SYNC env = true ->
  servesCatalog w catalog ->
  ascendingIds catalog ->
  (length catalog / 250 < fuel)%nat ->
  exists tr,
    V1.main env fuel w = (Exited 0, tr)
    /\ fetchedSkus tr
       = filter truthyStr
                (map (fun e => skuOf (variant e)) (entriesOf catalog)).
Proof.
  intros Hcreds Hfile Hfull Hserve Hasc Hfuel.
  unfold V1.main, runScript. rewrite Hcreds.
  rewrite mainBody_runs_workingSet.
  destruct (detectSkuList_value env w [] Hfile) as (evs0 & Hd & Hn0).
  rewrite (bind_run _ _ w [] _ evs0 Hd).
  unfold workingSet. rewrite Hfull. unfold runWorkingSet.
  set (h1 := [] ++ evs0).
  destruct (listVariantsBatch_whole_catalog w catalog fuel
              (h1 ++ [EvLog LogFullSync]) Hserve Hasc Hfuel)
    as (evs1 & Hrun & _).
  assert (Hn1 : noFetch evs1).
  { pose proof (proj1 (Post_listVariantsBatch_loop fuel (IInt 0) [] 0%Z w
                         (h1 ++ [EvLog LogFullSync]))) as H.
    unfold V1.listVariantsBatch in Hrun. rewrite Hrun in H. exact H. }
  destruct (forEach_entries_total V1.processVariantEntry) with
      (entries := entriesOf catalog) (w := w)
      (h := (h1 ++ [EvLog LogFullSync]) ++ evs1) as (evs2 & Hfor & Hf2).
  { intros e w' h'.
    destruct (V1_processVariantEntry_total e w' h') as (evs & H & _ & F).
    exists evs. split; assumption. }
  assert (Hinner :
            (log LogFullSync ;;
             batch <- V1.listVariantsBatch fuel (IInt 0) ;;
             forEach batch V1.processVariantEntry) w h1
            = (Ok tt, [EvLog LogFullSync] ++ evs1 ++ evs2)).
  { rewrite (bind_run (log LogFullSync) _ w h1 tt [EvLog LogFullSync] eq_refl).
    rewrite (bind_run _ _ w _ _ evs1 Hrun). rewrite Hfor. reflexivity. }
  rewrite (bind_run _ _ w h1 tt _ Hinner).
  change ((onIdle MlQueue ;; onIdle ShopifyQueue ;; log LogSyncFinished) w
            (h1 ++ [EvLog LogFullSync] ++ evs1 ++ evs2))
    with (Ok tt, [EvQueueIdle MlQueue; EvQueueIdle ShopifyQueue;
                  EvLog LogSyncFinished]).
  eexists. split; [reflexivity|].
  rewrite !fetchedSkus_app, Hn0, Hn1, Hf2. cbn. apply app_nil_r.
Qed.

(** C7: every failure inside one entry is caught there.  Whatever the
    marketplace and the storefront answer, [processVariantEntry] returns
    normally; a 404, a 403 or any other non-success marketplace status
    (429 apart) leaves one log line after the fetch, and a storefront
    write that fails leaves its own log line; the loop over the entries
    always reaches its end, with one marketplace lookup for every entry
    that has a SKU; a run exits with status 1 only when the credentials
    are missing, a catalogue read failed or [sku_list.txt] could not be
    read; and a full-sync run over a catalogue, with [sku_list.txt]
    absent or readable, exits with status 0 after a lookup for every
    entry that has a SKU, whatever the marketplace and the writes
    answer. *)
Theorem entry_failures_do_not_abort :
  (forall e w h, exists evs, V1.processVariantEntry e w h = (Ok tt, evs))
  /\
  (forall e w h status header body,
      isEmpty (skuOf (variant e)) = false ->
      marketplace_get w (h ++ [EvQueueAdd MlQueue]) (skuOf (variant e))
      = Response status header body ->
      statusOk status = false -> status <> 429%Z ->
      V1.processVariantEntry e w h
      = (Ok tt,
         [EvQueueAdd MlQueue;
          EvMlGet (skuOf (variant e)) (Response status header body);
          EvQueueDone MlQueue;
          EvLog (if (status =? 404)%Z then LogNotFound (skuOf (variant e))
                 else if (status =? 403)%Z
                      then LogForbidden (skuOf (variant e))
                      else LogError (skuOf (variant e))
                                    (plainError (MsgMlError status)))]))
  /\
  (forall e w h status header price pstatus pheader pbody,
      isEmpty (skuOf (variant e)) = false ->
      marketplace_get w (h ++ [EvQueueAdd MlQueue]) (skuOf (variant e))
      = Response status header (Some (MlItem price)) ->
      statusOk status = true ->
      isNullish price = false ->
      V1.needsUpdate (JStr (v_price (variant e))) price = true ->
      storefront_put w
        (h ++ [EvQueueAdd MlQueue;
               EvMlGet (skuOf (variant e))
                       (Response status header (Some (MlItem price)));
               EvQueueDone MlQueue; EvQueueAdd ShopifyQueue])
        (v_id (variant e)) price
      = Response pstatus pheader pbody ->
      statusOk pstatus = false ->
      V1.processVariantEntry e w h
      = (Ok tt,
         [EvQueueAdd MlQueue;
          EvMlGet (skuOf (variant e))
                  (Response status header (Some (MlItem price)));
          EvQueueDone MlQueue; EvQueueAdd ShopifyQueue;
          EvShopifyPut (v_id (variant e)) price
                       (Response pstatus pheader pbody);
          EvLog (LogUpdateError (v_id (variant e))
                                (plainError (MsgShopifyPut pstatus)));
          EvQueueDone ShopifyQueue]))
  /\
  (forall entries w h, exists evs,
      forEach entries V1.processVariantEntry w h = (Ok tt, evs)
      /\ fetchedSkus evs
         = filter truthyStr (map (fun e => skuOf (variant e)) entries))
  /\
  (forall env fuel w tr,
      V1.main env fuel w = (Exited 1, tr) ->
      missing (SHOP env) || missing (SHOPIFY_TOKEN env) = true
      \/ clean tr = false
      \/ sku_list_txt env = Unreadable)
  /\
  (forall env w catalog fuel,
      missing (SHOP env) || missing (SHOPIFY_TOKEN env) = false ->
      skuFileReadable env ->
      FULL_SYNC env = true ->
      servesCatalog w catalog ->
      ascendingIds catalog ->
      (length catalog / 250 < fuel)%nat ->
      exists tr,
        V1.main env fuel w = (Exited 0, tr)
        /\ fetchedSkus tr
           = filter truthyStr
                    (map (fun e => skuOf (variant e)) (entriesOf catalog))).
Proof.
  split.
  { intros e w h. destruct (V1_processVariantEntry_total e w h) as (evs & H & _).
    exists evs. exact H. }
  split.
  { intros e w h status header body Hsku Hml Hok H429.
    unfold V1.processVariantEntry, V1.fetchMlItem.
    rewrite Hsku. run_entry. rewrite Hml. cbn.
    apply Z.eqb_neq in H429. rewrite H429.
    destruct (status =? 404)%Z; [reflexivity|].
    destruct (status =? 403)%Z; [reflexivity|].
    rewrite Hok. reflexivity. }
  split.
  { intros e w h status header price pstatus pheader pbody
           Hsku Hml Hok Hprice Hupd Hput Hpok.
    unfold V1.processVariantEntry, V1.fetchMlItem, V1.shopifyPut, V1.priceOf.
    rewrite Hsku. run_entry. rewrite Hml. cbn.
    assert (H429 : (status =? 429)%Z = false).
    { apply Z.eqb_neq. intros ->. discriminate Hok. }
    assert (H404 : (status =? 404)%Z = false).
    { apply Z.eqb_neq. intros ->. discriminate Hok. }
    assert (H403 : (status =? 403)%Z = false).
    { apply Z.eqb_neq. intros ->. discriminate Hok. }
    rewrite H429, H404, H403, Hok. cbn.
    rewrite Hprice, Hupd. cbn.
    rewrite app_nil_r, <- app_assoc. cbn [app]. rewrite Hput. cbn.
    rewrite Hpok.
    reflexivity. }
  split.
  { apply forEach_entries_total. intros e w h.
    destruct (V1_processVariantEntry_total e w h) as (evs & H & _ & F).
    exists evs. split; assumption. }
  split.
  { intros env fuel w tr Hrun.
    destruct (skuFileReadable_dec env) as [Hfile | Hfile]; [|auto].
    destruct (main_exit_1 env _ w tr (Inv_V1_mainBody env fuel Hfile) Hrun);
      auto. }
  apply V1_full_sync_run.
Qed.

(** The not-found scenario of the specification: the marketplace has no
    item "GHOST"; the entry is logged as not found, nothing is written,
    and the entry after it is still looked up. *)
Lemma entry_failures_witness :
  V1.processVariantEntry ghostEntry (rateLimitWorld "3") []
  = (Ok tt, [EvQueueAdd MlQueue; EvMlGet "GHOST" (Response 404 None None);
             EvQueueDone MlQueue; EvLog (LogNotFound "GHOST")]).
Proof.
  apply (proj1 (proj2 entry_failures_do_not_abort)
           ghostEntry (rateLimitWorld "3") [] 404%Z None None).
  - reflexivity.
  - reflexivity.
  - reflexivity.
  - discriminate.
Defined.

(** The same facts for version 2, where an entry whose price needs no
    update is not logged. *)
Lemma V2_entries_always_processed :
  (forall entries w h, exists evs,
      forEach entries V2.processVariantEntry w h = (Ok tt, evs)
      /\ fetchedSkus evs
         = filter truthyStr (map (fun e => skuOf (variant e)) entries))
  /\
  (forall env fuel w tr,
      V2.main env fuel w = (Exited 1, tr) ->
      missing (SHOP env) || missing (SHOPIFY_TOKEN env) = true
      \/ clean tr = false).
Proof.
  split.
  - apply forEach_entries_total. intros e w h.
    destruct (V2_processVariantEntry_total e w h) as (evs & H & _ & F).
    exists evs. split; assumption.
  - intros env fuel w tr. apply main_exit_1, Inv_V2_mainBody.
Qed.

(** ** Failures of the catalogue read *)

Lemma clean_In (tr : Trace) (ev : Event) :
  clean tr = true -> In ev tr -> failedGet ev = false.
Proof.
  unfold clean. rewrite forallb_forall. intros H Hin.
  apply negb_true_iff. apply H, Hin.
Qed.

(** A failed read that is followed only by events that are no failed
    reads, in a trace whose earlier reads succeeded, is found at one
    place only. *)
Lemma failed_read_position (evs0 tail pre post : Trace) (x y : Event) :
  clean evs0 = true -> clean tail = true ->
  failedGet x = true ->
  pre ++ x :: post = evs0 ++ y :: tail ->
  pre = evs0 /\ x = y /\ post = tail.
Proof.
  intros H0 Ht Hx. revert pre.
  induction evs0 as [|a evs0 IH]; intros pre E.
  - destruct pre as [|p pre]; cbn in E.
    + inversion E. auto.
    + inversion E; subst. exfalso.
      assert (Hin : In x (pre ++ x :: post)) by (apply in_elt).
      pose proof (clean_In _ _ Ht Hin). congruence.
  - cbn in H0. apply andb_true_iff in H0 as [Ha H0].
    destruct pre as [|p pre]; cbn in E; inversion E; subst.
    + rewrite Hx in Ha. discriminate Ha.
    + destruct (IH H0 pre H2) as (-> & -> & ->). auto.
Qed.

Lemma runScript_failed_read (env : Env) (body : M unit) (w : World)
    (res : RunResult) (tr pre post : Trace) (sid : Z)
    (r : HttpResult GetBody) (err : JsError) :
  Inv body ->
  runScript env body w = (res, tr) ->
  tr = pre ++ EvShopifyGet sid r :: post ->
  getError r = Some err ->
  res = Exited 1 /\ post = [EvLog (LogFatal err)].
Proof.
  intros HInv Hrun -> Herr. unfold runScript in Hrun.
  assert (Hx : failedGet (EvShopifyGet sid r) = true)
    by (cbn; rewrite Herr; reflexivity).
  destruct (missing (SHOP env) || missing (SHOPIFY_TOKEN env)).
  { inversion Hrun as [[Hres Htr]].
    destruct pre as [|p [|p' pre]]; discriminate Htr. }
  specialize (HInv w []). destruct (body w []) as [rb evs].
  rename HInv into Hc. unfold good in Hc. cbn [fst snd] in Hc.
  destruct rb as [a | e | ]; inversion Hrun as [[Hres Htr]]; subst.
  - exfalso. assert (Hin : In (EvShopifyGet sid r)
                              (pre ++ EvShopifyGet sid r :: post))
      by apply in_elt.
    pose proof (clean_In _ _ Hc Hin). congruence.
  - destruct Hc as (evs0 & sid' & r' & -> & Herr' & Hclean).
    rewrite <- app_assoc in Htr. cbn in Htr. symmetry in Htr.
    destruct (failed_read_position evs0 [EvLog (LogFatal e)] pre post
                _ _ Hclean eq_refl Hx Htr) as (_ & Hxy & ->).
    inversion Hxy; subst. rewrite Herr in Herr'. inversion Herr'.
    split; reflexivity.
  - exfalso. assert (Hin : In (EvShopifyGet sid r)
                              (pre ++ EvShopifyGet sid r :: post))
      by apply in_elt.
    pose proof (clean_In _ _ Hc Hin). congruence.
Qed.

(** C8: a non-success answer of the catalogue read endpoint ends the run.
    In either version, wherever the read sits in the trace, the only
    thing after it is the [Fatal] log line with the [Shopify GET] error
    of that status: no read is issued again, nothing else is done, and
    the process exits with status 1. *)
Theorem catalog_read_failure_is_fatal
    (env : Env) (fuel : nat) (w : World) (res : RunResult)
    (tr pre post : Trace) (since_id status : Z)
    (header : option string) (body : option GetBody) :
  V1.main env fuel w = (res, tr) \/ V2.main env fuel w = (res, tr) ->
  tr = pre ++ EvShopifyGet since_id (Response status header body) :: post ->
  statusOk status = false ->
  res = Exited 1
  /\ post = [EvLog (LogFatal (plainError (MsgShopifyGet status)))].
Proof.
  intros Hrun Htr Hok.
  assert (Herr : getError (Response status header body)
                 = Some (plainError (MsgShopifyGet status)))
    by (cbn; rewrite Hok; reflexivity).
  destruct Hrun as [Hrun | Hrun].
  - destruct (skuFileReadable_dec env) as [Hfile | Hfile].
    + exact (runScript_failed_read env _ w res tr pre post since_id _ _
               (Inv_V1_mainBody env fuel Hfile) Hrun Htr Herr).
    + exfalso. unfold V1.main, runScript in Hrun.
      rewrite (V1_mainBody_unreadable env fuel w [] Hfile) in Hrun.
      destruct (missing (SHOP env) || missing (SHOPIFY_TOKEN env));
        inversion Hrun as [[Hres Htr']]; rewrite Htr in Htr';
        destruct pre as [|p [|p' pre]]; discriminate Htr'.
  - exact (runScript_failed_read env _ w res tr pre post since_id _ _
             (Inv_V2_mainBody env fuel) Hrun Htr Herr).
Qed.

(** With [SKU_LIST=A,B] on a storefront whose second read is answered
    503: "A" is found and updated, the lookup of "B" fails, and the run
    stops there with status 1. *)
Lemma catalog_read_failure_witness :
  fst (V1.main envAB 5 flakyWorld) = Exited 1
  /\ skipn 13 (snd (V1.main envAB 5 flakyWorld))
     = [EvLog (LogFatal (plainError (MsgShopifyGet 503)))].
Proof.
  apply (catalog_read_failure_is_fatal envAB 5 flakyWorld
           (fst (V1.main envAB 5 flakyWorld))
           (snd (V1.main envAB 5 flakyWorld))
           (firstn 12 (snd (V1.main envAB 5 flakyWorld)))
           (skipn 13 (snd (V1.main envAB 5 flakyWorld)))
           0%Z 503%Z None None).
  - left. vm_compute. reflexivity.
  - vm_compute. reflexivity.
  - reflexivity.
Defined.

(** ** The two versions *)

(** C10: [needsUpdate], [fetchMlItem], [listVariantsBatch] and
    [findVariantsBySku] of version 1 and of version 2 return the same
    result, and leave the same trace, on every input. *)
Theorem versions_agree :
  (forall shopPrice mlPrice,
      V1.needsUpdate shopPrice mlPrice = V2.needsUpdate shopPrice mlPrice)
  /\ (forall itemId w h, V1.fetchMlItem itemId w h = V2.fetchMlItem itemId w h)
  /\ (forall fuel limit w h,
         V1.listVariantsBatch fuel limit w h
         = V2.listVariantsBatch fuel limit w h)
  /\ (forall fuel targetSku w h,
         V1.findVariantsBySku fuel targetSku w h
         = V2.findVariantsBySku fuel targetSku w h).
Proof.
  repeat split; reflexivity.
Qed.

(* ================================================================== *)
(** * Further properties of the script *)
(* ================================================================== *)

(** ** The targeted lookup *)

Lemma pushMatches_filter (targetSku : string) (products : list Product) :
  forall matches,
    V1.pushMatches targetSku products matches
    = matches ++ filter (skuIs targetSku) (entriesOf products).
Proof.
  unfold V1.pushMatches.
  induction products as [|p ps IH]; intros matches; cbn [fold_left].
  - cbn. rewrite app_nil_r. reflexivity.
  - rewrite IH, entriesOf_cons, filter_app, app_assoc. f_equal.
    generalize matches. clear IH matches.
    induction (p_variants p) as [|v vs IHv]; intros matches;
      cbn [fold_left map filter].
    + rewrite app_nil_r. reflexivity.
    + rewrite IHv. unfold skuIs at 2. cbn [variant].
      destruct (String.eqb (skuOf v) targetSku).
      * rewrite <- app_assoc. reflexivity.
      * reflexivity.
Qed.

Lemma findVariantsBySku_loop_filtered (targetSku : string) (fuel : nat) :
  forall results since_id w h,
    V1.findVariantsBySku_loop fuel targetSku
      (filter (skuIs targetSku) results) since_id w h
    = (let '(r, evs) :=
         V1.listVariantsBatch_loop fuel (IInt 0) results since_id w h in
       (mapRes (filter (skuIs targetSku)) r, evs)).
Proof.
  induction fuel as [|fuel IH]; intros results since_id w h;
    cbn [V1.findVariantsBySku_loop V1.listVariantsBatch_loop limit_le0];
    change (0 <=? 0)%Z with true; cbn [orb]; [reflexivity|].
  unfold bind at 1 2.
  destruct (V1.shopifyGet since_id w h) as [r e1].
  destruct r as [data | e | ]; [|reflexivity ..].
  destruct (isNil _); [reflexivity|].
  rewrite pushMatches_filter, <- filter_app.
  rewrite <- (pushProducts_unbounded (IInt 0)) by reflexivity.
  destruct (_ <? _)%nat; [reflexivity|].
  rewrite IH.
  destruct (V1.listVariantsBatch_loop _ _ _ _ _ _) as [r2 e2].
  reflexivity.
Qed.

(** X1: in every world, [findVariantsBySku] reads the pages the
    unbounded [listVariantsBatch] reads, ends the way it ends, and
    returns its entries filtered by the target SKU. *)
Theorem findVariantsBySku_is_filtered_scan
    (fuel : nat) (targetSku : string) (w : World) (h : Trace) :
  V1.findVariantsBySku fuel targetSku w h
  = (mapRes (filter (skuIs targetSku))
            (fst (V1.listVariantsBatch fuel (IInt 0) w h)),
     snd (V1.listVariantsBatch fuel (IInt 0) w h)).
Proof.
  unfold V1.findVariantsBySku, V1.listVariantsBatch.
  change (@nil Entry) with (filter (skuIs targetSku) []) at 1.
  rewrite findVariantsBySku_loop_filtered.
  destruct (V1.listVariantsBatch_loop _ _ _ _ _ _). reflexivity.
Qed.

Lemma readsOnly_app (a b : Trace) :
  readsOnly a -> readsOnly b -> readsOnly (a ++ b).
Proof. unfold readsOnly. intros Ha Hb. apply Forall_app. auto. Qed.

Lemma readsOnly_noRequests (tr : Trace) :
  readsOnly tr -> writes tr = [] /\ fetchedSkus tr = [].
Proof.
  induction 1 as [|ev tr Hev _ IH]; [split; reflexivity|].
  destruct ev; try contradiction. exact IH.
Qed.

Lemma Post_readsOnly_shopifyGet (since_id : Z) :
  Post readsOnly (fun _ => True) (V1.shopifyGet since_id).
Proof.
  intros w h. split; [|trivial].
  unfold V1.shopifyGet, bind, httpShopifyGet. cbn.
  destruct (storefront_get w h since_id) as [|status hdr [data|]]; cbn;
    try destruct (statusOk status); repeat constructor.
Qed.

Lemma Post_readsOnly_listVariantsBatch_loop (fuel : nat) (limit : jsint) :
  forall results since_id,
    Post readsOnly (fun _ => True)
         (V1.listVariantsBatch_loop fuel limit results since_id).
Proof.
  induction fuel as [|fuel IH]; intros results since_id;
    cbn [V1.listVariantsBatch_loop];
    destruct (limit_le0 limit || len_lt (length results) limit);
    try (apply Post_ret; [constructor | trivial]);
    try (apply Post_outOfFuel; constructor).
  apply (Post_bind readsOnly (fun _ => True));
    [apply readsOnly_app | apply Post_readsOnly_shopifyGet |].
  intros data _.
  destruct (isNil _); [apply Post_ret; [constructor | trivial]|].
  destruct (_ <? _)%nat; [apply Post_ret; [constructor | trivial] | apply IH].
Qed.

Lemma findVariantsBySku_catalog_run
    (w : World) (catalog : list Product) (fuel : nat) (targetSku : string)
    (h : Trace) :
  servesCatalog w catalog ->
  ascendingIds catalog ->
  (length catalog / 250 < fuel)%nat ->
  exists evs,
    V1.findVariantsBySku fuel targetSku w h
    = (Ok (filter (skuIs targetSku) (entriesOf catalog)), evs)
    /\ readsOnly evs
    /\ length (pageRequests evs) = S (length catalog / 250).
Proof.
  intros Hserve Hasc Hfuel.
  destruct (listVariantsBatch_whole_catalog w catalog fuel h Hserve Hasc Hfuel)
    as (evs & Hrun & Hreq).
  exists evs. unfold V1.findVariantsBySku.
  change (@nil Entry) with (filter (skuIs targetSku) []) at 1.
  rewrite findVariantsBySku_loop_filtered.
  pose proof (proj1 (Post_readsOnly_listVariantsBatch_loop fuel (IInt 0)
                       [] 0%Z w h)) as Hreads.
  unfold V1.listVariantsBatch in Hrun. rewrite Hrun in Hreads |- *.
  repeat split; assumption.
Qed.

(** X2: on a storefront that serves a catalogue, [findVariantsBySku]
    returns exactly the entries whose trimmed SKU is the target, in
    catalogue order, and reads every page of the catalogue to do so. *)
Theorem findVariantsBySku_on_catalog
    (w : World) (catalog : list Product) (fuel : nat) (targetSku : string)
    (h : Trace) :
  servesCatalog w catalog ->
  ascendingIds catalog ->
  (length catalog / 250 < fuel)%nat ->
  exists evs,
    V1.findVariantsBySku fuel targetSku w h
    = (Ok (filter (skuIs targetSku) (entriesOf catalog)), evs)
    /\ readsOnly evs
    /\ length (pageRequests evs) = S (length catalog / 250).
Proof. apply findVariantsBySku_catalog_run. Qed.

(** In a catalogue of five products with SKU "S", the five entries are
    found after one page read. *)
Lemma findVariantsBySku_on_catalog_witness :
  exists evs,
    V1.findVariantsBySku 1 "S" worldFive []
    = (Ok (filter (skuIs "S") (entriesOf catalogFive)), evs)
    /\ readsOnly evs
    /\ length (pageRequests evs) = 1%nat.
Proof.
  apply (findVariantsBySku_on_catalog worldFive catalogFive 1 "S" []).
  - intros h since_id. reflexivity.
  - reflexivity.
  - vm_compute. apply Nat.le_refl.
Defined.

(** ** The cap of a bounded scan *)

Lemma listVariantsBatch_loop_cap (n : Z) (fuel : nat) :
  (0 < n)%Z ->
  forall results since_id w h res evs,
    (length results <= Z.to_nat n)%nat ->
    V1.listVariantsBatch_loop fuel (IInt n) results since_id w h
    = (Ok res, evs) ->
    (length res <= Z.to_nat n)%nat.
Proof.
  intros Hn. induction fuel as [|fuel IH];
    intros results since_id w h res evs Hlen Hrun.
  - destruct (capReached (IInt n) results) eqn:Hcap.
    + rewrite listVariantsBatch_loop_capped in Hrun by exact Hcap.
      inversion Hrun; subst. exact Hlen.
    + unfold capReached in Hcap. apply negb_false_iff in Hcap.
      cbn [V1.listVariantsBatch_loop] in Hrun. rewrite Hcap in Hrun.
      discriminate Hrun.
  - destruct (capReached (IInt n) results) eqn:Hcap.
    + rewrite listVariantsBatch_loop_capped in Hrun by exact Hcap.
      inversion Hrun; subst. exact Hlen.
    + rewrite listVariantsBatch_loop_step in Hrun by exact Hcap.
      cbv zeta in Hrun.
      assert (Hlt : (Z.of_nat (length results) < n)%Z).
      { unfold capReached in Hcap. apply negb_false_iff in Hcap.
        cbn in Hcap. apply orb_true_iff in Hcap as [Hc | Hc].
        - apply Z.leb_le in Hc. lia.
        - apply Z.ltb_lt in Hc. exact Hc. }
      destruct (getError (storefront_get w h since_id)); [discriminate|].
      destruct (isNil _); [inversion Hrun; subst; exact Hlen|].
      assert (Hpush : (length (V1.pushProducts (IInt n)
                                 (pageOf (storefront_get w h since_id))
                                 results) <= Z.to_nat n)%nat).
      { rewrite pushProducts_bounded by exact Hlt. apply firstn_le_length. }
      destruct (_ <? _)%nat; [inversion Hrun; subst; exact Hpush|].
      destruct (V1.listVariantsBatch_loop fuel _ _ _ _ _) as [r2 e2] eqn:E.
      inversion Hrun; subst. eapply IH; [exact Hpush | exact E].
Qed.

(** X3: in every world, a scan with a positive limit never returns more
    entries than the limit, and a scan whose limit is not a number
    returns no entry without reading any page. *)
Theorem listVariantsBatch_cap
    (fuel : nat) (w : World) (h : Trace) :
  (forall n res evs,
      (0 < n)%Z ->
      V1.listVariantsBatch fuel (IInt n) w h = (Ok res, evs) ->
      (Z.of_nat (length res) <= n)%Z)
  /\ V1.listVariantsBatch fuel INaN w h = (Ok [], []).
Proof.
  split.
  - intros n res evs Hn Hrun. unfold V1.listVariantsBatch in Hrun.
    pose proof (listVariantsBatch_loop_cap n fuel Hn [] 0%Z w h res evs
                  ltac:(cbn; lia) Hrun).
    lia.
  - apply listVariantsBatch_loop_capped. reflexivity.
Qed.

(** Three of the five entries for a limit of 3. *)
Lemma listVariantsBatch_cap_witness :
  (Z.of_nat (length (firstn 3 (entriesOf catalogFive))) <= 3)%Z.
Proof.
  apply (proj1 (listVariantsBatch_cap 1 worldFive []) 3%Z
           (firstn 3 (entriesOf catalogFive))
           (snd (V1.listVariantsBatch 1 (IInt 3) worldFive []))).
  - reflexivity.
  - vm_compute. reflexivity.
Defined.

(** ** The outcome of one entry *)

(** What an entry writes, in every world: nothing, or once, the price
    the marketplace returned for its SKU, which then is not null and
    differs enough from the storefront price. *)
Lemma V1_entry_writes (e : Entry) (w : World) (h : Trace) :
  writes (snd (V1.processVariantEntry e w h)) = []
  \/ exists price status header,
      writes (snd (V1.processVariantEntry e w h))
      = [(v_id (variant e), price)]
      /\ fetchedSkus (snd (V1.processVariantEntry e w h))
         = [skuOf (variant e)]
      /\ In (EvMlGet (skuOf (variant e))
                     (Response status header (Some (MlItem price))))
            (snd (V1.processVariantEntry e w h))
      /\ marketplace_get w (h ++ [EvQueueAdd MlQueue]) (skuOf (variant e))
         = Response status header (Some (MlItem price))
      /\ isNullish price = false
      /\ V1.needsUpdate (JStr (v_price (variant e))) price = true.
Proof.
  unfold V1.processVariantEntry, V1.fetchMlItem, V1.shopifyPut, V1.priceOf.
  destruct (isEmpty (skuOf (variant e))) eqn:Hsku; [left; reflexivity|].
  run_entry.
  destruct (marketplace_get w (h ++ [EvQueueAdd MlQueue]) (skuOf (variant e)))
    as [|status header body] eqn:Hml; cbn; [left; reflexivity|].
  entry_cases w; try (left; reflexivity);
    right; do 3 eexists; repeat split; try reflexivity; try eassumption;
    cbn; auto.
Qed.

Lemma V2_entry_writes (e : Entry) (w : World) (h : Trace) :
  writes (snd (V2.processVariantEntry e w h)) = []
  \/ exists price status header,
      writes (snd (V2.processVariantEntry e w h))
      = [(v_id (variant e), price)]
      /\ fetchedSkus (snd (V2.processVariantEntry e w h))
         = [skuOf (variant e)]
      /\ In (EvMlGet (skuOf (variant e))
                     (Response status header (Some (MlItem price))))
            (snd (V2.processVariantEntry e w h))
      /\ marketplace_get w (h ++ [EvQueueAdd MlQueue]) (skuOf (variant e))
         = Response status header (Some (MlItem price))
      /\ isNullish price = false
      /\ V2.needsUpdate (JStr (v_price (variant e))) price = true.
Proof.
  unfold V2.processVariantEntry, V2.fetchMlItem, V2.shopifyPut, V2.priceOf.
  destruct (isEmpty (skuOf (variant e))) eqn:Hsku; [left; reflexivity|].
  run_entry.
  destruct (marketplace_get w (h ++ [EvQueueAdd MlQueue]) (skuOf (variant e)))
    as [|status header body] eqn:Hml; cbn; [left; reflexivity|].
  entry_cases w; try (left; reflexivity);
    right; do 3 eexists; repeat split; try reflexivity; try eassumption;
    cbn; auto.
Qed.

(** X4: whatever the marketplace and the storefront answer, one entry
    makes at most one storefront write, and a write it makes is for its
    own variant, with the price the marketplace returned for its SKU,
    which is not null and differs from the storefront price by more than
    the threshold. *)
Theorem entry_writes_marketplace_price (e : Entry) (w : World) (h : Trace) :
  (length (writes (snd (V1.processVariantEntry e w h))) <= 1)%nat
  /\ forall id price,
      In (id, price) (writes (snd (V1.processVariantEntry e w h))) ->
      id = v_id (variant e)
      /\ isNullish price = false
      /\ V1.needsUpdate (JStr (v_price (variant e))) price = true
      /\ exists status header,
          marketplace_get w (h ++ [EvQueueAdd MlQueue]) (skuOf (variant e))
          = Response status header (Some (MlItem price)).
Proof.
  destruct (V1_entry_writes e w h)
    as [-> | (price & status & header & -> & _ & _ & Hml & Hnull & Hupd)].
  - split; [cbn; lia | intros id price []].
  - split; [cbn; lia|].
    intros id p [Heq | []]. inversion Heq; subst.
    repeat split; try assumption. exists status, header. exact Hml.
Qed.

(** The entry "A", priced "100.00" on the storefront and 105 on the
    marketplace, is written once with 105. *)
Lemma entry_writes_marketplace_price_witness :
  11%Z = v_id (variant entryA)
  /\ isNullish (JNum (Fin 105)) = false
  /\ V1.needsUpdate (JStr (v_price (variant entryA))) (JNum (Fin 105)) = true
  /\ exists status header,
      marketplace_get flakyWorld ([] ++ [EvQueueAdd MlQueue])
                      (skuOf (variant entryA))
      = Response status header (Some (MlItem (JNum (Fin 105)))).
Proof.
  apply (proj2 (entry_writes_marketplace_price entryA flakyWorld [])).
  left. reflexivity.
Defined.

(** X5: an entry whose marketplace fetch succeeds ends in one of three
    ways.  A null or missing price: nothing after the fetch.  A price
    within the threshold: no write (version 1 logs it, version 2 does
    not).  A price beyond the threshold, and a write the storefront
    accepts: one write of that price and the log line of the update. *)
Theorem entry_after_successful_fetch
    (e : Entry) (w : World) (h : Trace)
    (status : Z) (header : option string) (price : jsval) :
  isEmpty (skuOf (variant e)) = false ->
  marketplace_get w (h ++ [EvQueueAdd MlQueue]) (skuOf (variant e))
  = Response status header (Some (MlItem price)) ->
  statusOk status = true ->
  let fetched :=
    [EvQueueAdd MlQueue;
     EvMlGet (skuOf (variant e))
             (Response status header (Some (MlItem price)));
     EvQueueDone MlQueue] in
  (isNullish price = true ->
   V1.processVariantEntry e w h = (Ok tt, fetched)
   /\ V2.processVariantEntry e w h = (Ok tt, fetched))
  /\
  (isNullish price = false ->
   V1.needsUpdate (JStr (v_price (variant e))) price = false ->
   V1.processVariantEntry e w h
   = (Ok tt, fetched ++ [EvLog (LogNoChange (v_id (variant e))
                                            (skuOf (variant e)))])
   /\ V2.processVariantEntry e w h = (Ok tt, fetched))
  /\
  (isNullish price = false ->
   V1.needsUpdate (JStr (v_price (variant e))) price = true ->
   forall pstatus pheader,
     storefront_put w (h ++ fetched ++ [EvQueueAdd ShopifyQueue])
                    (v_id (variant e)) price
     = Response pstatus pheader (Some tt) ->
     statusOk pstatus = true ->
     let written :=
       fetched ++
       [EvQueueAdd ShopifyQueue;
        EvShopifyPut (v_id (variant e)) price
                     (Response pstatus pheader (Some tt));
        EvLog (LogUpdated (v_id (variant e)) (skuOf (variant e)) price);
        EvQueueDone ShopifyQueue] in
     V1.processVariantEntry e w h = (Ok tt, written)
     /\ V2.processVariantEntry e w h = (Ok tt, written)).
Proof.
  intros Hsku Hml Hok. cbv zeta.
  assert (H429 : (status =? 429)%Z = false).
  { apply Z.eqb_neq. intros ->. discriminate Hok. }
  assert (H404 : (status =? 404)%Z = false).
  { apply Z.eqb_neq. intros ->. discriminate Hok. }
  assert (H403 : (status =? 403)%Z = false).
  { apply Z.eqb_neq. intros ->. discriminate Hok. }
  unfold V1.processVariantEntry, V2.processVariantEntry,
    V1.fetchMlItem, V2.fetchMlItem, V1.shopifyPut, V2.shopifyPut,
    V1.priceOf, V2.priceOf.
  change V2.needsUpdate with V1.needsUpdate.
  rewrite Hsku. run_entry. rewrite Hml. cbn.
  rewrite H429, H404, H403, Hok. cbn.
  split; [|split].
  - intros ->. split; reflexivity.
  - intros -> ->. split; reflexivity.
  - intros -> -> pstatus pheader Hput Hpok. cbn.
    rewrite app_nil_r, <- app_assoc. cbn [app].
    rewrite Hput. cbn. rewrite Hpok. split; reflexivity.
Qed.

(** The update scenario: "100.00" on the storefront, 105 on the
    marketplace, one write of 105. *)
Lemma entry_after_successful_fetch_witness :
  V1.processVariantEntry entryA flakyWorld []
  = (Ok tt,
     [EvQueueAdd MlQueue;
      EvMlGet "A" (Response 200 None (Some (MlItem (JNum (Fin 105)))));
      EvQueueDone MlQueue; EvQueueAdd ShopifyQueue;
      EvShopifyPut 11 (JNum (Fin 105)) (Response 200 None (Some tt));
      EvLog (LogUpdated 11 "A" (JNum (Fin 105)));
      EvQueueDone ShopifyQueue]).
Proof.
  exact (proj1 (proj2 (proj2 (entry_after_successful_fetch
                                entryA flakyWorld [] 200%Z None
                                (JNum (Fin 105)) eq_refl eq_refl eq_refl))
                      eq_refl eq_refl 200%Z None eq_refl eq_refl)).
Defined.

(** X6: in every world, version 2 treats an entry as version 1 does,
    less the log line of a price that needs no update: same result,
    same requests with the same answers, same other log lines. *)
Theorem V2_entry_is_V1_less_no_change (e : Entry) (w : World) (h : Trace) :
  V2.processVariantEntry e w h
  = (fst (V1.processVariantEntry e w h),
     filter (fun ev => negb (isNoChange ev))
            (snd (V1.processVariantEntry e w h))).
Proof.
  unfold V1.processVariantEntry, V2.processVariantEntry,
    V1.fetchMlItem, V2.fetchMlItem, V1.shopifyPut, V2.shopifyPut,
    V1.priceOf, V2.priceOf.
  change V2.needsUpdate with V1.needsUpdate.
  destruct (isEmpty (skuOf (variant e))); [reflexivity|].
  run_entry. entry_cases w; reflexivity.
Qed.

(** ** What a whole run writes *)

Lemma writes_app (a b : Trace) : writes (a ++ b) = writes a ++ writes b.
Proof.
  induction a as [|ev a IH]; [reflexivity|].
  destruct ev; cbn; congruence.
Qed.

Lemma pageRequests_app (a b : Trace) :
  pageRequests (a ++ b) = pageRequests a ++ pageRequests b.
Proof.
  induction a as [|ev a IH]; [reflexivity|].
  destruct ev; cbn; congruence.
Qed.

Lemma Post_readsOnly_findVariantsBySku_loop (fuel : nat)
    (targetSku : string) :
  forall matches since_id,
    Post readsOnly (fun _ => True)
         (V1.findVariantsBySku_loop fuel targetSku matches since_id).
Proof.
  induction fuel as [|fuel IH]; intros matches since_id;
    cbn [V1.findVariantsBySku_loop];
    [apply Post_outOfFuel; constructor|].
  apply (Post_bind readsOnly (fun _ => True));
    [apply readsOnly_app | apply Post_readsOnly_shopifyGet |].
  intros data _.
  destruct (isNil _); [apply Post_ret; [constructor | trivial]|].
  destruct (_ <? _)%nat; [apply Post_ret; [constructor | trivial] | apply IH].
Qed.

Lemma Post_readSkuListFile (P : Trace -> Prop) (file : SkuFile) :
  P [] -> Post P (fun _ => True) (V1.readSkuListFile file).
Proof.
  intros H w h. destruct file; (split; [exact H | trivial]).
Qed.

(** One step through the script for a property of traces that holds of
    traces without a write, is kept by concatenation and holds of every
    entry. *)
Ltac post_step Happ Hquiet Hentry :=
  match goal with
  | |- Post _ _ (bind _ _) =>
      apply (Post_bind _ (fun _ => True)); [exact Happ | | intros ? _]
  | |- Post _ _ (forEach _ _) =>
      apply Post_forEach; [apply Hquiet; reflexivity | exact Happ | intros ? _]
  | |- Post _ _ (if ?b then _ else _) => destruct b
  | |- Post _ _ (ret _) => apply Post_ret; [apply Hquiet; reflexivity | trivial]
  | |- Post _ _ (log _) => apply Post_emit; apply Hquiet; reflexivity
  | |- Post _ _ (onIdle _) => apply Post_emit; apply Hquiet; reflexivity
  | |- Post _ _ (V1.listVariantsBatch _ _) =>
      eapply Post_weaken;
      [| | apply (Post_readsOnly_listVariantsBatch_loop _ _ [] 0%Z)];
      [intros ? Hreads; apply Hquiet, readsOnly_noRequests, Hreads | trivial]
  | |- Post _ _ (V2.listVariantsBatch _ _) =>
      eapply Post_weaken;
      [| | apply (Post_readsOnly_listVariantsBatch_loop _ _ [] 0%Z)];
      [intros ? Hreads; apply Hquiet, readsOnly_noRequests, Hreads | trivial]
  | |- Post _ _ (V1.findVariantsBySku _ _) =>
      eapply Post_weaken;
      [| | apply (Post_readsOnly_findVariantsBySku_loop _ _ [] 0%Z)];
      [intros ? Hreads; apply Hquiet, readsOnly_noRequests, Hreads | trivial]
  | |- Post _ _ (V2.findVariantsBySku _ _) =>
      eapply Post_weaken;
      [| | apply (Post_readsOnly_findVariantsBySku_loop _ _ [] 0%Z)];
      [intros ? Hreads; apply Hquiet, readsOnly_noRequests, Hreads | trivial]
  | |- Post _ _ (V1.readSkuListFile _) =>
      apply Post_readSkuListFile; apply Hquiet; reflexivity
  | |- Post _ _ (V1.processVariantEntry _) => apply Hentry
  | |- Post _ _ (V2.processVariantEntry _) => apply Hentry
  end.

Lemma Post_V1_mainBody (P : Trace -> Prop) (env : Env) (fuel : nat) :
  (forall a b, P a -> P b -> P (a ++ b)) ->
  (forall tr, writes tr = [] -> P tr) ->
  (forall e, Post P (fun _ => True) (V1.processVariantEntry e)) ->
  Post P (fun _ => True) (V1.mainBody env fuel).
Proof.
  intros Happ Hquiet Hentry. unfold V1.mainBody, V1.detectSkuList.
  repeat post_step Happ Hquiet Hentry.
Qed.

Lemma Post_V2_mainBody (P : Trace -> Prop) (env : Env) (fuel : nat) :
  (forall a b, P a -> P b -> P (a ++ b)) ->
  (forall tr, writes tr = [] -> P tr) ->
  (forall e, Post P (fun _ => True) (V2.processVariantEntry e)) ->
  Post P (fun _ => True) (V2.mainBody env fuel).
Proof.
  intros Happ Hquiet Hentry. unfold V2.mainBody. cbv zeta.
  repeat post_step Happ Hquiet Hentry.
Qed.

Lemma runScript_Post (P : Trace -> Prop) (env : Env) (body : M unit)
    (w : World) :
  (forall a b, P a -> P b -> P (a ++ b)) ->
  (forall tr, writes tr = [] -> P tr) ->
  Post P (fun _ => True) body ->
  P (snd (runScript env body w)).
Proof.
  intros Happ Hquiet Hbody. unfold runScript.
  destruct (missing (SHOP env) || missing (SHOPIFY_TOKEN env));
    [apply Hquiet; reflexivity|].
  specialize (Hbody w []). destruct (body w []) as [r evs].
  destruct Hbody as [HP _]. cbn [snd] in HP.
  destruct r as [a | e | ]; cbn [snd]; try exact HP.
  apply Happ; [exact HP | apply Hquiet; reflexivity].
Qed.

Lemma writesFromMarketplace_app (a b : Trace) :
  writesFromMarketplace a -> writesFromMarketplace b ->
  writesFromMarketplace (a ++ b).
Proof.
  intros [La Ha] [Lb Hb]. split.
  - rewrite writes_app, fetchedSkus_app, !length_app. lia.
  - intros id price Hin. rewrite writes_app in Hin.
    apply in_app_or in Hin as [Hin | Hin].
    + destruct (Ha id price Hin) as (sku & st & hd & H).
      exists sku, st, hd. apply in_or_app. left. exact H.
    + destruct (Hb id price Hin) as (sku & st & hd & H).
      exists sku, st, hd. apply in_or_app. right. exact H.
Qed.

Lemma writesFromMarketplace_quiet (tr : Trace) :
  writes tr = [] -> writesFromMarketplace tr.
Proof.
  intros H. unfold writesFromMarketplace. rewrite H.
  split; [cbn; lia | intros id price []].
Qed.

(** X7: in every run of either version, whatever the world answers,
    every price written to the storefront was returned by a marketplace
    lookup of that run, and there are no more writes than lookups. *)
Theorem run_writes_come_from_marketplace
    (env : Env) (fuel : nat) (w : World) :
  writesFromMarketplace (snd (V1.main env fuel w))
  /\ writesFromMarketplace (snd (V2.main env fuel w)).
Proof.
  split.
  - apply (runScript_Post writesFromMarketplace env (V1.mainBody env fuel) w);
      [apply writesFromMarketplace_app | apply writesFromMarketplace_quiet |].
    apply Post_V1_mainBody;
      [apply writesFromMarketplace_app | apply writesFromMarketplace_quiet |].
    intros e w' h'. split; [|trivial].
    destruct (V1_entry_writes e w' h')
      as [Hnone | (price & st & hd & Hw & Hf & Hin & _)].
    + apply writesFromMarketplace_quiet, Hnone.
    + split; [rewrite Hw, Hf; apply Nat.le_refl|].
      rewrite Hw. intros id p [Heq | []]. inversion Heq; subst.
      exists (skuOf (variant e)), st, hd. exact Hin.
  - apply (runScript_Post writesFromMarketplace env (V2.mainBody env fuel) w);
      [apply writesFromMarketplace_app | apply writesFromMarketplace_quiet |].
    apply Post_V2_mainBody;
      [apply writesFromMarketplace_app | apply writesFromMarketplace_quiet |].
    intros e w' h'. split; [|trivial].
    destruct (V2_entry_writes e w' h')
      as [Hnone | (price & st & hd & Hw & Hf & Hin & _)].
    + apply writesFromMarketplace_quiet, Hnone.
    + split; [rewrite Hw, Hf; apply Nat.le_refl|].
      rewrite Hw. intros id p [Heq | []]. inversion Heq; subst.
      exists (skuOf (variant e)), st, hd. exact Hin.
Qed.

(** ** Whole runs on a storefront that serves a catalogue *)

Lemma Measure_fetchedSkus : Measure fetchedSkus.
Proof.
  repeat split; try reflexivity. apply fetchedSkus_app.
Qed.

Lemma Measure_pageReads : Measure pageReads.
Proof.
  repeat split; try reflexivity.
  intros a b. unfold pageReads. rewrite pageRequests_app. apply map_app.
Qed.

Lemma pageReads_length (tr : Trace) :
  length (pageReads tr) = length (pageRequests tr).
Proof. apply length_map. Qed.

Lemma Yields_ret {A X} (mu : Trace -> list X) (w : World) (a : A) :
  Measure mu -> Yields mu w (ret a) a [].
Proof. intros (Hnil & _) h. exists []. split; [reflexivity | exact Hnil]. Qed.

Lemma Yields_log {X} (mu : Trace -> list X) (w : World) (l : LogLine) :
  Measure mu -> Yields mu w (log l) tt [].
Proof.
  intros (_ & _ & Hlog & _) h. exists [EvLog l].
  split; [reflexivity | apply Hlog].
Qed.

Lemma Yields_onIdle {X} (mu : Trace -> list X) (w : World) (q : Queue) :
  Measure mu -> Yields mu w (onIdle q) tt [].
Proof.
  intros (_ & _ & _ & Hidle) h. exists [EvQueueIdle q].
  split; [reflexivity | apply Hidle].
Qed.

Lemma Yields_bind {A B X} (mu : Trace -> list X) (w : World)
    (m : M A) (f : A -> M B) (a : A) (b : B) (out1 out2 : list X) :
  Measure mu ->
  Yields mu w m a out1 -> Yields mu w (f a) b out2 ->
  Yields mu w (bind m f) b (out1 ++ out2).
Proof.
  intros (_ & Happ & _) Hm Hf h.
  destruct (Hm h) as (e1 & H1 & M1).
  destruct (Hf (h ++ e1)) as (e2 & H2 & M2).
  exists (e1 ++ e2). split.
  - rewrite (bind_run m f w h a e1 H1), H2. reflexivity.
  - rewrite Happ, M1, M2. reflexivity.
Qed.

Lemma Yields_forEach {A X} (mu : Trace -> list X) (w : World)
    (xs : list A) (body : A -> M unit) (out : A -> list X) :
  Measure mu ->
  (forall x, In x xs -> Yields mu w (body x) tt (out x)) ->
  Yields mu w (forEach xs body) tt (flat_map out xs).
Proof.
  intros HM. induction xs as [|x xs IH]; intros Hbody;
    cbn [forEach flat_map].
  - apply Yields_ret, HM.
  - apply (Yields_bind mu w (body x) _ tt tt); [exact HM | |].
    + apply Hbody. left. reflexivity.
    + apply IH. intros y Hy. apply Hbody. right. exact Hy.
Qed.

Lemma Yields_out {A X} (mu : Trace -> list X) (w : World) (m : M A)
    (a : A) (out out' : list X) :
  out = out' -> Yields mu w m a out -> Yields mu w m a out'.
Proof. intros ->. trivial. Qed.

Ltac entry_requests_done :=
  eexists; split; [reflexivity|]; split; reflexivity.

Lemma V1_entry_requests (e : Entry) (w : World) (h : Trace) :
  exists evs,
    V1.processVariantEntry e w h = (Ok tt, evs)
    /\ fetchedSkus evs
       = (if isEmpty (skuOf (variant e)) then [] else [skuOf (variant e)])
    /\ pageReads evs = [].
Proof.
  unfold V1.processVariantEntry, V1.fetchMlItem, V1.shopifyPut, V1.priceOf.
  destruct (isEmpty (skuOf (variant e))) eqn:Hsku.
  - unfold ret. entry_requests_done.
  - run_entry. entry_cases w; entry_requests_done.
Qed.

Lemma V2_entry_requests (e : Entry) (w : World) (h : Trace) :
  exists evs,
    V2.processVariantEntry e w h = (Ok tt, evs)
    /\ fetchedSkus evs
       = (if isEmpty (skuOf (variant e)) then [] else [skuOf (variant e)])
    /\ pageReads evs = [].
Proof.
  unfold V2.processVariantEntry, V2.fetchMlItem, V2.shopifyPut, V2.priceOf.
  destruct (isEmpty (skuOf (variant e))) eqn:Hsku.
  - unfold ret. entry_requests_done.
  - run_entry. entry_cases w; entry_requests_done.
Qed.

Lemma lookupsOf_flat_map (entries : list Entry) :
  flat_map (fun e => if isEmpty (skuOf (variant e)) then []
                     else [skuOf (variant e)]) entries
  = lookupsOf entries.
Proof.
  unfold lookupsOf. induction entries as [|e rest IH]; [reflexivity|].
  cbn [flat_map map filter]. rewrite IH. unfold truthyStr at 2.
  destruct (isEmpty (skuOf (variant e))); reflexivity.
Qed.

Lemma flat_map_nil {A B} (xs : list A) :
  flat_map (fun _ : A => @nil B) xs = [].
Proof. induction xs; [reflexivity | exact IHxs]. Qed.

(** The loop over a list of entries: one lookup for each entry with a
    SKU, no page read. *)
Lemma Yields_entries_lookups (w : World) (entries : list Entry)
    (process : Entry -> M unit) :
  (forall e h, exists evs,
      process e w h = (Ok tt, evs)
      /\ fetchedSkus evs
         = (if isEmpty (skuOf (variant e)) then [] else [skuOf (variant e)])
      /\ pageReads evs = []) ->
  Yields fetchedSkus w (forEach entries process) tt (lookupsOf entries)
  /\ Yields pageReads w (forEach entries process) tt [].
Proof.
  intros Hp. split.
  - rewrite <- lookupsOf_flat_map.
    apply Yields_forEach; [apply Measure_fetchedSkus|].
    intros e _ h. destruct (Hp e h) as (evs & H & F & _). eauto.
  - rewrite <- (flat_map_nil entries).
    apply Yields_forEach; [apply Measure_pageReads|].
    intros e _ h. destruct (Hp e h) as (evs & H & _ & R). eauto.
Qed.

Lemma readsOnly_pageReads (tr : Trace) :
  readsOnly tr -> length (pageReads tr) = length tr.
Proof.
  induction 1 as [|ev tr Hev _ IH]; [reflexivity|].
  destruct ev; try contradiction. cbn. f_equal. exact IH.
Qed.

Lemma list_unit_repeat (l : list unit) : l = repeat tt (length l).
Proof. induction l as [|[] l IH]; cbn; congruence. Qed.

(** The targeted lookup on a catalogue: the matching entries, no
    marketplace lookup, every page read. *)
Lemma Yields_findVariantsBySku (w : World) (catalog : list Product)
    (fuel : nat) (targetSku : string) :
  servesCatalog w catalog ->
  ascendingIds catalog ->
  (length catalog / 250 < fuel)%nat ->
  Yields fetchedSkus w (V1.findVariantsBySku fuel targetSku)
         (filter (skuIs targetSku) (entriesOf catalog)) []
  /\ Yields pageReads w (V1.findVariantsBySku fuel targetSku)
            (filter (skuIs targetSku) (entriesOf catalog))
            (repeat tt (S (length catalog / 250))).
Proof.
  intros Hserve Hasc Hfuel. split; intros h;
    destruct (findVariantsBySku_catalog_run w catalog fuel targetSku h
                Hserve Hasc Hfuel) as (evs & Hrun & Hreads & Hcount);
    exists evs; (split; [exact Hrun|]).
  - apply readsOnly_noRequests, Hreads.
  - rewrite (list_unit_repeat (pageReads evs)), pageReads_length, Hcount.
    reflexivity.
Qed.

(** The scan on a catalogue: the scanned entries, no marketplace
    lookup. *)
Lemma Yields_listVariantsBatch (w : World) (catalog : list Product)
    (fuel : nat) (limit : jsint) :
  servesCatalog w catalog ->
  ascendingIds catalog ->
  (length catalog / 250 < fuel)%nat ->
  Yields fetchedSkus w (V1.listVariantsBatch fuel limit)
         (scanResult limit (entriesOf catalog)) [].
Proof.
  intros Hserve Hasc Hfuel h.
  destruct (listVariantsBatch_scan w catalog limit fuel h Hserve Hasc Hfuel)
    as (evs & Hrun).
  exists evs. split; [exact Hrun|].
  pose proof (proj1 (Post_readsOnly_listVariantsBatch_loop fuel limit
                       [] 0%Z w h)) as Hreads.
  unfold V1.listVariantsBatch in Hrun. rewrite Hrun in Hreads.
  apply readsOnly_noRequests, Hreads.
Qed.

(** A script whose body yields ends with status 0. *)
Lemma runScript_Yields {X} (mu : Trace -> list X) (env : Env)
    (body : M unit) (w : World) (out : list X) :
  missing (SHOP env) || missing (SHOPIFY_TOKEN env) = false ->
  Yields mu w body tt out ->
  fst (runScript env body w) = Exited 0
  /\ mu (snd (runScript env body w)) = out.
Proof.
  intros Hcreds Hbody. unfold runScript. rewrite Hcreds.
  destruct (Hbody []) as (evs & -> & Hout). split; [reflexivity | exact Hout].
Qed.

Lemma Yields_readSkuListFile {X} (mu : Trace -> list X) (w : World)
    (env : Env) :
  Measure mu -> skuFileReadable env ->
  Yields mu w (V1.readSkuListFile (sku_list_txt env)) (fileSkus env) [].
Proof.
  intros HM Hfile. unfold fileSkus, V1.readSkuListFile.
  unfold skuFileReadable in Hfile.
  destruct (sku_list_txt env); [| |contradiction]; apply Yields_ret, HM.
Qed.

Lemma Yields_detectSkuList {X} (mu : Trace -> list X) (w : World)
    (env : Env) :
  Measure mu -> skuFileReadable env ->
  Yields mu w (V1.detectSkuList env) (sourceSkus env) [].
Proof.
  intros HM Hfile. unfold V1.detectSkuList, sourceSkus.
  fold (secretSkus env). cbv zeta.
  apply (Yields_bind mu w _ _ (fileSkus env) _ [] []); [exact HM | |].
  { apply Yields_readSkuListFile; assumption. }
  destruct (0 <? length (fileSkus env))%nat.
  - apply (Yields_bind mu w _ _ tt _ [] []); [exact HM | |].
    + apply Yields_log, HM.
    + apply Yields_ret, HM.
  - destruct (negb (missing (env_SKU_LIST env))); [|apply Yields_ret, HM].
    apply (Yields_bind mu w _ _ tt _ [] []); [exact HM | |].
    + destruct (0 <? length (secretSkus env))%nat;
        [apply Yields_log | apply Yields_ret]; exact HM.
    + apply Yields_ret, HM.
Qed.

Lemma Yields_idle_tail {X} (mu : Trace -> list X) (w : World)
    (l : LogLine) :
  Measure mu ->
  Yields mu w (onIdle MlQueue ;; onIdle ShopifyQueue ;; log l) tt [].
Proof.
  intros HM.
  apply (Yields_bind mu w _ _ tt tt [] []); [exact HM | |].
  - apply Yields_onIdle, HM.
  - apply (Yields_bind mu w _ _ tt tt [] []); [exact HM | |].
    + apply Yields_onIdle, HM.
    + apply Yields_log, HM.
Qed.

(** The working set of version 1 run on a catalogue, for either
    measure. *)
Lemma Yields_V1_mainBody {X} (mu : Trace -> list X) (w : World) (env : Env)
    (fuel : nat) (out : list X) :
  Measure mu -> skuFileReadable env ->
  Yields mu w (runWorkingSet fuel (workingSet env)) tt out ->
  Yields mu w (V1.mainBody env fuel) tt out.
Proof.
  intros HM Hfile Hrun h.
  assert (Hall :
            Yields mu w
              (_ <- V1.detectSkuList env ;;
               runWorkingSet fuel (workingSet env) ;;
               onIdle MlQueue ;; onIdle ShopifyQueue ;; log LogSyncFinished)
              tt out).
  { apply (Yields_out mu w _ tt ([] ++ out ++ [])); [apply app_nil_r|].
    apply (Yields_bind mu w _ _ (sourceSkus env) tt); [exact HM | |].
    - apply Yields_detectSkuList; assumption.
    - apply (Yields_bind mu w _ _ tt tt); [exact HM | exact Hrun |].
      apply Yields_idle_tail, HM. }
  rewrite mainBody_runs_workingSet. apply Hall.
Qed.

Lemma Yields_sku_lookup (w : World) (catalog : list Product) (fuel : nat)
    (sku : string) :
  servesCatalog w catalog ->
  ascendingIds catalog ->
  (length catalog / 250 < fuel)%nat ->
  let body :=
    log (LogProcessingSku sku) ;;
    matches <- V1.findVariantsBySku fuel sku ;;
    if (length matches =? 0)%nat then log (LogNoVariants sku)
    else forEach matches V1.processVariantEntry in
  Yields fetchedSkus w body tt
         (lookupsOf (filter (skuIs sku) (entriesOf catalog)))
  /\ Yields pageReads w body tt (repeat tt (S (length catalog / 250))).
Proof.
  intros Hserve Hasc Hfuel body. subst body.
  destruct (Yields_findVariantsBySku w catalog fuel sku Hserve Hasc Hfuel)
    as [Hf Hr].
  destruct (Yields_entries_lookups w (filter (skuIs sku) (entriesOf catalog))
              V1.processVariantEntry (fun e h => V1_entry_requests e w h))
    as [Ef Er].
  split.
  - apply (Yields_bind fetchedSkus w _ _ tt tt [] _ Measure_fetchedSkus);
      [apply Yields_log, Measure_fetchedSkus|].
    apply (Yields_bind fetchedSkus w _ _ _ tt [] _ Measure_fetchedSkus Hf).
    destruct (filter (skuIs sku) (entriesOf catalog)) eqn:E.
    + apply Yields_log, Measure_fetchedSkus.
    + exact Ef.
  - apply (Yields_out pageReads w _ tt
             ([] ++ repeat tt (S (length catalog / 250)) ++ []));
      [cbn [app]; apply app_nil_r|].
    apply (Yields_bind pageReads w _ _ tt tt [] _ Measure_pageReads);
      [apply Yields_log, Measure_pageReads|].
    apply (Yields_bind pageReads w _ _ _ tt _ [] Measure_pageReads Hr).
    destruct (filter (skuIs sku) (entriesOf catalog)) eqn:E.
    + apply Yields_log, Measure_pageReads.
    + exact Er.
Qed.

Lemma flat_map_repeat_length {A} (xs : list A) (k : nat) :
  length (flat_map (fun _ : A => repeat tt k) xs) = (length xs * k)%nat.
Proof.
  induction xs as [|x xs IH]; [reflexivity|].
  cbn [flat_map length]. rewrite length_app, repeat_length, IH. lia.
Qed.

(** X8: a run of version 1 over an explicit SKU list, with
    [sku_list.txt] absent or readable, on a storefront that serves a
    catalogue and whatever the marketplace and the writes answer: it
    exits with status 0; the SKUs are taken in list order,
    each looked up on the marketplace once for every variant that
    carries it and not at all when no variant does; and every SKU of
    the list costs a read of the whole catalogue. *)
Theorem V1_sku_list_run
    (env : Env) (w : World) (catalog : list Product) (fuel : nat) :
  missing (SHOP env) || missing (SHOPIFY_TOKEN env) = false ->
  skuFileReadable env ->
  FULL_SYNC env = false ->
  V1.testSkuFirst (TEST_SKU env) (sourceSkus env) <> [] ->
  servesCatalog w catalog ->
  ascendingIds catalog ->
  (length catalog / 250 < fuel)%nat ->
  fst (V1.main env fuel w) = Exited 0
  /\ fetchedSkus (snd (V1.main env fuel w))
     = flat_map
         (fun sku => lookupsOf (filter (skuIs sku) (entriesOf catalog)))
         (V1.testSkuFirst (TEST_SKU env) (sourceSkus env))
  /\ length (pageRequests (snd (V1.main env fuel w)))
     = (length (V1.testSkuFirst (TEST_SKU env) (sourceSkus env))
        * S (length catalog / 250))%nat.
Proof.
  intros Hcreds Hfile Hfull Hlist Hserve Hasc Hfuel.
  assert (Hws : workingSet env
                = ExplicitSkus (V1.testSkuFirst (TEST_SKU env)
                                                (sourceSkus env))).
  { unfold workingSet. rewrite Hfull.
    destruct (V1.testSkuFirst (TEST_SKU env) (sourceSkus env));
      [contradiction | reflexivity]. }
  set (skuList := V1.testSkuFirst (TEST_SKU env) (sourceSkus env)) in *.
  assert (Hf : Yields fetchedSkus w (V1.mainBody env fuel) tt
                 (flat_map
                    (fun sku =>
                       lookupsOf (filter (skuIs sku) (entriesOf catalog)))
                    skuList)).
  { apply Yields_V1_mainBody; [apply Measure_fetchedSkus | exact Hfile |].
    rewrite Hws. cbn [runWorkingSet].
    apply (Yields_bind fetchedSkus w _ _ tt tt [] _ Measure_fetchedSkus);
      [apply Yields_log, Measure_fetchedSkus|].
    apply Yields_forEach; [apply Measure_fetchedSkus|].
    intros sku _.
    apply (Yields_sku_lookup w catalog fuel sku Hserve Hasc Hfuel). }
  assert (Hr : Yields pageReads w (V1.mainBody env fuel) tt
                 (flat_map (fun _ => repeat tt (S (length catalog / 250)))
                           skuList)).
  { apply Yields_V1_mainBody; [apply Measure_pageReads | exact Hfile |].
    rewrite Hws. cbn [runWorkingSet].
    apply (Yields_bind pageReads w _ _ tt tt [] _ Measure_pageReads);
      [apply Yields_log, Measure_pageReads|].
    apply Yields_forEach; [apply Measure_pageReads|].
    intros sku _.
    apply (Yields_sku_lookup w catalog fuel sku Hserve Hasc Hfuel). }
  unfold V1.main.
  destruct (runScript_Yields fetchedSkus env _ w _ Hcreds Hf) as [Hexit Hfs].
  destruct (runScript_Yields pageReads env _ w _ Hcreds Hr) as [_ Hrs].
  split; [exact Hexit|]. split; [exact Hfs|].
  rewrite <- pageReads_length, Hrs. apply flat_map_repeat_length.
Qed.

(** With [TEST_SKU=T] and [SKU_LIST=A,T,B] on a catalogue with "A" and
    "T": "T" is looked up first, then "A"; "B" is not in the catalogue;
    three SKUs cost three page reads. *)
Lemma V1_sku_list_run_witness :
  fst (V1.main envListT 1 worldAT) = Exited 0
  /\ fetchedSkus (snd (V1.main envListT 1 worldAT))
     = flat_map
         (fun sku => lookupsOf (filter (skuIs sku) (entriesOf catalogAT)))
         (V1.testSkuFirst (TEST_SKU envListT) (sourceSkus envListT))
  /\ length (pageRequests (snd (V1.main envListT 1 worldAT)))
     = (length (V1.testSkuFirst (TEST_SKU envListT) (sourceSkus envListT))
        * S (length catalogAT / 250))%nat.
Proof.
  apply (V1_sku_list_run envListT worldAT catalogAT 1).
  - reflexivity.
  - discriminate.
  - reflexivity.
  - vm_compute. discriminate.
  - intros h since_id. reflexivity.
  - reflexivity.
  - vm_compute. apply Nat.le_refl.
Defined.

(** X9: a run of version 1 that scans the catalogue (full sync, or no
    SKU list and no [TEST_SKU]), with [sku_list.txt] absent or readable,
    on a storefront that serves a catalogue: it exits with status 0
    after one marketplace lookup for each scanned entry that has a SKU,
    in catalogue order; the scan is the whole catalogue under full sync
    and the scan for [BATCH_SIZE] otherwise (everything for a batch size
    of 0 or less or an infinite one, nothing for one that is not a
    number). *)
Theorem V1_scan_run
    (env : Env) (w : World) (catalog : list Product) (fuel : nat) :
  missing (SHOP env) || missing (SHOPIFY_TOKEN env) = false ->
  skuFileReadable env ->
  FULL_SYNC env = true
  \/ V1.testSkuFirst (TEST_SKU env) (sourceSkus env) = [] ->
  servesCatalog w catalog ->
  ascendingIds catalog ->
  (length catalog / 250 < fuel)%nat ->
  fst (V1.main env fuel w) = Exited 0
  /\ fetchedSkus (snd (V1.main env fuel w))
     = lookupsOf
         (scanResult (if FULL_SYNC env then IInt 0 else BATCH_SIZE env)
                     (entriesOf catalog)).
Proof.
  intros Hcreds Hfile Hmode Hserve Hasc Hfuel.
  unfold V1.main. apply (runScript_Yields fetchedSkus); [exact Hcreds|].
  apply Yields_V1_mainBody; [apply Measure_fetchedSkus | exact Hfile |].
  pose proof (fun limit =>
                Yields_listVariantsBatch w catalog fuel limit Hserve Hasc
                                         Hfuel) as Hscan.
  pose proof (fun entries =>
                proj1 (Yields_entries_lookups w entries V1.processVariantEntry
                         (fun e h => V1_entry_requests e w h))) as Hloop.
  unfold workingSet.
  destruct (FULL_SYNC env) eqn:Hfull.
  - cbn [runWorkingSet].
    apply (Yields_bind fetchedSkus w _ _ tt tt [] _ Measure_fetchedSkus);
      [apply Yields_log, Measure_fetchedSkus|].
    apply (Yields_bind fetchedSkus w _ _ _ tt [] _ Measure_fetchedSkus
             (Hscan (IInt 0))).
    apply Hloop.
  - destruct Hmode as [Hmode | Hmode]; [discriminate|].
    rewrite Hmode. cbn [length Nat.ltb Nat.leb runWorkingSet].
    apply (Yields_bind fetchedSkus w _ _ _ tt [] _ Measure_fetchedSkus
             (Hscan (BATCH_SIZE env))).
    apply (Yields_bind fetchedSkus w _ _ tt tt [] _ Measure_fetchedSkus);
      [apply Yields_log, Measure_fetchedSkus|].
    apply Hloop.
Qed.

(** The default run on the catalogue with "A" and "T": both are looked
    up, in catalogue order. *)
Lemma V1_scan_run_witness :
  fst (V1.main baseEnv 1 worldAT) = Exited 0
  /\ fetchedSkus (snd (V1.main baseEnv 1 worldAT))
     = lookupsOf
         (scanResult (if FULL_SYNC baseEnv then IInt 0 else BATCH_SIZE baseEnv)
                     (entriesOf catalogAT)).
Proof.
  apply (V1_scan_run baseEnv worldAT catalogAT 1).
  - reflexivity.
  - discriminate.
  - right. reflexivity.
  - intros h since_id. reflexivity.
  - reflexivity.
  - vm_compute. apply Nat.le_refl.
Defined.

(** X10: a run of version 2 on a storefront that serves a catalogue: it
    exits with status 0; when [TEST_SKU] is set, the variants that carry
    it, anywhere in the catalogue, are looked up first; then come the
    entries of the scan (the whole catalogue under full sync, the scan
    for [BATCH_SIZE] otherwise) that do not carry [TEST_SKU], in
    catalogue order, each entry with a SKU once. *)
Theorem V2_run_on_catalog
    (env : Env) (w : World) (catalog : list Product) (fuel : nat) :
  missing (SHOP env) || missing (SHOPIFY_TOKEN env) = false ->
  servesCatalog w catalog ->
  ascendingIds catalog ->
  (length catalog / 250 < fuel)%nat ->
  fst (V2.main env fuel w) = Exited 0
  /\ fetchedSkus (snd (V2.main env fuel w))
     = (if truthyStr (TEST_SKU env)
        then lookupsOf (filter (skuIs (TEST_SKU env)) (entriesOf catalog))
        else [])
       ++ lookupsOf
            (filteredBatch (TEST_SKU env)
               (scanResult (if FULL_SYNC env then IInt 0 else BATCH_SIZE env)
                           (entriesOf catalog))).
Proof.
  intros Hcreds Hserve Hasc Hfuel.
  unfold V2.main. apply (runScript_Yields fetchedSkus); [exact Hcreds|].
  pose proof (fun entries =>
                proj1 (Yields_entries_lookups w entries V2.processVariantEntry
                         (fun e h => V2_entry_requests e w h))) as Hloop.
  unfold V2.mainBody.
  apply (Yields_bind fetchedSkus w _ _ tt tt _ _ Measure_fetchedSkus).
  - destruct (truthyStr (TEST_SKU env)); [|apply Yields_ret, Measure_fetchedSkus].
    apply (Yields_bind fetchedSkus w _ _ tt tt [] _ Measure_fetchedSkus);
      [apply Yields_log, Measure_fetchedSkus|].
    apply (Yields_bind fetchedSkus w _ _ _ tt [] _ Measure_fetchedSkus
             (proj1 (Yields_findVariantsBySku w catalog fuel (TEST_SKU env)
                       Hserve Hasc Hfuel))).
    destruct (filter (skuIs (TEST_SKU env)) (entriesOf catalog)) eqn:E.
    + apply Yields_log, Measure_fetchedSkus.
    + cbn [length Nat.eqb].
      apply (Yields_bind fetchedSkus w _ _ tt tt [] _ Measure_fetchedSkus);
        [apply Yields_log, Measure_fetchedSkus|].
      apply (Yields_out fetchedSkus w _ tt (lookupsOf (e :: l) ++ []));
        [apply app_nil_r|].
      apply (Yields_bind fetchedSkus w _ _ tt tt _ [] Measure_fetchedSkus);
        [apply Hloop | apply Yields_log, Measure_fetchedSkus].
  - cbv zeta.
    apply (Yields_bind fetchedSkus w _ _ _ tt [] _ Measure_fetchedSkus
             (Yields_listVariantsBatch w catalog fuel _ Hserve Hasc Hfuel)).
    apply (Yields_bind fetchedSkus w _ _ tt tt [] _ Measure_fetchedSkus);
      [apply Yields_log, Measure_fetchedSkus|].
    apply (Yields_out fetchedSkus w _ tt
             (lookupsOf
                (filteredBatch (TEST_SKU env)
                   (scanResult
                      (if FULL_SYNC env then IInt 0 else BATCH_SIZE env)
                      (entriesOf catalog))) ++ []));
      [apply app_nil_r|].
    apply (Yields_bind fetchedSkus w _ _ tt tt _ [] Measure_fetchedSkus);
      [apply Hloop | apply Yields_idle_tail, Measure_fetchedSkus].
Qed.

(** Version 2 with [TEST_SKU=T] and full sync on the catalogue with "A"
    and "T": "T" first, then "A". *)
Lemma V2_run_on_catalog_witness :
  fst (V2.main envFullSyncT 1 worldAT) = Exited 0
  /\ fetchedSkus (snd (V2.main envFullSyncT 1 worldAT))
     = (if truthyStr (TEST_SKU envFullSyncT)
        then lookupsOf (filter (skuIs (TEST_SKU envFullSyncT))
                               (entriesOf catalogAT))
        else [])
       ++ lookupsOf
            (filteredBatch (TEST_SKU envFullSyncT)
               (scanResult (if FULL_SYNC envFullSyncT then IInt 0
                            else BATCH_SIZE envFullSyncT)
                           (entriesOf catalogAT))).
Proof.
  apply (V2_run_on_catalog envFullSyncT worldAT catalogAT 1).
  - reflexivity.
  - intros h since_id. reflexivity.
  - reflexivity.
  - vm_compute. apply Nat.le_refl.
Defined.

(** X11: a [BATCH_SIZE] that is not a number makes the default run do
    nothing, in every world: without a SKU list, [TEST_SKU] and full
    sync, either version ends with status 0 after the log line of an
    empty batch, without a single request (version 1 when
    [sku_list.txt] is absent or readable). *)
Theorem batch_size_not_a_number (env : Env) (fuel : nat) (w : World) :
  missing (SHOP env) || missing (SHOPIFY_TOKEN env) = false ->
  BATCH_SIZE env = INaN ->
  FULL_SYNC env = false ->
  (skuFileReadable env ->
   V1.testSkuFirst (TEST_SKU env) (sourceSkus env) = [] ->
   V1.main env fuel w
   = (Exited 0,
      [EvLog (LogBatchSize 0); EvQueueIdle MlQueue; EvQueueIdle ShopifyQueue;
       EvLog LogSyncFinished]))
  /\
  (truthyStr (TEST_SKU env) = false ->
   V2.main env fuel w
   = (Exited 0,
      [EvLog (LogBatchSizeFiltered 0 INaN false); EvQueueIdle MlQueue;
       EvQueueIdle ShopifyQueue; EvLog LogBatchFinished])).
Proof.
  intros Hcreds Hbatch Hfull. split.
  - intros Hfile Hlist.
    assert (Htest : truthyStr (TEST_SKU env) = false).
    { unfold V1.testSkuFirst in Hlist.
      destruct (truthyStr (TEST_SKU env)); [discriminate | reflexivity]. }
    assert (Hsrc : sourceSkus env = []).
    { unfold V1.testSkuFirst in Hlist. rewrite Htest in Hlist. exact Hlist. }
    unfold V1.main, runScript. rewrite Hcreds.
    rewrite mainBody_runs_workingSet.
    assert (Hd : V1.detectSkuList env w [] = (Ok (sourceSkus env), [])).
    { assert (Hread : V1.readSkuListFile (sku_list_txt env) w []
                      = (Ok (fileSkus env), [])).
      { unfold fileSkus, V1.readSkuListFile.
        unfold skuFileReadable in Hfile.
        destruct (sku_list_txt env);
          [reflexivity | reflexivity | contradiction]. }
      unfold V1.detectSkuList. rewrite (bind_run _ _ w [] _ [] Hread).
      unfold sourceSkus in Hsrc |- *. fold (secretSkus env) in Hsrc |- *.
      cbv zeta in Hsrc |- *.
      destruct (0 <? length (fileSkus env))%nat eqn:E.
      - rewrite Hsrc in E. discriminate E.
      - destruct (negb (missing (env_SKU_LIST env))); [|reflexivity].
        rewrite Hsrc. reflexivity. }
    rewrite (bind_run _ _ w [] _ [] Hd).
    unfold workingSet. rewrite Hfull, Hlist, Hbatch.
    change (0 <? length (@nil string))%nat with false.
    cbn iota. unfold runWorkingSet.
    assert (Hinner :
              (batch <- V1.listVariantsBatch fuel INaN ;;
               log (LogBatchSize (length batch)) ;;
               forEach batch V1.processVariantEntry) w ([] ++ [])
              = (Ok tt, [EvLog (LogBatchSize 0)])).
    { rewrite (bind_run _ _ w _ [] []
                 (listVariantsBatch_loop_capped fuel INaN [] 0%Z w _ eq_refl)).
      reflexivity. }
    rewrite (bind_run _ _ w _ tt _ Hinner). reflexivity.
  - intros Htest. unfold V2.main, runScript. rewrite Hcreds.
    unfold V2.mainBody. rewrite Htest, Hfull, Hbatch.
    rewrite (bind_run (ret tt) _ w [] tt [] eq_refl).
    rewrite (bind_run (V2.listVariantsBatch fuel INaN) _ w _ [] []
               (listVariantsBatch_loop_capped fuel INaN [] 0%Z w _ eq_refl)).
    reflexivity.
Qed.

(** [BATCH_SIZE=abc]: nothing is read, fetched or written. *)
Lemma batch_size_not_a_number_witness :
  V1.main envBadBatch 0 flakyWorld
  = (Exited 0,
     [EvLog (LogBatchSize 0); EvQueueIdle MlQueue; EvQueueIdle ShopifyQueue;
      EvLog LogSyncFinished]).
Proof.
  apply (proj1 (batch_size_not_a_number envBadBatch 0 flakyWorld
                  eq_refl eq_refl eq_refl)).
  - discriminate.
  - reflexivity.
Defined.

(** ** The SKUs the script compares *)

Lemma trimEnd_idempotent (s : string) : trimEnd (trimEnd s) = trimEnd s.
Proof.
  induction s as [|c r IH]; [reflexivity|].
  cbn [trimEnd].
  destruct (isWhiteSpace c && isEmpty (trimEnd r)) eqn:E; [reflexivity|].
  cbn [trimEnd]. rewrite IH, E. reflexivity.
Qed.

Lemma trimStart_head (s : string) :
  trimStart s = ""
  \/ exists c r, trimStart s = String c r /\ isWhiteSpace c = false.
Proof.
  induction s as [|c r IH]; [left; reflexivity|].
  cbn [trimStart]. destruct (isWhiteSpace c) eqn:E; [exact IH|].
  right. exists c, r. auto.
Qed.

Lemma trim_idempotent (s : string) : trim (trim s) = trim s.
Proof.
  unfold trim. destruct (trimStart_head s) as [-> | (c & r & -> & Hc)];
    [reflexivity|].
  cbn [trimEnd]. rewrite Hc. cbn [andb trimStart]. rewrite Hc.
  cbn [trimEnd]. rewrite Hc, trimEnd_idempotent. reflexivity.
Qed.

Lemma filter_filter_and {A} (f g : A -> bool) (l : list A) :
  filter g (filter f l) = filter (fun x => f x && g x) l.
Proof.
  induction l as [|x l IH]; [reflexivity|].
  cbn [filter]. destruct (f x); cbn [filter andb]; rewrite IH; reflexivity.
Qed.

(** *** Lines of a file *)

Lemma string_app_nil_r (s : string) : (s ++ "")%string = s.
Proof. induction s as [|c r IH]; cbn; congruence. Qed.

Lemma string_app_assoc (a b c : string) :
  ((a ++ b) ++ c)%string = (a ++ b ++ c)%string.
Proof. induction a as [|x a IH]; cbn; congruence. Qed.

Lemma trimEnd_fixed_endsWithCR (s : string) :
  trimEnd s = s -> endsWithCR s = false.
Proof.
  induction s as [|c r IH]; [reflexivity|].
  cbn [trimEnd]. intros H.
  destruct (isWhiteSpace c && isEmpty (trimEnd r)) eqn:E; [discriminate H|].
  inversion H as [Hr]. rewrite Hr in E. rewrite Hr.
  destruct r as [|c' r']; [|apply IH, Hr].
  cbn [endsWithCR]. cbn [isEmpty] in E. rewrite andb_true_r in E.
  destruct (Ascii.eqb c CR) eqn:Ec; [|reflexivity].
  apply Ascii.eqb_eq in Ec. subst c. discriminate E.
Qed.

Lemma cleanSku_endsWithCR (s : string) : cleanSku s -> endsWithCR s = false.
Proof.
  intros [_ Ht]. apply trimEnd_fixed_endsWithCR.
  rewrite <- Ht. unfold trim. apply trimEnd_idempotent.
Qed.

(** A line without a line feed, and without a carriage return at its
    end, is found again in front of the end of line that follows it. *)
Lemma splitLines_line (l rest eol : string) :
  eol = eolLF \/ eol = eolCRLF ->
  noLineFeed l = true -> endsWithCR l = false ->
  splitLines (l ++ eol ++ rest)%string = l :: splitLines rest.
Proof.
  intros Heol. induction l as [|c r IH]; intros Hlf Hcr.
  - destruct Heol as [-> | ->]; reflexivity.
  - cbn [noLineFeed] in Hlf. apply andb_true_iff in Hlf as [Hc Hr].
    apply negb_true_iff in Hc.
    change (String c r ++ eol ++ rest)%string
      with (String c (r ++ eol ++ rest)%string).
    cbn [splitLines]. rewrite Hc.
    destruct r as [|c' r'].
    + cbn [endsWithCR] in Hcr.
      destruct Heol as [-> | ->]; cbn; cbn in Hcr; rewrite ?Hcr;
        reflexivity.
    + assert (Hc' : Ascii.eqb c' LF = false).
      { cbn [noLineFeed] in Hr. apply andb_true_iff in Hr as [Hr _].
        apply negb_true_iff, Hr. }
      change (String c' r' ++ eol ++ rest)%string
        with (String c' (r' ++ eol ++ rest)%string) in *.
      cbv iota. rewrite Hc', andb_false_r.
      rewrite (IH Hr Hcr). reflexivity.
Qed.

Lemma splitLines_last (l : string) :
  noLineFeed l = true -> splitLines l = [l].
Proof.
  induction l as [|c r IH]; intros Hlf; [reflexivity|].
  cbn [noLineFeed] in Hlf. apply andb_true_iff in Hlf as [Hc Hr].
  apply negb_true_iff in Hc. cbn [splitLines]. rewrite Hc, (IH Hr).
  destruct r as [|c' r']; [reflexivity|].
  cbn [noLineFeed] in Hr. apply andb_true_iff in Hr as [Hc' _].
  apply negb_true_iff in Hc'. rewrite Hc', andb_false_r. reflexivity.
Qed.

Lemma splitLines_concat (eol : string) (lines : list string) :
  eol = eolLF \/ eol = eolCRLF ->
  lines <> [] ->
  Forall (fun l => noLineFeed l = true /\ endsWithCR l = false) lines ->
  splitLines (String.concat eol lines) = lines.
Proof.
  intros Heol. induction lines as [|l rest IH]; intros Hne Hall;
    [contradiction|].
  inversion Hall as [|l' rest' [Hlf Hcr] Hrest]; subst.
  destruct rest as [|l2 rest2].
  - cbn [String.concat]. apply splitLines_last, Hlf.
  - change (String.concat eol (l :: l2 :: rest2))
      with (l ++ eol ++ String.concat eol (l2 :: rest2))%string.
    rewrite (splitLines_line l _ eol Heol Hlf Hcr).
    f_equal. apply IH; [discriminate | exact Hrest].
Qed.

Lemma splitLines_concat_eol (eol : string) (lines : list string) :
  eol = eolLF \/ eol = eolCRLF ->
  lines <> [] ->
  Forall (fun l => noLineFeed l = true /\ endsWithCR l = false) lines ->
  splitLines (String.concat eol lines ++ eol)%string = lines ++ [""].
Proof.
  intros Heol. induction lines as [|l rest IH]; intros Hne Hall;
    [contradiction|].
  inversion Hall as [|l' rest' [Hlf Hcr] Hrest]; subst.
  destruct rest as [|l2 rest2].
  - cbn [String.concat app].
    replace (l ++ eol)%string with (l ++ eol ++ "")%string
      by (rewrite string_app_nil_r; reflexivity).
    rewrite (splitLines_line l "" eol Heol Hlf Hcr). reflexivity.
  - change (String.concat eol (l :: l2 :: rest2) ++ eol)%string
      with ((l ++ eol ++ String.concat eol (l2 :: rest2)) ++ eol)%string.
    rewrite !string_app_assoc.
    rewrite (splitLines_line l _ eol Heol Hlf Hcr).
    cbn [app]. f_equal. apply IH; [discriminate | exact Hrest].
Qed.

(** X12: the SKUs the script works with are clean, and [sku_list.txt]
    is read in the order it is written.  A missing file gives no SKU;
    a file gives, in the order of its lines and with their repetitions,
    the trimmed lines that are not empty and are no comment, each of
    them clean; a file written one SKU per line, with either end of
    line, reads back as the list that was written.  Every SKU read from
    [SKU_LIST] is not empty and trimmed; [TEST_SKU] and the SKU of a
    variant are compared trimmed. *)
Theorem sku_sources_are_clean (env : Env) (raw : string) :
  (forall w h, V1.readSkuListFile NoFile w h = (Ok [], []))
  /\ (forall w h,
        V1.readSkuListFile (FileText raw) w h
        = (Ok (filter skuLine (map trim (splitLines raw))), []))
  /\ Forall (fun s => cleanSku s /\ startsWith "#" s = false)
            (V1.skuLines raw)
  /\ (forall eol skus,
        eol = eolLF \/ eol = eolCRLF ->
        Forall listableSku skus ->
        V1.skuLines (String.concat eol skus) = skus
        /\ V1.skuLines (String.concat eol skus ++ eol)%string = skus)
  /\ Forall cleanSku (secretSkus env)
  /\ trim (TEST_SKU env) = TEST_SKU env
  /\ (forall v, trim (skuOf v) = skuOf v).
Proof.
  assert (Hfuse : forall text,
             V1.skuLines text = filter skuLine (map trim (splitLines text))).
  { intros text. unfold V1.skuLines. apply filter_filter_and. }
  assert (Hkeep : forall skus,
             Forall listableSku skus ->
             filter skuLine (map trim skus) = skus).
  { intros skus Hall. induction Hall as [|s rest [[Ht Htrim] [Hc _]] _ IH];
      [reflexivity|].
    cbn [map filter]. rewrite Htrim. unfold skuLine at 1.
    rewrite Ht, Hc. cbn [negb andb]. f_equal. exact IH. }
  assert (Hlines : forall skus,
             Forall listableSku skus ->
             Forall (fun l => noLineFeed l = true /\ endsWithCR l = false)
                    skus).
  { intros skus Hall. eapply Forall_impl; [|exact Hall].
    intros s [Hclean [_ Hlf]]. split; [exact Hlf|].
    apply cleanSku_endsWithCR, Hclean. }
  split; [reflexivity|]. split; [|split; [|split; [|split; [|split]]]].
  - intros w h. unfold V1.readSkuListFile, ret. rewrite Hfuse. reflexivity.
  - rewrite Hfuse. apply Forall_forall. intros s Hs.
    apply filter_In in Hs as [Hs Hk]. apply in_map_iff in Hs as (l & <- & _).
    unfold skuLine in Hk. apply andb_true_iff in Hk as [Ht Hc].
    split; [split; [exact Ht | apply trim_idempotent]|].
    apply negb_true_iff, Hc.
  - intros eol skus Heol Hall. rewrite !Hfuse.
    destruct skus as [|s0 rest].
    + cbn [String.concat]. destruct Heol as [-> | ->]; split; reflexivity.
    + assert (Hne : s0 :: rest <> []) by discriminate.
      split.
      * rewrite (splitLines_concat eol _ Heol Hne (Hlines _ Hall)).
        apply Hkeep, Hall.
      * pose proof (splitLines_concat_eol eol _ Heol Hne (Hlines _ Hall))
          as Hsplit.
        rewrite Hsplit, map_app, filter_app.
        change (filter skuLine (map trim [""])) with (@nil string).
        rewrite app_nil_r. apply Hkeep, Hall.
  - unfold secretSkus, cleanSku. apply Forall_forall. intros s Hs.
    apply filter_In in Hs as [Hs Ht]. apply in_map_iff in Hs as (x & <- & _).
    split; [exact Ht | apply trim_idempotent].
  - apply trim_idempotent.
  - intros v. apply trim_idempotent.
Qed.

(** A file of three lines, a comment among them, with Windows ends of
    line: the two SKUs, in the order of the file. *)
Lemma sku_sources_are_clean_witness :
  V1.skuLines (String.concat eolCRLF ["B-2"; "A-1"; "B-2"])
  = ["B-2"; "A-1"; "B-2"].
Proof.
  apply (proj1 (proj2 (proj2 (proj2 (sku_sources_are_clean baseEnv "")))))
    with (eol := eolCRLF).
  - right. reflexivity.
  - repeat constructor.
Defined.

(** ** [TEST_SKU] in front of the list *)

Lemma filter_filter_same {A} (f : A -> bool) (l : list A) :
  filter f (filter f l) = filter f l.
Proof.
  induction l as [|x l IH]; [reflexivity|].
  cbn [filter]. destruct (f x) eqn:E; [|exact IH].
  cbn [filter]. rewrite E, IH. reflexivity.
Qed.

(** X13: lines 182-185 move [TEST_SKU] and keep the rest.  With a
    [TEST_SKU], the new list has the SKUs of the old one plus
    [TEST_SKU] and no other, the other SKUs keep their order and their
    repetitions, and doing it twice changes nothing more; without
    [TEST_SKU] the list is left as it is. *)
Theorem testSkuFirst_keeps_the_rest (testSku : string)
    (skuList : list string) :
  (truthyStr testSku = false -> V1.testSkuFirst testSku skuList = skuList)
  /\
  (truthyStr testSku = true ->
   (forall s, In s (V1.testSkuFirst testSku skuList)
              <-> s = testSku \/ In s skuList)
   /\ filter (fun s => negb (String.eqb s testSku))
             (V1.testSkuFirst testSku skuList)
      = filter (fun s => negb (String.eqb s testSku)) skuList
   /\ V1.testSkuFirst testSku (V1.testSkuFirst testSku skuList)
      = V1.testSkuFirst testSku skuList).
Proof.
  unfold V1.testSkuFirst. split; intros Ht; rewrite Ht; [reflexivity|].
  split; [|split].
  - intros s. cbn [In]. rewrite filter_In. split.
    + intros [<- | [Hin _]]; auto.
    + intros [-> | Hin]; [left; reflexivity|].
      destruct (String.eqb s testSku) eqn:E.
      * left. symmetry. apply String.eqb_eq, E.
      * right. auto.
  - cbn [filter]. rewrite String.eqb_refl. cbn [negb].
    apply filter_filter_same.
  - f_equal. cbn [filter]. rewrite String.eqb_refl. cbn [negb].
    apply filter_filter_same.
Qed.

Lemma testSkuFirst_keeps_the_rest_witness :
  filter (fun s => negb (String.eqb s "T")) (V1.testSkuFirst "T" ["A"; "T"; "B"])
  = filter (fun s => negb (String.eqb s "T")) ["A"; "T"; "B"].
Proof.
  apply (proj2 (testSkuFirst_keeps_the_rest "T" ["A"; "T"; "B"]) eq_refl).
Defined.

(** ** Configuration values *)

(** X14: configuration values that are unset, empty or blank fall back
    to the defaults.  [FULL_SYNC] is on exactly when the variable is the
    word "true" in any letter case; [TEST_SKU] counts as not set exactly
    when the variable is unset or made of white space only; [BATCH_SIZE]
    is 200 when the variable is unset or empty. *)
Theorem configuration_defaults (env : Env) :
  (FULL_SYNC env = true <->
   exists s, env_FULL_SYNC env = Some s /\ toLowerCase s = "true")
  /\
  (truthyStr (TEST_SKU env) = false <->
   env_TEST_SKU env = None
   \/ exists s, env_TEST_SKU env = Some s /\ allWhiteSpace s = true)
  /\
  (env_BATCH_SIZE env = None \/ env_BATCH_SIZE env = Some "" ->
   BATCH_SIZE env = IInt 200).
Proof.
  split; [|split].
  - unfold FULL_SYNC, orDefault. rewrite String.eqb_eq.
    destruct (env_FULL_SYNC env) as [s|].
    + destruct s as [|c r]; cbn [truthyStr isEmpty negb].
      * split; [discriminate|]. intros (s & Hs & Hl).
        inversion Hs; subst. discriminate Hl.
      * split; [intros H; eexists; split; [reflexivity | exact H]|].
        intros (s & Hs & Hl). inversion Hs; subst. exact Hl.
    + split; [discriminate|]. intros (s & Hs & _). discriminate Hs.
  - unfold TEST_SKU, orDefault, truthyStr. rewrite negb_false_iff.
    assert (Hempty : forall s, isEmpty s = true <-> s = "").
    { intros s. destruct s; split; try reflexivity; discriminate. }
    rewrite Hempty, trim_empty_iff.
    destruct (env_TEST_SKU env) as [s|].
    + destruct (negb (isEmpty s)) eqn:E.
      * split; [intros H; right; exists s; auto|].
        intros [H | (s' & Hs & Hw)]; [discriminate|].
        inversion Hs; subst. exact Hw.
      * apply negb_false_iff, Hempty in E. subst s.
        split; [intros _; right; exists ""; auto | reflexivity].
    + split; [auto | reflexivity].
  - intros [H | H]; unfold BATCH_SIZE; rewrite H; reflexivity.
Qed.

Lemma configuration_defaults_witness : BATCH_SIZE baseEnv = IInt 200.
Proof.
  apply (proj2 (proj2 (configuration_defaults baseEnv))).
  left. reflexivity.
Defined.

(** ** Missing credentials *)

Lemma pageRequests_nil_clean (tr : Trace) :
  pageRequests tr = [] -> clean tr = true.
Proof.
  induction tr as [|ev tr IH]; [reflexivity|].
  destruct ev; cbn; try exact IH. discriminate.
Qed.

(** X15: without the shop domain or the storefront token a run of
    either version does nothing but log and exit with status 1.  With
    them, a [sku_list.txt] that cannot be read ends version 1 with the
    [Fatal] line and status 1 before any request.  And these are the
    only runs that exit with status 1 without having read a catalogue
    page: in version 2, which reads no file, such a run has no
    credentials. *)
Theorem missing_credentials_stop_the_run
    (env : Env) (fuel : nat) (w : World) :
  (missing (SHOP env) || missing (SHOPIFY_TOKEN env) = true ->
   V1.main env fuel w = (Exited 1, [EvLog LogMissingCredentials])
   /\ V2.main env fuel w = (Exited 1, [EvLog LogMissingCredentials]))
  /\
  (missing (SHOP env) || missing (SHOPIFY_TOKEN env) = false ->
   sku_list_txt env = Unreadable ->
   V1.main env fuel w
   = (Exited 1, [EvLog (LogFatal (plainError MsgReadFile))]))
  /\
  (forall tr,
      V1.main env fuel w = (Exited 1, tr) ->
      pageRequests tr = [] ->
      missing (SHOP env) || missing (SHOPIFY_TOKEN env) = true
      \/ sku_list_txt env = Unreadable)
  /\
  (forall tr,
      V2.main env fuel w = (Exited 1, tr) ->
      pageRequests tr = [] ->
      missing (SHOP env) || missing (SHOPIFY_TOKEN env) = true).
Proof.
  split; [|split; [|split]].
  - intros H. unfold V1.main, V2.main, runScript. rewrite H.
    split; reflexivity.
  - intros Hcreds Hfile. apply V1_main_unreadable; assumption.
  - intros tr Hrun Hreq. apply pageRequests_nil_clean in Hreq.
    destruct (skuFileReadable_dec env) as [Hfile | Hfile]; [|auto].
    destruct (main_exit_1 env _ w tr (Inv_V1_mainBody env fuel Hfile) Hrun)
      as [H | H]; [left; exact H | congruence].
  - intros tr Hrun Hreq. apply pageRequests_nil_clean in Hreq.
    destruct (main_exit_1 env _ w tr (Inv_V2_mainBody env fuel) Hrun)
      as [H | H]; [exact H | congruence].
Qed.

(** No credentials at all; and credentials with a [sku_list.txt] that
    cannot be read. *)
Lemma missing_credentials_witness :
  (V1.main (mkEnv None None None None None None None NoFile) 1 flakyWorld
   = (Exited 1, [EvLog LogMissingCredentials])
   /\ V2.main (mkEnv None None None None None None None NoFile) 1 flakyWorld
      = (Exited 1, [EvLog LogMissingCredentials]))
  /\ V1.main envUnreadable 1 flakyWorld
     = (Exited 1, [EvLog (LogFatal (plainError MsgReadFile))]).
Proof.
  split.
  - apply (proj1 (missing_credentials_stop_the_run
                    (mkEnv None None None None None None None NoFile)
                    1 flakyWorld)).
    reflexivity.
  - apply (proj1 (proj2 (missing_credentials_stop_the_run
                           envUnreadable 1 flakyWorld)));
      reflexivity.
Defined.

(** ** Edges of the change detector *)

Lemma one_eq : one = S754_finite false 4503599627370496 (-52).
Proof. vm_compute. reflexivity. Qed.

Lemma threshold_eq : threshold = S754_finite false 5764607523034235 (-59).
Proof. vm_compute. reflexivity. Qed.

Lemma bounded_inv (m : positive) (e : Z) :
  bounded prec64 emax64 m e = true ->
  (Z.max (Zpos (digits2_pos m) + e - 53) (-1074) = e /\ e <= 971)%Z.
Proof.
  unfold bounded, canonical_mantissa, fexp, emin, prec64, emax64.
  intros H. apply andb_true_iff in H as [H1 H2].
  apply Z.eqb_eq in H1. apply Z.leb_le in H2. split; [exact H1 | exact H2].
Qed.

(** Rounding leaves a mantissa in binary64 form as it is. *)
Lemma round_exact (sx : bool) (m : positive) (e : Z) :
  bounded prec64 emax64 m e = true ->
  binary_round_aux prec64 emax64 sx (Zpos m) e loc_Exact = S754_finite sx m e.
Proof.
  intros Hb. destruct (bounded_inv m e Hb) as [Hcan Hle].
  unfold binary_round_aux, shr_fexp. cbn [Zdigits2].
  assert (Hf : (fexp prec64 emax64 (Zpos (digits2_pos m) + e) - e = 0)%Z).
  { unfold fexp, emin, prec64, emax64. lia. }
  rewrite Hf. cbn [shr shr_record_of_loc shr_m loc_of_shr_record
                     round_nearest_even Zdigits2].
  rewrite Hf. cbn [shr shr_record_of_loc shr_m].
  replace (e <=? emax64 - prec64)%Z with true; [reflexivity|].
  symmetry. apply Z.leb_le. unfold emax64, prec64. lia.
Qed.

(** The same mantissa with one more binary digit and the exponent
    below. *)
Lemma round_exact_shift (sx : bool) (m : positive) (e : Z) :
  bounded prec64 emax64 m e = true ->
  Zpos (digits2_pos m) = 53%Z -> (-1074 < e)%Z ->
  binary_round_aux prec64 emax64 sx (Zpos m~0) (e - 1) loc_Exact
  = S754_finite sx m e.
Proof.
  intros Hb Hd He. destruct (bounded_inv m e Hb) as [Hcan Hle].
  unfold binary_round_aux, shr_fexp. cbn [Zdigits2 digits2_pos].
  rewrite Pos2Z.inj_succ.
  assert (Hf : (fexp prec64 emax64
                  (Z.succ (Zpos (digits2_pos m)) + (e - 1)) - (e - 1) = 1)%Z).
  { unfold fexp, emin, prec64, emax64. lia. }
  rewrite Hf. cbn [shr shr_record_of_loc shr_m loc_of_shr_record
                     round_nearest_even Zdigits2 iter_pos shr_1 orb].
  assert (Hf2 : (fexp prec64 emax64 (Zpos (digits2_pos m) + (e - 1 + 1))
                 - (e - 1 + 1) = 0)%Z).
  { unfold fexp, emin, prec64, emax64. lia. }
  rewrite Hf2. cbn [shr shr_record_of_loc shr_m].
  replace (e - 1 + 1)%Z with e by lia.
  replace (e <=? emax64 - prec64)%Z with true; [reflexivity|].
  symmetry. apply Z.leb_le. unfold emax64, prec64. lia.
Qed.

Lemma div_eucl_mul (x b : Z) :
  (0 < b)%Z -> Z.div_eucl (x * b) b = (x, 0%Z).
Proof.
  intros Hb.
  pose proof (Z.div_mul x b ltac:(lia)) as Hq.
  pose proof (Z.mod_mul x b ltac:(lia)) as Hr.
  unfold Z.div, Z.modulo in Hq, Hr.
  destruct (Z.div_eucl (x * b) b) as [q r]. subst. reflexivity.
Qed.

(** Dividing a binary64 number by 1 gives the number. *)
Lemma num_div_one (sx : bool) (m : positive) (e : Z) :
  bounded prec64 emax64 m e = true ->
  num_div (S754_finite sx m e) one = S754_finite sx m e.
Proof.
  intros Hb. destruct (bounded_inv m e Hb) as [Hcan Hle].
  rewrite one_eq. unfold num_div, SFdiv. rewrite xorb_false_r.
  unfold SFdiv_core_binary.
  change (Zdigits2 4503599627370496) with 53%Z.
  cbn [Zdigits2].
  destruct (Z_lt_le_dec (-1074) e) as [He | He].
  - assert (Hd : Zpos (digits2_pos m) = 53%Z) by lia.
    assert (He' : Z.min (fexp prec64 emax64
                           (Zpos (digits2_pos m) + e - (53 + -52)))
                        (e - -52)
                  = (e - 1)%Z).
    { unfold fexp, emin, prec64, emax64. lia. }
    rewrite He'. replace (e - -52 - (e - 1))%Z with 53%Z by lia.
    rewrite Z.shiftl_mul_pow2 by lia.
    replace (Zpos m * 2 ^ 53)%Z with (Zpos m~0 * 4503599627370496)%Z
      by (change (2 ^ 53)%Z with (2 * 4503599627370496)%Z; lia).
    rewrite div_eucl_mul by reflexivity.
    change (new_location 4503599627370496 0) with loc_Exact.
    apply round_exact_shift; assumption.
  - assert (He' : Z.min (fexp prec64 emax64
                           (Zpos (digits2_pos m) + e - (53 + -52)))
                        (e - -52)
                  = e).
    { unfold fexp, emin, prec64, emax64. lia. }
    rewrite He'. replace (e - -52 - e)%Z with 52%Z by lia.
    rewrite Z.shiftl_mul_pow2 by lia.
    change (2 ^ 52)%Z with 4503599627370496%Z.
    rewrite div_eucl_mul by reflexivity.
    change (new_location 4503599627370496 0) with loc_Exact.
    apply round_exact, Hb.
Qed.

(** A number minus itself is zero. *)
Lemma num_sub_same (sx : bool) (m : positive) (e : Z) :
  num_sub (S754_finite sx m e) (S754_finite sx m e) = S754_zero false.
Proof.
  unfold num_sub, SFsub. rewrite Z.sub_diag. reflexivity.
Qed.

(** Rounding keeps the sign it is given. *)
Lemma round_sign (sx : bool) (mx ex : Z) (lx : location) :
  binary_round_aux prec64 emax64 sx mx ex lx = S754_zero sx
  \/ binary_round_aux prec64 emax64 sx mx ex lx = S754_nan
  \/ binary_round_aux prec64 emax64 sx mx ex lx = S754_infinity sx
  \/ exists m e,
       binary_round_aux prec64 emax64 sx mx ex lx = S754_finite sx m e.
Proof.
  unfold binary_round_aux.
  destruct (shr_fexp prec64 emax64 mx ex lx) as [mrs1 e1].
  destruct (shr_fexp prec64 emax64 _ e1 loc_Exact) as [mrs2 e2].
  destruct (shr_m mrs2) as [|p|p]; [auto | | auto].
  destruct (e2 <=? emax64 - prec64)%Z; [|auto].
  right. right. right. eauto.
Qed.

(** A quotient by a number below zero is never above the threshold. *)
Lemma quotient_by_negative (y d : num) :
  isNegative d = true ->
  num_gt (num_div (num_abs y) d) threshold = false.
Proof.
  intros Hd. rewrite threshold_eq.
  destruct d as [sd|sd| |sd md ed]; try discriminate Hd;
    destruct sd; try discriminate Hd;
    destruct y as [sy|sy| |sy my ey]; try reflexivity.
  unfold num_div, num_abs, SFabs, SFdiv.
  destruct (SFdiv_core_binary prec64 emax64 (Zpos my) ey (Zpos md) ed)
    as [[mz ez] lz].
  cbn [xorb].
  destruct (round_sign true mz ez lz)
    as [-> | [-> | [-> | (m & e & ->)]]]; reflexivity.
Qed.

(** X16: edges of [needsUpdate], in binary64.  A price compared with
    itself never needs an update, whatever it is; a storefront price
    below zero, or an infinite one, is never updated, whatever the
    marketplace price; a storefront price that is a zero, of either
    sign, so also one too small to be anything else, is updated exactly
    when the absolute value of the marketplace price is above the
    number nearest to 0.01. *)
Theorem needsUpdate_edges :
  (forall v, V1.needsUpdate v v = false)
  /\
  (forall s m,
      isNegative (parseFloat s) = true
      \/ isInfinite (parseFloat s) = true ->
      V1.needsUpdate s m = false)
  /\
  (forall s m,
      isZero (parseFloat s) = true ->
      isBinary64 (parseFloat m) = true ->
      V1.needsUpdate s m = num_gt (num_abs (parseFloat m)) threshold).
Proof.
  split; [|split].
  - intros v. unfold V1.needsUpdate.
    destruct (parseFloat v) as [sx|sx| |sx mx ex]; try reflexivity.
    + destruct sx; reflexivity.
    + destruct sx; reflexivity.
    + cbn [isNaN orb truthyNum]. rewrite num_sub_same.
      rewrite threshold_eq. destruct sx; reflexivity.
  - intros s m Hs. unfold V1.needsUpdate.
    destruct (isNaN (parseFloat m)) eqn:Hm; [reflexivity|].
    destruct Hs as [Hs | Hs].
    + destruct (isNaN (parseFloat s)) eqn:Hn.
      { destruct (parseFloat s); discriminate. }
      cbn [orb].
      replace (truthyNum (parseFloat s)) with true
        by (destruct (parseFloat s) as [| | |[] ? ?]; try discriminate Hs;
            reflexivity).
      apply quotient_by_negative, Hs.
    + destruct (parseFloat s) as [|ss| |]; try discriminate Hs.
      cbn [isNaN orb truthyNum]. rewrite threshold_eq.
      destruct (parseFloat m) as [sm|sm| |sm mm em]; try discriminate Hm;
        destruct ss; try destruct sm; reflexivity.
  - intros s m Hs Hm. unfold V1.needsUpdate.
    destruct (parseFloat s) as [ss| | |]; try discriminate Hs.
    cbn [isNaN truthyNum]. rewrite orb_false_r.
    destruct (parseFloat m) as [sm|sm| |sm mm em]; cbn [isNaN].
    + rewrite threshold_eq. destruct ss, sm; reflexivity.
    + rewrite threshold_eq. destruct ss, sm; reflexivity.
    + reflexivity.
    + replace (num_sub (S754_finite sm mm em) (S754_zero ss))
        with (S754_finite sm mm em) by reflexivity.
      cbn [num_abs SFabs]. rewrite num_div_one; [reflexivity|].
      exact Hm.
Qed.

(** A price against itself; a negative storefront price; a storefront
    price that underflows to the negative zero, which is updated; and a
    marketplace price that rounds to the threshold, which is not above
    it. *)
Lemma needsUpdate_edges_witness :
  V1.needsUpdate (JStr "-5") (JStr "10") = false
  /\ V1.needsUpdate (JStr "-1e-400") (JStr "5") = true
  /\ V1.needsUpdate (JStr "0") (JStr "0.010000000000000001") = false.
Proof.
  split; [|split].
  - apply (proj1 (proj2 needsUpdate_edges) (JStr "-5") (JStr "10")).
    left. reflexivity.
  - rewrite (proj2 (proj2 needsUpdate_edges) (JStr "-1e-400") (JStr "5")
               eq_refl eq_refl).
    vm_compute. reflexivity.
  - rewrite (proj2 (proj2 needsUpdate_edges)
               (JStr "0") (JStr "0.010000000000000001") eq_refl eq_refl).
    vm_compute. reflexivity.
Defined.

(** ** The marketplace fetch *)

(** X17: [fetchMlItem] makes one request and sorts the answer.  It
    returns the item exactly when the status is a success and the body
    parses; otherwise it throws, and the error carries a code exactly
    when the status is 429, 404 or 403, the status itself, and a
    [retryAfter] only with the code 429. *)
Theorem fetchMlItem_classifies (itemId : string) (w : World) (h : Trace) :
  snd (V1.fetchMlItem itemId w h)
  = [EvMlGet itemId (marketplace_get w h itemId)]
  /\ fst (V1.fetchMlItem itemId w h) <> OutOfFuel
  /\ (forall item,
        fst (V1.fetchMlItem itemId w h) = Ok item <->
        exists status header,
          marketplace_get w h itemId = Response status header (Some item)
          /\ statusOk status = true)
  /\ (forall e,
        fst (V1.fetchMlItem itemId w h) = Throw e ->
        (forall c,
            err_code e = Some c <->
            (c = 429 \/ c = 404 \/ c = 403)%Z
            /\ exists header body,
                marketplace_get w h itemId = Response c header body)
        /\ (err_retryAfter e <> None <-> err_code e = Some 429%Z)).
Proof.
  unfold V1.fetchMlItem, bind, httpMlGet, throw, ret. cbn.
  destruct (marketplace_get w h itemId) as [|status header body]; cbn.
  - split; [reflexivity|]. split; [discriminate|]. split.
    + intros item. split; [discriminate|].
      intros (st & hd & H & _). discriminate H.
    + intros e He. inversion He; subst. cbn. split.
      * intros c. split; [discriminate|].
        intros (_ & hd & bd & H). discriminate H.
      * split; [intros H; contradiction | discriminate].
  - assert (Hcoded : forall c msg ra,
              (c = 429 \/ c = 404 \/ c = 403)%Z -> status = c ->
              (forall item,
                  Throw (mkError msg (Some c) ra) = Ok item <->
                  exists status0 header0,
                    Response status header body
                    = Response status0 header0 (Some item)
                    /\ statusOk status0 = true)
              /\ (forall e,
                    @Throw MlBody (mkError msg (Some c) ra) = Throw e ->
                    forall c', err_code e = Some c' <->
                      (c' = 429 \/ c' = 404 \/ c' = 403)%Z
                      /\ exists header0 body0,
                          Response status header body
                          = Response c' header0 body0)).
    { intros c msg ra Hc ->. split.
      - intros item. split; [discriminate|].
        intros (st & hd & H & Hok). inversion H; subst st.
        destruct Hc as [-> | [-> | ->]]; discriminate Hok.
      - intros e He. inversion He; subst e. cbn. intros c'. split.
        + intros H. inversion H; subst c'. split; [exact Hc|]. eauto.
        + intros (_ & hd & bd & H). inversion H; subst. reflexivity. }
    assert (Hplain : forall msg,
              (status <> 429 /\ status <> 404 /\ status <> 403)%Z ->
              forall e, @Throw MlBody (plainError msg) = Throw e ->
                (forall c', err_code e = Some c' <->
                   (c' = 429 \/ c' = 404 \/ c' = 403)%Z
                   /\ exists header0 body0,
                       Response status header body
                       = Response c' header0 body0)
                /\ (err_retryAfter e <> None <-> err_code e = Some 429%Z)).
    { intros msg Hne e He. inversion He; subst e. cbn. split.
      - intros c'. split; [discriminate|].
        intros (Hc & hd & bd & H). inversion H; subst. lia.
      - split; [intros H; contradiction | discriminate]. }
    destruct (status =? 429)%Z eqn:E429.
    { apply Z.eqb_eq in E429. cbn.
      split; [reflexivity|]. split; [discriminate|].
      edestruct (Hcoded 429%Z) as [H1 H2]; [left; reflexivity | exact E429 |].
      split; [exact H1|]. intros e He. split; [apply (H2 e He)|].
      inversion He; subst e. cbn. split; [reflexivity | discriminate]. }
    destruct (status =? 404)%Z eqn:E404.
    { apply Z.eqb_eq in E404. cbn.
      split; [reflexivity|]. split; [discriminate|].
      edestruct (Hcoded 404%Z) as [H1 H2];
        [right; left; reflexivity | exact E404 |].
      split; [exact H1|]. intros e He. split; [apply (H2 e He)|].
      inversion He; subst e. cbn.
      split; [intros H; contradiction | discriminate]. }
    destruct (status =? 403)%Z eqn:E403.
    { apply Z.eqb_eq in E403. cbn.
      split; [reflexivity|]. split; [discriminate|].
      edestruct (Hcoded 403%Z) as [H1 H2];
        [right; right; reflexivity | exact E403 |].
      split; [exact H1|]. intros e He. split; [apply (H2 e He)|].
      inversion He; subst e. cbn.
      split; [intros H; contradiction | discriminate]. }
    apply Z.eqb_neq in E429, E404, E403.
    destruct (statusOk status) eqn:Hok; cbn.
    + destruct body as [item'|]; cbn;
        (split; [reflexivity|]); (split; [discriminate|]); split.
      * intros item. split.
        -- intros H. inversion H; subst. eauto.
        -- intros (st & hd & H & _). inversion H; subst. reflexivity.
      * intros e He. discriminate He.
      * intros item. split; [discriminate|].
        intros (st & hd & H & _). discriminate H.
      * intros e He. apply (Hplain _ (conj E429 (conj E404 E403)) e He).
    + split; [reflexivity|]. split; [discriminate|]. split.
      * intros item. split; [discriminate|].
        intros (st & hd & H & Hok'). inversion H; subst. congruence.
      * intros e He. apply (Hplain _ (conj E429 (conj E404 E403)) e He).
Qed.

(** The item "R" is rate-limited: the error carries the code 429. *)
Lemma fetchMlItem_classifies_witness :
  err_code (rateLimitError (Some "3")) = Some 429%Z <->
  (429 = 429 \/ 429 = 404 \/ 429 = 403)%Z
  /\ exists header body,
      marketplace_get (rateLimitWorld "3") [] "R"
      = Response 429 header body.
Proof.
  apply (proj1 (proj2 (proj2 (proj2 (fetchMlItem_classifies
                                       "R" (rateLimitWorld "3") [])))
                      (rateLimitError (Some "3")) eq_refl)).
Defined.

(** ** When the scan ends *)

(** X18: a page without products, be it an empty list or a body with
    no [products] field, ends either loop at once: the scan returns
    what it has collected so far, the targeted lookup the matches it
    has, and neither reads another page. *)
Theorem empty_page_ends_the_scan
    (fuel : nat) (w : World) (h : Trace) (since_id : Z) :
  getError (storefront_get w h since_id) = None ->
  pageOf (storefront_get w h since_id) = [] ->
  (forall limit results,
      capReached limit results = false ->
      V1.listVariantsBatch_loop (S fuel) limit results since_id w h
      = (Ok results, [EvShopifyGet since_id (storefront_get w h since_id)]))
  /\
  (forall targetSku matches,
      V1.findVariantsBySku_loop (S fuel) targetSku matches since_id w h
      = (Ok matches, [EvShopifyGet since_id (storefront_get w h since_id)])).
Proof.
  intros Herr Hpage. split.
  - intros limit results Hcap.
    rewrite listVariantsBatch_loop_step by exact Hcap.
    cbv zeta. rewrite Herr, Hpage. reflexivity.
  - intros targetSku matches. cbn [V1.findVariantsBySku_loop].
    unfold bind, V1.shopifyGet, bind, httpShopifyGet, throw, ret. cbn.
    destruct (storefront_get w h since_id) as [|status hdr [[products|]|]];
      cbn in Herr, Hpage |- *; try discriminate Herr;
      destruct (statusOk status); cbn in Herr |- *; try discriminate Herr.
    + subst products. reflexivity.
    + reflexivity.
Qed.

(** A storefront with an empty catalogue: one read, no entry. *)
Lemma empty_page_ends_the_scan_witness :
  V1.listVariantsBatch_loop 1 (IInt 0) [] 0
    (catalogWorld [] (mlPrices []) okPut) []
  = (Ok [],
     [EvShopifyGet 0
        (storefront_get (catalogWorld [] (mlPrices []) okPut) [] 0)]).
Proof.
  apply (proj1 (empty_page_ends_the_scan
                  0 (catalogWorld [] (mlPrices []) okPut) [] 0%Z
                  eq_refl eq_refl)).
  reflexivity.
Defined.

Lemma pushProducts_grows (n : Z) (products : list Product)
    (results : list Entry) :
  (Z.of_nat (length results) < n)%Z ->
  withVariants products -> products <> [] ->
  (length results
   < length (V1.pushProducts (IInt n) products results))%nat.
Proof.
  intros Hlt Hvar Hne.
  rewrite pushProducts_bounded by exact Hlt.
  rewrite length_firstn, length_app.
  pose proof (entriesOf_length_ge products Hvar) as Hge.
  destruct products; [contradiction|]. cbn [length] in Hge. lia.
Qed.

Lemma listVariantsBatch_loop_terminates (n : Z) (w : World) :
  (0 < n)%Z -> servesVariants w ->
  forall fuel results since_id h,
    (length results <= Z.to_nat n)%nat ->
    (Z.to_nat n - length results < fuel)%nat ->
    fst (V1.listVariantsBatch_loop fuel (IInt n) results since_id w h)
    <> OutOfFuel.
Proof.
  intros Hn Hvar. induction fuel as [|fuel IH];
    intros results since_id h Hle Hfuel; [lia|].
  destruct (capReached (IInt n) results) eqn:Hcap.
  { rewrite listVariantsBatch_loop_capped by exact Hcap. discriminate. }
  assert (Hlt : (Z.of_nat (length results) < n)%Z).
  { unfold capReached in Hcap. apply negb_false_iff in Hcap.
    cbn in Hcap. apply orb_true_iff in Hcap as [Hc | Hc].
    - apply Z.leb_le in Hc. lia.
    - apply Z.ltb_lt in Hc. exact Hc. }
  rewrite listVariantsBatch_loop_step by exact Hcap. cbv zeta.
  destruct (getError (storefront_get w h since_id)); [discriminate|].
  destruct (isNil (pageOf (storefront_get w h since_id))) eqn:Hnil;
    [discriminate|].
  destruct (_ <? _)%nat; [discriminate|].
  assert (Hne : pageOf (storefront_get w h since_id) <> [])
    by (intros E; rewrite E in Hnil; discriminate).
  pose proof (pushProducts_grows n _ results Hlt (Hvar h since_id) Hne)
    as Hgrow.
  assert (Hcapd : (length (V1.pushProducts (IInt n)
                             (pageOf (storefront_get w h since_id)) results)
                   <= Z.to_nat n)%nat).
  { rewrite pushProducts_bounded by exact Hlt. apply firstn_le_length. }
  specialize (IH (V1.pushProducts (IInt n)
                    (pageOf (storefront_get w h since_id)) results)
                 (lastId (pageOf (storefront_get w h since_id)))
                 (h ++ [EvShopifyGet since_id (storefront_get w h since_id)])
                 Hcapd ltac:(lia)).
  destruct (V1.listVariantsBatch_loop fuel _ _ _ _ _) as [r2 e2].
  exact IH.
Qed.

(** X19: a scan with a positive limit comes to an end against any
    storefront whose products have variants, also one that never runs
    out of pages: with fuel for [limit] turns of the loop it returns or
    throws, it is never cut off. *)
Theorem bounded_scan_terminates
    (n : Z) (w : World) (fuel : nat) (h : Trace) :
  (0 < n)%Z -> servesVariants w ->
  (Z.to_nat n < fuel)%nat ->
  fst (V1.listVariantsBatch fuel (IInt n) w h) <> OutOfFuel.
Proof.
  intros Hn Hvar Hfuel. unfold V1.listVariantsBatch.
  apply (listVariantsBatch_loop_terminates n w Hn Hvar); cbn [length]; lia.
Qed.

(** Against the storefront that never runs out, a limit of 3 ends the
    scan. *)
Lemma bounded_scan_terminates_witness :
  fst (V1.listVariantsBatch 4 (IInt 3) endlessWorld []) <> OutOfFuel.
Proof.
  apply (bounded_scan_terminates 3 endlessWorld 4 []).
  - reflexivity.
  - intros h since_id. vm_compute. reflexivity.
  - apply Nat.leb_le. reflexivity.
Defined.

(** X20: the unbounded scan and the targeted lookup end only when the
    storefront serves a short page.  Against a storefront whose pages
    are all full, each uses up any fuel it is given, with one page read
    for every unit of fuel. *)
Theorem unbounded_scan_needs_a_short_page
    (w : World) (fuel : nat) (h : Trace) :
  neverShort w ->
  (forall limit,
      limit_le0 limit = true ->
      fst (V1.listVariantsBatch fuel limit w h) = OutOfFuel
      /\ length (pageRequests (snd (V1.listVariantsBatch fuel limit w h)))
         = fuel)
  /\
  (forall targetSku,
      fst (V1.findVariantsBySku fuel targetSku w h) = OutOfFuel
      /\ length (pageRequests (snd (V1.findVariantsBySku fuel targetSku w h)))
         = fuel).
Proof.
  intros Hfull.
  assert (Hscan : forall limit, limit_le0 limit = true ->
            forall fuel results since_id h,
              fst (V1.listVariantsBatch_loop fuel limit results since_id w h)
              = OutOfFuel
              /\ length (pageRequests
                           (snd (V1.listVariantsBatch_loop fuel limit results
                                   since_id w h))) = fuel).
  { intros limit Hle. induction fuel0 as [|fuel0 IH];
      intros results since_id h0.
    - cbn [V1.listVariantsBatch_loop]. rewrite Hle. split; reflexivity.
    - rewrite listVariantsBatch_loop_step
        by (unfold capReached; rewrite Hle; reflexivity).
      cbv zeta. destruct (Hfull h0 since_id) as [Herr Hlen].
      rewrite Herr.
      destruct (pageOf (storefront_get w h0 since_id)) as [|p ps] eqn:Hp;
        [cbn in Hlen; lia|].
      cbn [isNil]. apply Nat.ltb_ge in Hlen. rewrite Hlen.
      specialize (IH (V1.pushProducts limit (p :: ps) results)
                     (lastId (p :: ps))
                     (h0 ++ [EvShopifyGet since_id
                               (storefront_get w h0 since_id)])).
      destruct (V1.listVariantsBatch_loop fuel0 _ _ _ _ _) as [r2 e2].
      cbn [fst snd pageRequests length] in *.
      destruct IH as [-> ->]. split; reflexivity. }
  split.
  - intros limit Hle. apply Hscan, Hle.
  - intros targetSku. unfold V1.findVariantsBySku.
    change (@nil Entry) with (filter (skuIs targetSku) []) at 1 2.
    rewrite findVariantsBySku_loop_filtered.
    destruct (Hscan (IInt 0) eq_refl fuel [] 0%Z h) as [H1 H2].
    destruct (V1.listVariantsBatch_loop fuel (IInt 0) [] 0 w h) as [r evs].
    cbn [fst snd] in *. subst r. split; [reflexivity | exact H2].
Qed.

(** Three units of fuel, three page reads, no result. *)
Lemma unbounded_scan_needs_a_short_page_witness :
  fst (V1.listVariantsBatch 3 (IInt 0) endlessWorld []) = OutOfFuel
  /\ length (pageRequests (snd (V1.listVariantsBatch 3 (IInt 0)
                                  endlessWorld []))) = 3%nat.
Proof.
  apply (proj1 (unbounded_scan_needs_a_short_page endlessWorld 3 []
                  ltac:(intros h since_id; split;
                        [reflexivity | apply Nat.leb_le; vm_compute;
                                       reflexivity]))).
  reflexivity.
Defined.
